(** * whisperx-api-server: transcript formatting and API-key checking

    A shallow embedding of [whisperx_api_server/formatters.py] and
    [whisperx_api_server/dependencies.py].

    Layout:
    - [Py]            the fragment of the Python runtime the two files rely on
                      (JSON-like objects, binary64 floats, dict and str
                      methods, exceptions);
    - [Config]        what the code uses of [whisperx_api_server.config];
    - [Formatters]    formatters.py, function by function;
    - [Dependencies]  dependencies.py, function by function;
    - [PyProps]       rounding, floor division and remainder of floats;
    - the properties, two modules per source file. *)

From Stdlib Require Import ZArith QArith Qround Qpower Qreduction.
From Stdlib Require Import String Ascii List Bool Lia Lqa.
From Stdlib Require Import DecimalString DecimalN.
Import ListNotations.
Local Open Scope string_scope.
Local Open Scope Z_scope.
Set Warnings "-register-all".

(* ================================================================== *)
(** * The Python fragment *)
(* ================================================================== *)

Module Py.

(** A [float] is a binary64: a finite one is represented by the rational
    it denotes, and there are the two infinities and NaN.  A [Finite x]
    stands for a float when [x] is a binary64 value, that is when rounding
    leaves it alone ([round64] below); the two zeros are not told apart. *)
Inductive float : Type :=
| Finite (x : Q)
| Inf (negative : bool)
| NaN.

(** Objects a transcript is made of: what [json] can carry.  A [str] is a
    sequence of code points below 256; an [int] is unbounded.  A [dict]
    keeps its insertion order, so it is an association list; its keys are
    [str]. *)
Inductive value : Type :=
| VNone
| VBool (b : bool)
| VInt (n : Z)
| VFloat (x : float)
| VStr (s : string)
| VList (items : list value)
| VDict (entries : list (string * value)).

Definition dict : Type := list (string * value).

(** Exceptions, by class; [Exception] stands for a class that is not
    listed.  [JSONDecodeError] and [UnicodeDecodeError] are subclasses of
    [ValueError] in Python, [FileNotFoundError] and the three after it of
    [OSError]; no [except] clause of the two files names a base class, so
    the classes are kept apart. *)
Inductive exn : Type :=
| KeyError (key : string)
| IndexError
| TypeError
| AttributeError
| ValueError (msg : string)
| OverflowError
| FileNotFoundError
| NotADirectoryError
| IsADirectoryError
| PermissionError
| UnicodeDecodeError
| JSONDecodeError (msg : string)
| HTTPException (status_code : Z) (detail : string)
| Exception (class_name : string) (msg : string).

Inductive result (A : Type) : Type :=
| Ok (a : A)
| Raise (e : exn).
Arguments Ok {A} a.
Arguments Raise {A} e.

Definition bind {A B : Type} (c : result A) (k : A -> result B) : result B :=
  match c with
  | Ok a => k a
  | Raise e => Raise e
  end.

Definition is_ok {A : Type} (c : result A) : bool :=
  match c with Ok _ => true | Raise _ => false end.

(** ** dict *)

Section Dict.
Context {V : Type}.

(** [d.get(k)], with [None] for Python's [None]. *)
Fixpoint get (d : list (string * V)) (k : string) : option V :=
  match d with
  | [] => None
  | (k', v) :: rest => if String.eqb k' k then Some v else get rest k
  end.

(** [d.get(k, default)]. *)
Definition get_or (d : list (string * V)) (k : string) (default : V) : V :=
  match get d k with
  | Some v => v
  | None => default
  end.

(** [d[k]]. *)
Definition getitem (d : list (string * V)) (k : string) : result V :=
  match get d k with
  | Some v => Ok v
  | None => Raise (KeyError k)
  end.

(** [d[k] = v]: an existing key keeps its place, a new one goes last. *)
Fixpoint setitem (d : list (string * V)) (k : string) (v : V)
  : list (string * V) :=
  match d with
  | [] => [(k, v)]
  | (k', v') :: rest =>
      if String.eqb k' k then (k', v) :: rest else (k', v') :: setitem rest k v
  end.

(** [d.update(other)]. *)
Definition update (d other : list (string * V)) : list (string * V) :=
  fold_left (fun acc kv => setitem acc (fst kv) (snd kv)) other d.

(** [k in d]. *)
Definition contains (d : list (string * V)) (k : string) : bool :=
  match get d k with Some _ => true | None => false end.

End Dict.

(** [l.append(x)]. *)
Definition append {A : Type} (l : list A) (x : A) : list A :=
  (l ++ [x])%list.

(** [l[i]] for a non-negative [i]. *)
Definition index {A : Type} (l : list A) (i : nat) : result A :=
  match nth_error l i with
  | Some x => Ok x
  | None => Raise IndexError
  end.

(** [for x in items: state = body(state, x)], stopping at the first
    exception. *)
Fixpoint for_each {S A : Type} (body : S -> A -> result S)
  (items : list A) (state : S) : result S :=
  match items with
  | [] => Ok state
  | x :: rest =>
      match body state x with
      | Ok state' => for_each body rest state'
      | Raise e => Raise e
      end
  end.

(** ** str *)

Definition newline : string := String (ascii_of_nat 10) "".

(** [c.isspace()] on the code points below 256: TAB..CR, FS..US, space,
    NEL and NBSP. *)
Definition isspace (c : ascii) : bool :=
  let n := nat_of_ascii c in
  (((9 <=? n) && (n <=? 13)) || ((28 <=? n) && (n <=? 32))
   || (n =? 133) || (n =? 160))%nat.

Fixpoint lstrip (s : string) : string :=
  match s with
  | String c rest => if isspace c then lstrip rest else s
  | EmptyString => EmptyString
  end.

Fixpoint rstrip (s : string) : string :=
  match s with
  | String c rest =>
      let r := rstrip rest in
      if isspace c && String.eqb r "" then "" else String c r
  | EmptyString => EmptyString
  end.

(** [s.strip()]. *)
Definition strip (s : string) : string := rstrip (lstrip s).

(** [s.replace(old, new)] for a one-character [old]. *)
Fixpoint replace (s : string) (old : ascii) (new : string) : string :=
  match s with
  | String c rest =>
      (if Ascii.eqb c old then new else String c "") ++ replace rest old new
  | EmptyString => EmptyString
  end.

(** [sep.join(lines)]. *)
Definition join (sep : string) (lines : list string) : string :=
  String.concat sep lines.

(** ** Numbers *)

(** *** binary64 arithmetic

    The interpreter's float operations are those of C doubles: the exact
    result, rounded to the nearest binary64 with ties to the even
    significand.  [pow2 e] is 2 to the [e]; [ilog2 q] is the binary
    exponent of a positive [q], the floor of its logarithm; [rne] rounds
    to the nearest integer, ties to even. *)
Definition pow2 (e : Z) : Q := (2 ^ e)%Q.

Definition ilog2 (q : Q) : Z :=
  let l := Z.log2 (Qnum q) - Z.log2 (Z.pos (Qden q)) in
  if Qle_bool (pow2 l) q then l else l - 1.

Definition rne (q : Q) : Z :=
  let f := Qfloor q in
  match (q - inject_Z f ?= 1 # 2)%Q with
  | Lt => f
  | Gt => f + 1
  | Eq => if Z.even f then f else f + 1
  end.

(** A positive [q] rounded to 53 significant bits, or to a multiple of
    2^-1074 where it is subnormal; the exponent is not bounded above. *)
Definition round_pos (q : Q) : Q :=
  let e := Z.max (ilog2 q - 52) (-1074) in
  (inject_Z (rne (q / pow2 e)) * pow2 e)%Q.

(** Rounding to binary64: what rounds to 2^1024 or beyond overflows to an
    infinity. *)
Definition round64 (q : Q) : float :=
  let q := Qred q in
  match (q ?= 0)%Q with
  | Eq => Finite 0
  | Gt => let r := round_pos q in
          if Qle_bool (pow2 1024) r then Inf false else Finite (Qred r)
  | Lt => let r := round_pos (- q) in
          if Qle_bool (pow2 1024) r then Inf true else Finite (Qred (- r))
  end.

(** Truncation toward zero. *)
Definition trunc (x : Q) : Z :=
  if Qle_bool 0 x then Qfloor x else - Qfloor (- x).

Definition fneg (a : float) : float :=
  match a with
  | Finite x => Finite (Qred (- x))
  | Inf s => Inf (negb s)
  | NaN => NaN
  end.

Definition fadd (a b : float) : float :=
  match a, b with
  | NaN, _ | _, NaN => NaN
  | Finite x, Finite y => round64 (x + y)
  | Inf s, Inf s' => if Bool.eqb s s' then Inf s else NaN
  | Inf s, Finite _ | Finite _, Inf s => Inf s
  end.

Definition fsub (a b : float) : float := fadd a (fneg b).

Definition fdiv (a b : float) : float :=
  match a, b with
  | NaN, _ | _, NaN => NaN
  | Finite x, Finite y =>
      if Qeq_bool y 0 then
        if Qeq_bool x 0 then NaN else Inf (negb (Qle_bool 0 x))
      else round64 (x / y)
  | Inf _, Inf _ => NaN
  | Inf s, Finite y => Inf (xorb s (negb (Qle_bool 0 y)))
  | Finite _, Inf _ => Finite 0
  end.

(** C's [floor]. *)
Definition ffloor (a : float) : float :=
  match a with
  | Finite x => Finite (inject_Z (Qfloor x))
  | _ => a
  end.

(** C's [fmod]: the remainder of the division truncated toward zero; it
    is exact. *)
Definition fmod (a b : float) : float :=
  match a, b with
  | Finite x, Finite y =>
      if Qeq_bool y 0 then NaN
      else Finite (Qred (x - y * inject_Z (trunc (x / y))))
  | Finite x, Inf _ => a
  | _, _ => NaN
  end.

(** [a < b]; a comparison with NaN is false. *)
Definition flt (a b : float) : bool :=
  match a, b with
  | Finite x, Finite y => negb (Qle_bool y x)
  | Finite _, Inf s => negb s
  | Inf s, Finite _ => s
  | Inf s, Inf s' => s && negb s'
  | _, _ => false
  end.

(** C's truth value of a double: it is not zero. *)
Definition fnonzero (a : float) : bool :=
  match a with
  | Finite x => negb (Qeq_bool x 0)
  | _ => true
  end.

(** [a == b]; NaN equals nothing, itself included. *)
Definition feq (a b : float) : bool :=
  match a, b with
  | Finite x, Finite y => Qeq_bool x y
  | Inf s, Inf s' => Bool.eqb s s'
  | _, _ => false
  end.

(** CPython's [_float_div_mod] (floatobject.c), which [float.__floordiv__]
    calls with a non-zero divisor: the quotient is recovered from the
    exact remainder and snapped to the nearest integral value. *)
Definition float_div_mod (vx wx : float) : float * float :=
  let rem := fmod vx wx in
  let div := fdiv (fsub vx rem) wx in
  let '(rem, div) :=
    if fnonzero rem then
      if xorb (flt wx (Finite 0)) (flt rem (Finite 0))
      then (fadd rem wx, fsub div (Finite 1))
      else (rem, div)
    else (Finite 0, div) in
  let floordiv :=
    if fnonzero div then
      let floordiv := ffloor div in
      if flt (Finite (1 # 2)) (fsub div floordiv)
      then fadd floordiv (Finite 1)
      else floordiv
    else Finite 0 in
  (floordiv, rem).

(** CPython's [float_rem], behind [float.__mod__], for a non-zero
    divisor. *)
Definition float_rem (vx wx : float) : float :=
  let rem := fmod vx wx in
  if fnonzero rem then
    if xorb (flt wx (Finite 0)) (flt rem (Finite 0))
    then fadd rem wx
    else rem
  else Finite 0.

(** *** int and float together *)

(** What supports [//] and [%] with an [int]: an [int] ([bool] is a
    subclass of it) or a [float]. *)
Inductive number : Type :=
| NInt (n : Z)
| NFloat (f : float).

Definition as_number (v : value) : option number :=
  match v with
  | VBool b => Some (NInt (if b then 1 else 0))
  | VInt n => Some (NInt n)
  | VFloat x => Some (NFloat x)
  | _ => None
  end.

(** [x // d] and [x % d] for a non-zero [int] [d]: on an [int] the exact
    floor division, on a [float] the float operation with [float(d)]. *)
Definition floordiv (x : number) (d : Z) : number :=
  match x with
  | NInt n => NInt (n / d)
  | NFloat f => NFloat (fst (float_div_mod f (round64 (inject_Z d))))
  end.

Definition modulo (x : number) (d : Z) : number :=
  match x with
  | NInt n => NInt (n mod d)
  | NFloat f => NFloat (float_rem f (round64 (inject_Z d)))
  end.

(** [int(x)]: truncation toward zero; there is no integer for NaN or an
    infinity. *)
Definition int (x : number) : result Z :=
  match x with
  | NInt n => Ok n
  | NFloat (Finite q) => Ok (trunc q)
  | NFloat NaN => Raise (ValueError "cannot convert float NaN to integer")
  | NFloat (Inf _) => Raise OverflowError
  end.

(** Decimal digits of a natural number, as [str(n)] prints them. *)
Definition decimal (n : N) : string :=
  NilZero.string_of_uint (N.to_uint n).

(** [format(n, "02d")]: sign, then the digits padded with zeros to a total
    width of at least two. *)
Definition format_02d (n : Z) : string :=
  let digits := decimal (Z.abs_N n) in
  if n <? 0 then "-" ++ digits
  else if (String.length digits <? 2)%nat then "0" ++ digits
  else digits.

(** ** Truth value, equality, hashing *)

(** [bool(v)]. *)
Definition truthy (v : value) : bool :=
  match v with
  | VNone => false
  | VBool b => b
  | VInt n => negb (n =? 0)
  | VFloat x => fnonzero x
  | VStr s => negb (String.eqb s "")
  | VList items => match items with [] => false | _ => true end
  | VDict entries => match entries with [] => false | _ => true end
  end.

(** [hash(v)] succeeds on [None], numbers and [str]; a [list] or a [dict]
    is unhashable. *)
Definition hashable (v : value) : bool :=
  match v with
  | VList _ | VDict _ => false
  | _ => true
  end.

(** The value a number is compared by: [int] and [float] compare by the
    exact values they denote. *)
Definition number_value (x : number) : float :=
  match x with
  | NInt n => Finite (inject_Z n)
  | NFloat f => f
  end.

(** [a == b] when at least one side is hashable, which is the case whenever
    one side is a dictionary key: numbers compare by value across [bool],
    [int] and [float]; [None] and [str] only equal their own kind. *)
Definition eq (a b : value) : bool :=
  match as_number a, as_number b with
  | Some x, Some y => feq (number_value x) (number_value y)
  | _, _ =>
      match a, b with
      | VNone, VNone => true
      | VStr s, VStr t => String.eqb s t
      | _, _ => false
      end
  end.

(** [for x in v]: the items of a [list], the keys of a [dict], the
    characters of a [str]; anything else is not iterable. *)
Definition iter (v : value) : result (list value) :=
  match v with
  | VList items => Ok items
  | VDict entries => Ok (map (fun kv => VStr (fst kv)) entries)
  | VStr s => Ok (map (fun c => VStr (String c "")) (list_ascii_of_string s))
  | _ => Raise TypeError
  end.

(** [v.get(k, default)]: only a [dict] has the method. *)
Definition value_get (v : value) (k : string) (default : value)
  : result value :=
  match v with
  | VDict d => Ok (get_or d k default)
  | _ => Raise AttributeError
  end.

(** [v.strip()]: only a [str] has the method. *)
Definition value_strip (v : value) : result string :=
  match v with
  | VStr s => Ok (strip s)
  | _ => Raise AttributeError
  end.

End Py.

Declare Scope py_scope.
Delimit Scope py_scope with py.
Notation "x <- c ;; k" := (Py.bind c (fun x => k))
  (at level 61, c at next level, right associativity) : py_scope.
Notation "' pat <- c ;; k" := (Py.bind c (fun x => match x with pat => k end))
  (at level 61, pat pattern, c at next level, right associativity) : py_scope.

Local Open Scope py_scope.

(* ================================================================== *)
(** * whisperx_api_server.config *)
(* ================================================================== *)

Module Config.

(** Modelled from the spec: the enumeration [MediaType] of
    [whisperx_api_server.config] is not among the source files.  These are
    the four members formatters.py names; they are taken to be values
    the response classes accept as a media type, and a response carries
    the member it was built with.  The string each member stands for is
    stated nowhere in the sources: where a statement is about these
    strings it takes them as a parameter. *)
Inductive MediaType : Type :=
| APPLICATION_JSON
| TEXT_PLAIN
| TEXT_VTT
| TEXT_MARKDOWN.

(** Modelled from the spec: the settings class [Config] is not among the
    source files; dependencies.py reads these two attributes of it, either
    of which may be unset. *)
Record Config : Type := {
  api_key : option string;
  api_keys_file : option string
}.

End Config.

(* ================================================================== *)
(** * formatters.py *)
(* ================================================================== *)

Module Formatters.
Import Py Config.

(** A response, as built: by which class, from which content, with
    which media type. *)
Record Response : Type := mkResponse {
  is_json : bool;
  content : value;
  media_type : MediaType
}.

(** [fastapi.responses.Response(content=..., media_type=...)].  The
    constructor renders the content into the body at once: [None] is the
    empty body, a [str] is encoded (every [str] of the model can be), and
    any other object of the model has no [encode] method. *)
Definition PlainResponse (content : value) (media_type : MediaType)
  : result Response :=
  match content with
  | VNone | VStr _ => Ok (mkResponse false content media_type)
  | _ => Raise AttributeError
  end.

(** What [json.dumps(..., allow_nan=False)] accepts: no NaN and no
    infinity, at any depth. *)
Fixpoint json_compliant (v : value) : bool :=
  match v with
  | VFloat (Finite _) => true
  | VFloat _ => false
  | VList items => forallb json_compliant items
  | VDict entries =>
      (fix all (entries : list (string * value)) : bool :=
         match entries with
         | [] => true
         | (_, x) :: rest => json_compliant x && all rest
         end) entries
  | _ => true
  end.

(** [fastapi.responses.JSONResponse(content=..., media_type=...)].  The
    constructor renders the content with [json.dumps(..., allow_nan=False)]
    at once, which raises [ValueError] on a NaN or an infinity (with this
    message in CPython 3.11). *)
Definition JSONResponse (content : value) (media_type : MediaType)
  : result Response :=
  if json_compliant content then Ok (mkResponse true content media_type)
  else Raise (ValueError "Out of range float values are not JSON compliant").

(** The three writer classes imported from [whisperx.utils]. *)
Inductive writer_class : Type := WriteSRT | WriteVTT | WriteAudacity.

Definition _get_segments (transcript : dict) : value :=
  match get_or transcript "segments" (VDict []) with
  | VDict segments => get_or segments "segments" (VList [])
  | segments => segments
  end.

Definition _format_timestamp (seconds : number) : result string :=
  hours <- int (floordiv seconds 3600) ;;
  minutes <- int (floordiv (modulo seconds 3600) 60) ;;
  secs <- int (modulo seconds 60) ;;
  Ok (if hours >? 0 then
        format_02d hours ++ ":" ++ format_02d minutes ++ ":" ++ format_02d secs
      else
        format_02d minutes ++ ":" ++ format_02d secs).

(** [_format_timestamp(v)] for an arbitrary object [v]: [v // 3600] is a
    [TypeError] unless [v] is a number. *)
Definition format_timestamp_value (v : value) : result string :=
  match as_number v with
  | Some seconds => _format_timestamp seconds
  | None => Raise TypeError
  end.

(** [_format_timestamp(segment.get("start", 0))]. *)
Definition segment_timestamp (segment : value) : result string :=
  start <- value_get segment "start" (VInt 0) ;;
  format_timestamp_value start.

(** The two lines every loop over the segments starts with:
    [speaker = segment.get("speaker", "Unknown")] and
    [text = segment.get("text", "").strip()]. *)
Definition speaker_and_text (segment : value) : result (value * string) :=
  speaker <- value_get segment "speaker" (VStr "Unknown") ;;
  text <- value_get segment "text" (VStr "") ;;
  text <- value_strip text ;;
  Ok (speaker, text).

(** [lines.pop()] when [lines and lines[-1] == ">"]. *)
Definition drop_trailing_quote (lines : list string) : list string :=
  match rev lines with
  | last :: _ => if String.eqb last ">" then removelast lines else lines
  | [] => lines
  end.

(** [ListWriter]: the file-like object the whisperx writers print into. *)
Record ListWriter : Type := { lines : list string }.
Definition ListWriter_init : ListWriter := {| lines := [] |}.
Definition write (self : ListWriter) (text : string) : ListWriter :=
  {| lines := append (lines self) text |}.
Definition get_output (self : ListWriter) : string := join "" (lines self).
Definition flush (self : ListWriter) : ListWriter := self.

Definition update_options (kwargs defaults : dict) : dict :=
  let options := defaults in
  update options
    (fold_left
       (fun acc kv => setitem acc (fst kv) (get_or kwargs (fst kv) (snd kv)))
       defaults []).

Section Externals.

(** What the interpreter prints for an object that is not a [str] when it
    is interpolated into an f-string ([str(v)]: [None], [True], [12],
    [0.5], a list's or a dict's [repr]).  It is the interpreter's, and is
    taken as a parameter. *)
Variable repr : value -> string.

(** [writer_class(output_dir=None).write_result(result, file, options)] of
    whisperx: the texts it writes to [file], in order, or the exception it
    raises, of whatever class.  It is third-party code, taken as a
    parameter; it is assumed to read [result] and [options] without
    changing them. *)
Variable write_result : writer_class -> value -> dict -> result (list string).

(** [f"{v}"]. *)
Definition fmt (v : value) : string :=
  match v with
  | VStr s => s
  | _ => repr v
  end.

Definition md_basic_body (include_timestamps : value)
  (lines : list string) (segment : value) : result (list string) :=
  '(speaker, text) <- speaker_and_text segment ;;
  if String.eqb text "" then Ok lines
  else if truthy include_timestamps then
    timestamp <- segment_timestamp segment ;;
    Ok (append (append lines
                  (fmt speaker ++ " [" ++ timestamp ++ "]: " ++ text)) "")
  else
    Ok (append (append lines (fmt speaker ++ ": " ++ text)) "").

Definition format_md_basic (transcript : dict) (include_timestamps : value)
  : result string :=
  segments <- iter (_get_segments transcript) ;;
  lines <- for_each (md_basic_body include_timestamps) segments [] ;;
  Ok (strip (join newline lines)).

Definition md_list_body (include_timestamps : value)
  (lines : list string) (segment : value) : result (list string) :=
  '(speaker, text) <- speaker_and_text segment ;;
  if String.eqb text "" then Ok lines
  else if truthy include_timestamps then
    timestamp <- segment_timestamp segment ;;
    Ok (append lines
          ("- **" ++ fmt speaker ++ "** [" ++ timestamp ++ "]: " ++ text))
  else
    Ok (append lines ("- **" ++ fmt speaker ++ "**: " ++ text)).

Definition format_md_list (transcript : dict) (include_timestamps : value)
  : result string :=
  segments <- iter (_get_segments transcript) ;;
  lines <- for_each (md_list_body include_timestamps) segments [] ;;
  Ok (join newline lines).

Definition md_quote_body (include_timestamps : value)
  (lines : list string) (segment : value) : result (list string) :=
  '(speaker, text) <- speaker_and_text segment ;;
  if String.eqb text "" then Ok lines
  else if truthy include_timestamps then
    timestamp <- segment_timestamp segment ;;
    Ok (append (append lines
                  ("> **" ++ fmt speaker ++ "** [" ++ timestamp ++ "]: " ++ text))
          ">")
  else
    Ok (append (append lines ("> **" ++ fmt speaker ++ "**: " ++ text)) ">").

Definition format_md_quote (transcript : dict) (include_timestamps : value)
  : result string :=
  segments <- iter (_get_segments transcript) ;;
  lines <- for_each (md_quote_body include_timestamps) segments [] ;;
  Ok (join newline (drop_trailing_quote lines)).

Definition two_speaker_body (speakers : list value)
  (include_timestamps : value)
  (lines : list string) (segment : value) : result (list string) :=
  '(speaker, text) <- speaker_and_text segment ;;
  if String.eqb text "" then Ok lines
  else
    let text := replace text "|" "\|" in
    text <- (if truthy include_timestamps then
               timestamp <- segment_timestamp segment ;;
               Ok ("[" ++ timestamp ++ "] " ++ text)
             else Ok text) ;;
    speaker0 <- index speakers 0 ;;
    let '(col1, col2) := if eq speaker speaker0 then (text, "") else ("", text) in
    Ok (append lines ("| " ++ col1 ++ " | " ++ col2 ++ " |")).

Definition _format_two_speaker_table (segments : value)
  (speakers : list value) (include_timestamps : value) : result string :=
  speaker0 <- index speakers 0 ;;
  speaker1 <- index speakers 1 ;;
  let lines := ["| " ++ fmt speaker0 ++ " | " ++ fmt speaker1 ++ " |";
                "| --- | --- |"] in
  segments <- iter segments ;;
  lines <- for_each (two_speaker_body speakers include_timestamps)
             segments lines ;;
  Ok (join newline lines).

Definition multi_speaker_body (include_timestamps : value)
  (lines : list string) (segment : value) : result (list string) :=
  '(speaker, text) <- speaker_and_text segment ;;
  if String.eqb text "" then Ok lines
  else
    let text := replace text "|" "\|" in
    if truthy include_timestamps then
      timestamp <- segment_timestamp segment ;;
      Ok (append lines
            ("| " ++ timestamp ++ " | " ++ fmt speaker ++ " | " ++ text ++ " |"))
    else
      Ok (append lines ("| " ++ fmt speaker ++ " | " ++ text ++ " |")).

Definition _format_multi_speaker_table (segments : value)
  (include_timestamps : value) : result string :=
  let lines :=
    if truthy include_timestamps then
      ["| Time | Speaker | Message |"; "| --- | --- | --- |"]
    else
      ["| Speaker | Message |"; "| --- | --- |"] in
  segments <- iter segments ;;
  lines <- for_each (multi_speaker_body include_timestamps) segments lines ;;
  Ok (join newline lines).

(** One step of [OrderedDict.fromkeys(seg.get("speaker", "Unknown") for seg
    in segments if seg.get("text", "").strip())]: the filter is evaluated
    first, then the speaker, which must be hashable to become a key; a key
    already present keeps its first occurrence.  A key is found by [==];
    Python finds it by identity as well, which objects taken as values do
    not have: a NaN, equal to nothing, is a new key here each time. *)
Definition speakers_body (keys : list value) (seg : value)
  : result (list value) :=
  text <- value_get seg "text" (VStr "") ;;
  text <- value_strip text ;;
  if String.eqb text "" then Ok keys
  else
    speaker <- value_get seg "speaker" (VStr "Unknown") ;;
    if hashable speaker then
      Ok (if existsb (eq speaker) keys then keys else append keys speaker)
    else Raise TypeError.

(** The unique speakers, in order of first appearance. *)
Definition detect_speakers (segments : value) : result (list value) :=
  segments <- iter segments ;;
  for_each speakers_body segments [].

Definition format_md_table (transcript : dict) (include_timestamps : value)
  : result string :=
  let segments := _get_segments transcript in
  speakers <- detect_speakers segments ;;
  if (List.length speakers =? 2)%nat then
    _format_two_speaker_table segments speakers include_timestamps
  else
    _format_multi_speaker_table segments include_timestamps.

(** The transcript is a mutable object shared with the caller: the function
    returns what it returns or raises, and the transcript as it leaves it. *)
Definition handle_whisperx_format (transcript : dict)
  (writer_class : writer_class) (options : dict) : result string * dict :=
  let output := ListWriter_init in
  match getitem transcript "language" with
  | Raise e => (Raise e, transcript)
  | Ok language =>
      match getitem transcript "segments" with
      | Raise e => (Raise e, transcript)
      | Ok (VDict segments) =>
          let segments := setitem segments "language" language in
          let transcript := setitem transcript "segments" (VDict segments) in
          (texts <- write_result writer_class (VDict segments) options ;;
           Ok (get_output (fold_left write texts output)),
           transcript)
      | Ok _ => (Raise TypeError, transcript)
      end
  end.

Definition format_transcription (transcript : dict) (format : string)
  (kwargs : dict) : result Response * dict :=
  let defaults :=
    [("max_line_width", VInt 1000);
     ("max_line_count", VNone);
     ("highlight_words", get_or kwargs "highlight_words" (VBool false))] in
  let options := update_options kwargs defaults in
  let md (formatter : dict -> value -> result string) :=
    let include_timestamps := get_or kwargs "include_timestamps" (VBool false) in
    (content <- formatter transcript include_timestamps ;;
     PlainResponse (VStr content) TEXT_MARKDOWN,
     transcript) in
  if String.eqb format "json" then
    let response_data := [("text", get_or transcript "text" (VStr ""))] in
    (JSONResponse (VDict response_data) APPLICATION_JSON, transcript)
  else if String.eqb format "verbose_json" then
    (JSONResponse (VDict transcript) APPLICATION_JSON, transcript)
  else if String.eqb format "vtt_json" then
    match handle_whisperx_format transcript WriteVTT options with
    | (Ok vtt_text, transcript) =>
        let transcript := setitem transcript "vtt_text" (VStr vtt_text) in
        (JSONResponse (VDict transcript) APPLICATION_JSON, transcript)
    | (Raise e, transcript) => (Raise e, transcript)
    end
  else if String.eqb format "text" then
    (PlainResponse (get_or transcript "text" (VStr "")) TEXT_PLAIN,
     transcript)
  else if String.eqb format "srt" then
    let '(content, transcript) :=
      handle_whisperx_format transcript WriteSRT options in
    (content <- content ;; PlainResponse (VStr content) TEXT_PLAIN,
     transcript)
  else if String.eqb format "vtt" then
    let '(content, transcript) :=
      handle_whisperx_format transcript WriteVTT options in
    (content <- content ;; PlainResponse (VStr content) TEXT_VTT,
     transcript)
  else if String.eqb format "aud" then
    let '(content, transcript) :=
      handle_whisperx_format transcript WriteAudacity options in
    (content <- content ;; PlainResponse (VStr content) TEXT_PLAIN,
     transcript)
  else if String.eqb format "md_basic" then md format_md_basic
  else if String.eqb format "md_list" then md format_md_list
  else if String.eqb format "md_quote" then md format_md_quote
  else if String.eqb format "md_table" then md format_md_table
  else (Raise (ValueError ("Unsupported format: " ++ format)), transcript).

End Externals.

End Formatters.

(* ================================================================== *)
(** * dependencies.py *)
(* ================================================================== *)

Module Dependencies.
Import Py Config.

(** What the module sees of a path that [Path.stat] resolves: the
    modification time ([st_mtime], a float, of which only equality is
    used), and what [open] and reading the whole file give: the text, or
    the exception raised ([PermissionError], [IsADirectoryError],
    [UnicodeDecodeError] on bytes that do not decode, [FileNotFoundError]
    when the file has gone since). *)
Record file : Type := {
  st_mtime : Q;
  contents : result string
}.

Inductive level : Type := INFO | ERROR.

(** The state the module's functions run in: the file system, which for
    a path gives the file or the exception [Path.stat] raises
    ([FileNotFoundError], [NotADirectoryError], [PermissionError], ...);
    the single entry of [_load_api_keys_cached]'s [lru_cache(maxsize=1)];
    and what has been logged. *)
Record world : Type := {
  fs : string -> result file;
  cache : option (string * Q * value);
  log : list (level * string)
}.

Definition logger (lvl : level) (msg : string) (w : world) : world :=
  {| fs := fs w; cache := cache w; log := append (log w) (lvl, msg) |}.

Definition set_cache (entry : string * Q * value) (w : world) : world :=
  {| fs := fs w; cache := Some entry; log := log w |}.

(** [Path(path).stat().st_mtime]. *)
Definition stat_mtime (w : world) (path : string) : result Q :=
  file <- fs w path ;;
  Ok (st_mtime file).

(** [open(path)] and reading it to the end; a path that [stat] cannot
    resolve cannot be opened either. *)
Definition read_text (w : world) (path : string) : result string :=
  file <- fs w path ;;
  contents file.

Section Externals.

(** [json.loads] on the text of a file: the value it parses to, whatever
    its type ([inr]), or the message of the [JSONDecodeError] ([inl]). *)
Variable json_load : string -> string + value.

(** What the interpreter prints for an object that is not a [str] when it
    is interpolated into an f-string. *)
Variable repr : value -> string.

(** [f"{v}"]. *)
Definition fstring (v : value) : string :=
  match v with
  | VStr s => s
  | _ => repr v
  end.

(** [lru_cache] returns the stored result when called again with equal
    arguments; it stores a result only when the call returns one. *)
Definition _load_api_keys_cached (w : world) (file_path : string)
  (file_mtime : Q) : result value * world :=
  let miss :=
    match read_text w file_path with
    | Raise e => (Raise e, w)
    | Ok text =>
        match json_load text with
        | inr keys => (Ok keys, set_cache (file_path, file_mtime, keys) w)
        | inl msg => (Raise (JSONDecodeError msg), w)
        end
    end in
  match cache w with
  | Some (path, mtime, keys) =>
      if String.eqb path file_path && Qeq_bool mtime file_mtime
      then (Ok keys, w)
      else miss
  | None => miss
  end.

Definition _get_api_keys (w : world) (api_keys_file : option string)
  : result value * world :=
  match api_keys_file with
  | None => (Ok (VDict []), w)
  | Some path =>
      if String.eqb path "" then (Ok (VDict []), w)
      else
        let '(r, w) :=
          match stat_mtime w path with
          | Ok mtime => _load_api_keys_cached w path mtime
          | Raise e => (Raise e, w)
          end in
        match r with
        | Raise FileNotFoundError =>
            (Ok (VDict []),
             logger ERROR ("API keys file not found: " ++ path) w)
        | Raise (JSONDecodeError msg) =>
            (Ok (VDict []),
             logger ERROR ("Invalid JSON in API keys file: " ++ msg) w)
        | _ => (r, w)
        end
  end.

Definition HTTP_403_FORBIDDEN : Z := 403.

(** [credentials != config.api_key]. *)
Definition differs (credentials : string) (api_key : option string) : bool :=
  match api_key with
  | Some k => negb (String.eqb credentials k)
  | None => true
  end.

(** [v is None]. *)
Definition is_none (v : value) : bool :=
  match v with
  | VNone => true
  | _ => false
  end.

Definition verify_api_key (w : world) (config : Config)
  (credentials : string) : result unit * world :=
  match _get_api_keys w (api_keys_file config) with
  | (Raise e, w) => (Raise e, w)
  | (Ok api_keys, w) =>
      match value_get api_keys credentials VNone with
      | Raise e => (Raise e, w)
      | Ok client_name =>
          if differs credentials (api_key config) && is_none client_name
          then (Raise (HTTPException HTTP_403_FORBIDDEN "Invalid API Key"), w)
          else if truthy client_name then
            (Ok tt,
             logger INFO
               ("Authorized request from client: '" ++ fstring client_name
                  ++ "'")
               w)
          else
            (Ok tt,
             logger INFO "Authorized request using the default API key" w)
      end
  end.

End Externals.

End Dependencies.

(* ================================================================== *)
(** * Properties of the float arithmetic *)
(* ================================================================== *)

Module PyProps.
Import Py.
Local Open Scope Q_scope.

(** ** Powers of two and binary exponents *)

Lemma two_neq_0 : ~ 2 == 0.
Proof. discriminate. Qed.

Lemma pow2_pos (e : Z) : 0 < pow2 e.
Proof. apply Qpower_0_lt. reflexivity. Qed.

Lemma pow2_add (a b : Z) : pow2 (a + b) == pow2 a * pow2 b.
Proof. apply Qpower_plus, two_neq_0. Qed.

Lemma pow2_le (a b : Z) : (a <= b)%Z -> pow2 a <= pow2 b.
Proof. intros H. apply Qpower_le_compat_l; [exact H | discriminate]. Qed.

Lemma pow2_lt (a b : Z) : (a < b)%Z -> pow2 a < pow2 b.
Proof. intros H. apply Qpower_lt_compat_l; [exact H | reflexivity]. Qed.

Lemma pow2_lt_inv (a b : Z) : pow2 a < pow2 b -> (a < b)%Z.
Proof. intros H. apply (Qpower_lt_compat_l_inv 2); [exact H | reflexivity]. Qed.

Lemma pow2_Z (e : Z) : (0 <= e)%Z -> pow2 e == inject_Z (2 ^ e).
Proof. intros H. unfold pow2. rewrite Zpower_Qpower by exact H. reflexivity. Qed.

Lemma log2_Q (n : Z) :
  (0 < n)%Z -> pow2 (Z.log2 n) <= inject_Z n /\ inject_Z n < pow2 (Z.log2 n + 1).
Proof.
  intros H. destruct (Z.log2_spec n H) as [Hl Hu].
  pose proof (Z.log2_nonneg n) as H0.
  rewrite !pow2_Z by lia. rewrite <- Zle_Qle, <- Zlt_Qlt.
  split; [exact Hl | ]. replace (Z.log2 n + 1)%Z with (Z.succ (Z.log2 n)) by lia.
  exact Hu.
Qed.

Lemma ilog2_spec (q : Q) :
  0 < q -> pow2 (ilog2 q) <= q /\ q < pow2 (ilog2 q + 1).
Proof.
  intros Hq. unfold ilog2.
  destruct q as [n d]. cbn [Qnum Qden].
  assert (Hn : (0 < n)%Z).
  { unfold Qlt in Hq. cbn in Hq. lia. }
  destruct (log2_Q n Hn) as [Hnl Hnu].
  destruct (log2_Q (Z.pos d) eq_refl) as [Hdl Hdu].
  set (ln := Z.log2 n) in *. set (ld := Z.log2 (Z.pos d)) in *.
  assert (E : (n # d) * inject_Z (Z.pos d) == inject_Z n).
  { rewrite (Qmake_Qdiv n d). field. discriminate. }
  assert (Hd : 0 < inject_Z (Z.pos d)) by reflexivity.
  pose proof (pow2_pos ld) as Pld.
  pose proof (pow2_pos (ld + 1)) as Pld1.
  destruct (Qle_bool (pow2 (ln - ld)) (n # d)) eqn:Hb.
  - apply Qle_bool_iff in Hb. split; [exact Hb | ].
    assert (E1 : pow2 (ln + 1) == pow2 (ln - ld + 1) * pow2 ld).
    { rewrite <- pow2_add. replace (ln - ld + 1 + ld)%Z with (ln + 1)%Z by lia.
      reflexivity. }
    pose proof (pow2_pos (ln - ld + 1)) as P.
    set (A := pow2 (ln - ld + 1)) in *. set (B := pow2 ld) in *.
    set (D := inject_Z (Z.pos d)) in *. set (N := inject_Z n) in *.
    set (q := n # d) in *. rewrite E1 in Hnu.
    clearbody A B D N q. clear -E Hnu Hdl P Pld Hd Hq.
    destruct (Qlt_le_dec q A) as [|Hc]; [assumption | exfalso].
    nra.
  - assert (Hlt : (n # d) < pow2 (ln - ld)).
    { apply Qnot_le_lt. intros Hc. apply Qle_bool_iff in Hc. congruence. }
    replace (ln - ld - 1 + 1)%Z with (ln - ld)%Z by lia.
    split; [ | exact Hlt].
    assert (E1 : pow2 ln == pow2 (ln - ld - 1) * pow2 (ld + 1)).
    { rewrite <- pow2_add. replace (ln - ld - 1 + (ld + 1))%Z with ln by lia.
      reflexivity. }
    pose proof (pow2_pos (ln - ld - 1)) as P.
    set (A := pow2 (ln - ld - 1)) in *. set (B := pow2 (ld + 1)) in *.
    set (D := inject_Z (Z.pos d)) in *. set (N := inject_Z n) in *.
    set (q := n # d) in *. rewrite E1 in Hnl.
    clearbody A B D N q. clear -E Hnl Hdu P Pld1 Hd Hq.
    destruct (Qlt_le_dec q A) as [Hc|]; [exfalso | assumption].
    nra.
Qed.

Lemma ilog2_mono (a b : Q) : 0 < a -> a <= b -> (ilog2 a <= ilog2 b)%Z.
Proof.
  intros Ha Hab.
  destruct (ilog2_spec a Ha) as [La _].
  destruct (ilog2_spec b) as [_ Ub]; [lra | ].
  assert (H : pow2 (ilog2 a) < pow2 (ilog2 b + 1)) by lra.
  apply pow2_lt_inv in H. lia.
Qed.

(** ** Rounding to the nearest integer, ties to even *)

Lemma rne_cases (t : Q) :
  let f := Qfloor t in
  (rne t = f /\ t - inject_Z f <= 1 # 2) \/
  (rne t = (f + 1)%Z /\ 1 # 2 <= t - inject_Z f).
Proof.
  intros f. unfold rne. fold f.
  destruct (Qcompare_spec (t - inject_Z f) (1 # 2)) as [E|L|G].
  - destruct (Z.even f); [left | right]; split; try reflexivity; lra.
  - left. split; [reflexivity | lra].
  - right. split; [reflexivity | lra].
Qed.

Lemma floor_bounds (t : Q) :
  inject_Z (Qfloor t) <= t /\ t < inject_Z (Qfloor t) + 1.
Proof.
  split; [apply Qfloor_le | ].
  pose proof (Qlt_floor t) as H. rewrite inject_Z_plus in H. exact H.
Qed.

Lemma rne_bounds (t : Q) :
  t - (1 # 2) <= inject_Z (rne t) /\ inject_Z (rne t) <= t + (1 # 2).
Proof.
  destruct (floor_bounds t) as [L U].
  destruct (rne_cases t) as [[-> H]|[-> H]]; cbv zeta in H;
    rewrite ?inject_Z_plus; change (inject_Z 1) with 1; lra.
Qed.

Lemma rne_Z (z : Z) : rne (inject_Z z) = z.
Proof.
  unfold rne. rewrite Qfloor_Z.
  destruct (Qcompare_spec (inject_Z z - inject_Z z) (1 # 2)) as [E|L|G];
    [exfalso | reflexivity | exfalso]; lra.
Qed.

Lemma rne_comp (a b : Q) : a == b -> rne a = rne b.
Proof.
  intros E. unfold rne. rewrite (Qfloor_comp _ _ E).
  rewrite (Qcompare_comp (a - inject_Z (Qfloor b)) (b - inject_Z (Qfloor b))
             ltac:(rewrite E; reflexivity) (1 # 2) (1 # 2) ltac:(reflexivity)).
  reflexivity.
Qed.

Lemma rne_mono (a b : Q) : a <= b -> (rne a <= rne b)%Z.
Proof.
  intros Hab. pose proof (Qfloor_resp_le _ _ Hab) as Hf.
  destruct (Z.eq_dec (Qfloor a) (Qfloor b)) as [E|N].
  - unfold rne. rewrite E.
    destruct (Qcompare_spec (a - inject_Z (Qfloor b)) (1 # 2)) as [Ea|La|Ga];
    destruct (Qcompare_spec (b - inject_Z (Qfloor b)) (1 # 2)) as [Eb|Lb|Gb];
      try lia; try (exfalso; lra); destruct (Z.even (Qfloor b)); lia.
  - destruct (rne_cases a) as [[-> _]|[-> _]];
    destruct (rne_cases b) as [[-> _]|[-> _]]; lia.
Qed.

Lemma rne_le_double (t : Q) : 0 <= t -> inject_Z (rne t) <= 2 * t.
Proof.
  intros Ht. destruct (floor_bounds t) as [L U].
  destruct (rne_cases t) as [[-> H]|[-> H]]; cbv zeta in H.
  - lra.
  - rewrite inject_Z_plus. change (inject_Z 1) with 1.
    assert (H0 : (0 <= Qfloor t)%Z).
    { rewrite <- (Qfloor_Z 0). apply Qfloor_resp_le. exact Ht. }
    rewrite Zle_Qle in H0. change (inject_Z 0) with 0 in H0.
    lra.
Qed.

(** ** Rounding to binary64 *)

Definition exponent (q : Q) : Z := Z.max (ilog2 q - 52) (-1074).

Lemma round_pos_eq (q : Q) :
  round_pos q = inject_Z (rne (q / pow2 (exponent q))) * pow2 (exponent q).
Proof. reflexivity. Qed.

Lemma scaled_mono (a b : Q) (e : Z) : a <= b -> a / pow2 e <= b / pow2 e.
Proof.
  intros H. pose proof (pow2_pos e) as P.
  unfold Qdiv. apply Qmult_le_compat_r; [exact H | ].
  apply Qlt_le_weak, Qinv_lt_0_compat, P.
Qed.

Lemma round_pos_mono (a b : Q) : 0 < a -> a <= b -> round_pos a <= round_pos b.
Proof.
  intros Ha Hab. rewrite !round_pos_eq.
  assert (Hb : 0 < b) by lra.
  pose proof (ilog2_mono a b Ha Hab) as Hl.
  assert (He : (exponent a <= exponent b)%Z) by (unfold exponent; lia).
  destruct (Z.eq_dec (exponent a) (exponent b)) as [E|N].
  - rewrite E. pose proof (pow2_pos (exponent b)) as P.
    apply Qmult_le_compat_r; [ | lra].
    rewrite <- Zle_Qle. apply rne_mono, scaled_mono, Hab.
  - assert (Eb : exponent b = (ilog2 b - 52)%Z) by (unfold exponent in *; lia).
    assert (Ea : (ilog2 a + 1 <= exponent a + 53)%Z) by (unfold exponent; lia).
    destruct (ilog2_spec a Ha) as [_ Ua]. destruct (ilog2_spec b Hb) as [Lb _].
    pose proof (pow2_le _ _ Ea) as H1. rewrite (pow2_add (exponent a) 53) in H1.
    assert (H2 : pow2 (exponent b + 52) <= b).
    { rewrite Eb. replace (ilog2 b - 52 + 52)%Z with (ilog2 b) by lia. exact Lb. }
    rewrite (pow2_add (exponent b) 52) in H2.
    assert (H3 : pow2 (exponent a) * pow2 53 <= pow2 (exponent b) * pow2 52).
    { rewrite <- !pow2_add. apply pow2_le. lia. }
    pose proof (pow2_pos (exponent a)) as Pa.
    pose proof (pow2_pos (exponent b)) as Pb.
    assert (Ra : inject_Z (rne (a / pow2 (exponent a))) <= pow2 53).
    { rewrite (pow2_Z 53) by lia. rewrite <- Zle_Qle.
      rewrite <- (rne_Z (2 ^ 53)). apply rne_mono.
      rewrite <- (pow2_Z 53) by lia.
      apply Qle_shift_div_r; [exact Pa | ].
      rewrite (Qmult_comm (pow2 53)). apply Qlt_le_weak.
      eapply Qlt_le_trans; [exact Ua | exact H1]. }
    assert (Rb : pow2 52 <= inject_Z (rne (b / pow2 (exponent b)))).
    { rewrite (pow2_Z 52) by lia. rewrite <- Zle_Qle.
      rewrite <- (rne_Z (2 ^ 52)) at 1. apply rne_mono.
      rewrite <- (pow2_Z 52) by lia.
      apply Qle_shift_div_l; [exact Pb | ].
      rewrite (Qmult_comm (pow2 52)). exact H2. }
    pose proof (pow2_pos 53) as P53. pose proof (pow2_pos 52) as P52.
    set (ra := inject_Z (rne (a / pow2 (exponent a)))) in *.
    set (rb := inject_Z (rne (b / pow2 (exponent b)))) in *.
    set (pa := pow2 (exponent a)) in *. set (pb := pow2 (exponent b)) in *.
    set (p53 := pow2 53) in *. set (p52 := pow2 52) in *.
    clearbody ra rb pa pb p53 p52. clear -Ra Rb H3 Pa Pb P53 P52.
    nra.
Qed.

Lemma round_pos_le_double (q : Q) : 0 < q -> round_pos q <= 2 * q.
Proof.
  intros Hq. rewrite round_pos_eq.
  pose proof (pow2_pos (exponent q)) as P.
  assert (H : 0 <= q / pow2 (exponent q)).
  { apply Qle_shift_div_l; [exact P | lra]. }
  pose proof (rne_le_double _ H) as R.
  assert (E : q / pow2 (exponent q) * pow2 (exponent q) == q).
  { field. intros C. rewrite C in P. lra. }
  set (r := inject_Z (rne (q / pow2 (exponent q)))) in *.
  set (t := q / pow2 (exponent q)) in *. set (p := pow2 (exponent q)) in *.
  clearbody r t p. nra.
Qed.

Lemma round_pos_nonneg (q : Q) : 0 < q -> 0 <= round_pos q.
Proof.
  intros Hq. rewrite round_pos_eq.
  pose proof (pow2_pos (exponent q)) as P.
  apply Qmult_le_0_compat; [ | lra].
  change 0 with (inject_Z 0). rewrite <- Zle_Qle.
  rewrite <- (rne_Z 0). apply rne_mono.
  apply Qle_shift_div_l; [exact P | ]. change (inject_Z 0) with 0. lra.
Qed.

(** An integer of at most 53 bits is a binary64 value. *)
Lemma round_pos_Z (z : Z) :
  (0 < z <= 2 ^ 53)%Z -> round_pos (inject_Z z) == inject_Z z.
Proof.
  intros Hz. rewrite round_pos_eq.
  assert (Hq : 0 < inject_Z z).
  { change 0 with (inject_Z 0). rewrite <- Zlt_Qlt. lia. }
  destruct (ilog2_spec _ Hq) as [L U].
  set (e := exponent (inject_Z z)).
  pose proof (pow2_pos e) as P.
  assert (He : (e <= 1)%Z).
  { assert (H : pow2 (ilog2 (inject_Z z)) < pow2 54).
    { eapply Qle_lt_trans; [exact L | ].
      rewrite (pow2_Z 54) by lia. rewrite <- Zlt_Qlt. lia. }
    apply pow2_lt_inv in H. unfold e, exponent. lia. }
  assert (Hk : exists k : Z, inject_Z z / pow2 e == inject_Z k).
  { destruct (Z.eq_dec e 1) as [E1|N1].
    - assert (Hz' : z = (2 ^ 53)%Z).
      { assert (H : pow2 53 <= inject_Z z).
        { eapply Qle_trans; [ | exact L]. apply pow2_le.
          unfold e, exponent in E1. lia. }
        rewrite (pow2_Z 53) in H by lia. rewrite <- Zle_Qle in H. lia. }
      exists (2 ^ 52)%Z. rewrite E1, Hz'. reflexivity.
    - exists (z * 2 ^ (- e))%Z.
      rewrite inject_Z_mult, <- (pow2_Z (- e)) by lia.
      apply Qeq_sym.
      assert (E : pow2 (- e) * pow2 e == 1).
      { rewrite <- pow2_add. replace (- e + e)%Z with 0%Z by lia. reflexivity. }
      apply Qeq_sym. rewrite <- (Qmult_1_r (inject_Z z)) at 1.
      rewrite <- E. field. intros C. rewrite C in P. lra. }
  destruct Hk as [k Hk]. rewrite (rne_comp _ _ Hk), rne_Z.
  rewrite <- Hk. field. intros C. rewrite C in P. lra.
Qed.

(** ** [round64] *)

Lemma Finite_inj (a b : Q) : Finite a = Finite b -> a = b.
Proof. intros H. congruence. Qed.

Lemma Qred_Z (z : Z) : Qred (inject_Z z) = inject_Z z.
Proof.
  unfold Qred, inject_Z.
  pose proof (Z.ggcd_gcd z 1) as Hg.
  pose proof (Z.ggcd_correct_divisors z 1) as Hd.
  destruct (Z.ggcd z 1) as [g [a b]]. cbn [fst snd] in *.
  rewrite Z.gcd_1_r in Hg. subst g. destruct Hd as [Ha Hb].
  rewrite Z.mul_1_l in Ha, Hb. subst a b. reflexivity.
Qed.

Lemma round64_comp (a b : Q) : a == b -> round64 a = round64 b.
Proof. intros E. unfold round64. rewrite (Qred_complete _ _ E). reflexivity. Qed.

Lemma round64_zero (q : Q) : q == 0 -> round64 q = Finite 0.
Proof. intros E. rewrite (round64_comp _ _ E). reflexivity. Qed.

(** Rounding a positive number: the rounded value, unless it overflows. *)
Lemma round64_pos (q : Q) :
  0 < q ->
  round64 q = if Qle_bool (pow2 1024) (round_pos (Qred q)) then Inf false
              else Finite (Qred (round_pos (Qred q))).
Proof.
  intros Hq. unfold round64.
  assert (H : (Qred q ?= 0) = Gt).
  { apply Qgt_alt. rewrite Qred_correct. exact Hq. }
  rewrite H. reflexivity.
Qed.

(** An integer of at most 53 bits is a float. *)
Lemma round64_Z (z : Z) :
  (0 <= z <= 2 ^ 53)%Z -> round64 (inject_Z z) = Finite (inject_Z z).
Proof.
  intros Hz. destruct (Z.eq_dec z 0) as [->|Hn]; [reflexivity | ].
  assert (Hp : (0 < z <= 2 ^ 53)%Z) by lia.
  rewrite round64_pos by (change 0 with (inject_Z 0); rewrite <- Zlt_Qlt; lia).
  rewrite Qred_Z. pose proof (round_pos_Z z Hp) as E.
  destruct (Qle_bool (pow2 1024) (round_pos (inject_Z z))) eqn:Hb.
  - exfalso. apply Qle_bool_iff in Hb. rewrite E in Hb.
    rewrite (pow2_Z 1024) in Hb by lia. rewrite <- Zle_Qle in Hb.
    assert (2 ^ 53 < 2 ^ 1024)%Z by (apply Z.pow_lt_mono_r; lia). lia.
  - rewrite (Qred_complete _ _ E), Qred_Z. reflexivity.
Qed.

Lemma round64_Zeq (q : Q) (z : Z) :
  (0 <= z <= 2 ^ 53)%Z -> q == inject_Z z -> round64 q = Finite (inject_Z z).
Proof. intros Hz E. rewrite (round64_comp _ _ E). apply round64_Z, Hz. Qed.

(** Rounding is monotone: below a number that rounds to a finite float,
    a non-negative number rounds to a finite float that is no larger. *)
Lemma round64_mono (a b b' : Q) :
  0 <= a -> a <= b -> round64 b = Finite b' ->
  exists a', round64 a = Finite a' /\ 0 <= a' /\ a' <= b'.
Proof.
  intros Ha Hab Hb.
  assert (Hb0 : 0 <= b') .
  { destruct (Qlt_le_dec 0 b) as [Hp|Hz].
    - rewrite round64_pos in Hb by exact Hp.
      destruct (Qle_bool _ _); [discriminate | ].
      apply Finite_inj in Hb; subst b'. rewrite Qred_correct. apply round_pos_nonneg.
      rewrite Qred_correct. exact Hp.
    - rewrite round64_zero in Hb by lra. apply Finite_inj in Hb; subst b'. lra. }
  destruct (Qlt_le_dec 0 a) as [Hp|Hz].
  - assert (Hbp : 0 < b) by lra.
    rewrite round64_pos in Hb by exact Hbp. rewrite round64_pos by exact Hp.
    destruct (Qle_bool (pow2 1024) (round_pos (Qred b))) eqn:Eb;
      [discriminate | ].
    apply Finite_inj in Hb; subst b'.
    assert (Hm : round_pos (Qred a) <= round_pos (Qred b)).
    { apply round_pos_mono; rewrite ?Qred_correct; assumption. }
    destruct (Qle_bool (pow2 1024) (round_pos (Qred a))) eqn:Ea.
    + exfalso. apply Qle_bool_iff in Ea.
      assert (Hc : Qle_bool (pow2 1024) (round_pos (Qred b)) = true)
        by (apply Qle_bool_iff; lra).
      congruence.
    + eexists. split; [reflexivity | ]. split.
      * rewrite Qred_correct. apply round_pos_nonneg.
        rewrite Qred_correct. exact Hp.
      * apply Qred_le. exact Hm.
  - exists 0. split; [apply round64_zero; lra | ]. split; [lra | exact Hb0].
Qed.

(** What rounds from at least a small integer is at least that integer. *)
Lemma round64_lower (z : Z) (a a' : Q) :
  (0 <= z <= 2 ^ 53)%Z -> inject_Z z <= a -> round64 a = Finite a' ->
  inject_Z z <= a'.
Proof.
  intros Hz Hza Ha.
  assert (H0 : 0 <= inject_Z z).
  { change 0 with (inject_Z 0). rewrite <- Zle_Qle. lia. }
  destruct (round64_mono _ _ _ H0 Hza Ha) as (z' & Ez & _ & Hle).
  rewrite round64_Z in Ez by exact Hz. apply Finite_inj in Ez; subst z'. exact Hle.
Qed.

(** Rounding at most doubles. *)
Lemma round64_upper (a a' : Q) :
  0 <= a -> round64 a = Finite a' -> a' <= 2 * a.
Proof.
  intros Ha H. destruct (Qlt_le_dec 0 a) as [Hp|Hz].
  - rewrite round64_pos in H by exact Hp.
    destruct (Qle_bool _ _); [discriminate | ]. apply Finite_inj in H; subst a'.
    rewrite Qred_correct.
    assert (Hr : 0 < Qred a) by (rewrite Qred_correct; exact Hp).
    eapply Qle_trans; [exact (round_pos_le_double _ Hr) | ].
    rewrite Qred_correct. lra.
  - rewrite round64_zero in H by lra. apply Finite_inj in H; subst a'. lra.
Qed.

(** One tenth is no binary64 value, and rounds to the nearest one; a tie
    goes to the even significand, at 2^53 + 1 down and at 2^53 + 3 up; half
    the smallest subnormal rounds to zero; 2^1024 is out of range. *)
Example round64_examples :
  round64 (1 # 10) = Finite (3602879701896397 # 36028797018963968)
  /\ round64 (inject_Z (2 ^ 53 + 1)) = Finite (inject_Z (2 ^ 53))
  /\ round64 (inject_Z (2 ^ 53 + 3)) = Finite (inject_Z (2 ^ 53 + 4))
  /\ round64 (pow2 (-1075)) = Finite 0
  /\ round64 (- pow2 1024) = Inf true.
Proof. repeat split; vm_compute; reflexivity. Qed.

(** A binary64 value: rounding leaves it alone. *)
Definition representable (x : Q) : Prop := round64 x = Finite (Qred x).

Lemma representable_Z (z : Z) : (0 <= z <= 2 ^ 53)%Z -> representable (inject_Z z).
Proof. intros Hz. unfold representable. rewrite Qred_Z. apply round64_Z, Hz. Qed.

(** ** Floor division and remainder of a non-negative float *)

(** The exact remainder of [x] by [d]. *)
Definition qmod (x : Q) (d : Z) : Q :=
  x - inject_Z d * inject_Z (Qfloor (x / inject_Z d)).

Lemma inject_Z_pos (d : Z) : (0 < d)%Z -> 0 < inject_Z d.
Proof. intros H. change 0 with (inject_Z 0). rewrite <- Zlt_Qlt. exact H. Qed.

Lemma inject_Z_nonneg (d : Z) : (0 <= d)%Z -> 0 <= inject_Z d.
Proof. intros H. change 0 with (inject_Z 0). rewrite <- Zle_Qle. exact H. Qed.

Lemma Qfloor_nonneg (x : Q) : 0 <= x -> (0 <= Qfloor x)%Z.
Proof. intros H. rewrite <- (Qfloor_Z 0). apply Qfloor_resp_le. exact H. Qed.

(** [x = d * floor (x / d) + qmod x d], with the remainder in [0, d). *)
Lemma qmod_bounds (x : Q) (d : Z) :
  (0 < d)%Z -> 0 <= qmod x d /\ qmod x d < inject_Z d.
Proof.
  intros Hd. unfold qmod.
  destruct (floor_bounds (x / inject_Z d)) as [Hlo Hhi].
  pose proof (inject_Z_pos d Hd) as Hdq.
  assert (Hx : x == (x / inject_Z d) * inject_Z d).
  { field. intros H0. rewrite H0 in Hdq. discriminate. }
  set (k := inject_Z (Qfloor (x / inject_Z d))) in *.
  set (t := x / inject_Z d) in *. set (D := inject_Z d) in *.
  clearbody k t D. split; nra.
Qed.

Lemma quotient_nonneg (x : Q) (d : Z) :
  0 <= x -> (0 < d)%Z -> 0 <= x / inject_Z d.
Proof.
  intros Hx Hd. apply Qle_shift_div_l; [apply inject_Z_pos, Hd | lra].
Qed.

Lemma trunc_nonneg (x : Q) : 0 <= x -> trunc x = Qfloor x.
Proof.
  intros H. unfold trunc.
  assert (E : Qle_bool 0 x = true) by (apply Qle_bool_iff; exact H).
  rewrite E. reflexivity.
Qed.

Lemma Qeq_bool_false (x : Q) : 0 < x -> Qeq_bool x 0 = false.
Proof.
  intros H. destruct (Qeq_bool x 0) eqn:E; [ | reflexivity].
  apply Qeq_bool_eq in E. lra.
Qed.

Lemma fnonzero_pos (x : Q) : 0 < x -> fnonzero (Finite x) = true.
Proof. intros H. cbn [fnonzero]. rewrite (Qeq_bool_false _ H). reflexivity. Qed.

Lemma flt_zero_nonneg (x : Q) : 0 <= x -> flt (Finite x) (Finite 0) = false.
Proof.
  intros H. cbn [flt].
  assert (E : Qle_bool 0 x = true) by (apply Qle_bool_iff; exact H).
  rewrite E. reflexivity.
Qed.

Lemma fmod_nonneg (x : Q) (d : Z) :
  0 <= x -> (0 < d)%Z ->
  fmod (Finite x) (Finite (inject_Z d)) = Finite (Qred (qmod x d)).
Proof.
  intros Hx Hd. cbn [fmod].
  rewrite (Qeq_bool_false _ (inject_Z_pos d Hd)).
  rewrite (trunc_nonneg _ (quotient_nonneg x d Hx Hd)). reflexivity.
Qed.

(** The remainder is exact. *)
Lemma float_rem_nonneg (x : Q) (d : Z) :
  0 <= x -> (0 < d <= 2 ^ 53)%Z ->
  float_rem (Finite x) (round64 (inject_Z d)) = Finite (Qred (qmod x d)).
Proof.
  intros Hx Hd. unfold float_rem.
  rewrite round64_Z by lia. rewrite fmod_nonneg by (trivial; lia).
  destruct (qmod_bounds x d ltac:(lia)) as [Hm _].
  destruct (fnonzero (Finite (Qred (qmod x d)))) eqn:Hz.
  - rewrite (flt_zero_nonneg (inject_Z d)) by (apply inject_Z_nonneg; lia).
    rewrite (flt_zero_nonneg (Qred (qmod x d)))
      by (rewrite Qred_correct; exact Hm).
    reflexivity.
  - cbn [fnonzero] in Hz. apply negb_false_iff, Qeq_bool_eq in Hz.
    rewrite Qred_correct in Hz.
    rewrite (Qred_complete _ _ Hz). reflexivity.
Qed.

(** How [_float_div_mod] ends: the quotient snapped to an integral
    value. *)
Definition snap (div : float) : float :=
  if fnonzero div then
    let floordiv := ffloor div in
    if flt (Finite (1 # 2)) (fsub div floordiv)
    then fadd floordiv (Finite 1)
    else floordiv
  else Finite 0.

Lemma float_div_mod_nonneg (x : Q) (d : Z) :
  0 <= x -> (0 < d <= 2 ^ 53)%Z ->
  fst (float_div_mod (Finite x) (round64 (inject_Z d)))
  = snap (fdiv (round64 (x - qmod x d)) (Finite (inject_Z d))).
Proof.
  intros Hx Hd. unfold float_div_mod.
  rewrite round64_Z by lia. rewrite fmod_nonneg by (trivial; lia).
  destruct (qmod_bounds x d ltac:(lia)) as [Hm _].
  assert (E : fsub (Finite x) (Finite (Qred (qmod x d)))
              = round64 (x - qmod x d)).
  { unfold fsub. cbn [fneg fadd]. apply round64_comp.
    rewrite !Qred_correct. reflexivity. }
  rewrite E.
  rewrite (flt_zero_nonneg (inject_Z d)) by (apply inject_Z_nonneg; lia).
  rewrite (flt_zero_nonneg (Qred (qmod x d)))
    by (rewrite Qred_correct; exact Hm).
  cbn [xorb].
  destruct (fnonzero (Finite (Qred (qmod x d)))); reflexivity.
Qed.

Lemma snap_Z (k : Z) :
  (0 <= k)%Z -> snap (Finite (inject_Z k)) = Finite (inject_Z k).
Proof.
  intros Hk. unfold snap.
  destruct (fnonzero (Finite (inject_Z k))) eqn:Hz.
  - cbn [ffloor]. rewrite Qfloor_Z.
    assert (E : fsub (Finite (inject_Z k)) (Finite (inject_Z k)) = Finite 0).
    { unfold fsub. cbn [fneg fadd]. apply round64_zero.
      rewrite Qred_correct. ring. }
    rewrite E. reflexivity.
  - cbn [fnonzero] in Hz. apply negb_false_iff, Qeq_bool_eq in Hz.
    assert (k = 0)%Z as ->.
    { change 0 with (inject_Z 0) in Hz. rewrite inject_Z_injective in Hz.
      exact Hz. }
    reflexivity.
Qed.

(** Snapping a quotient of at least one gives at least one, as long as
    there is a float above it. *)
Lemma snap_ge_1 (v b b' : Q) :
  1 <= v -> v + 1 <= b -> round64 b = Finite b' ->
  exists h, snap (Finite v) = Finite h /\ 1 <= h.
Proof.
  intros Hv Hb Eb. unfold snap.
  rewrite (fnonzero_pos v) by lra.
  cbn [ffloor].
  assert (Hf : (1 <= Qfloor v)%Z).
  { rewrite <- (Qfloor_Z 1). apply Qfloor_resp_le. exact Hv. }
  rewrite Zle_Qle in Hf. change (inject_Z 1) with 1 in Hf.
  destruct (flt _ _).
  - cbn [fadd].
    pose proof (Qfloor_le v) as Hle.
    destruct (round64_mono (inject_Z (Qfloor v) + 1) b b') as (h & Eh & _ & _);
      [lra | lra | exact Eb | ].
    exists h. split; [exact Eh | ].
    apply (round64_lower 1 (inject_Z (Qfloor v) + 1));
      [lia | change (inject_Z 1) with 1; lra | exact Eh].
  - exists (inject_Z (Qfloor v)). split; [reflexivity | exact Hf].
Qed.

(** Below 2^53 the floor division of a float is exact. *)
Lemma float_floordiv_exact (x : Q) (d : Z) :
  0 <= x -> x <= inject_Z (2 ^ 53) -> (0 < d <= 2 ^ 53)%Z ->
  fst (float_div_mod (Finite x) (round64 (inject_Z d)))
  = Finite (inject_Z (Qfloor (x / inject_Z d))).
Proof.
  intros Hx Hb Hd. rewrite float_div_mod_nonneg by assumption.
  pose proof (inject_Z_pos d ltac:(lia)) as Hdq.
  destruct (qmod_bounds x d ltac:(lia)) as [Hm0 Hm1].
  set (k := Qfloor (x / inject_Z d)).
  pose proof (Qfloor_nonneg _ (quotient_nonneg x d Hx ltac:(lia))) as Hk.
  fold k in Hk.
  assert (Ey : x - qmod x d == inject_Z (d * k)).
  { unfold qmod. fold k. rewrite inject_Z_mult. ring. }
  assert (Hdk : (0 <= d * k <= 2 ^ 53)%Z).
  { split; [lia | ]. rewrite Zle_Qle, <- Ey. lra. }
  rewrite (round64_Zeq _ _ Hdk Ey). cbn [fdiv].
  rewrite (Qeq_bool_false _ Hdq).
  assert (Ek : inject_Z (d * k) / inject_Z d == inject_Z k).
  { rewrite inject_Z_mult. field. intros C. rewrite C in Hdq. discriminate. }
  assert (Hk53 : (0 <= k <= 2 ^ 53)%Z) by nia.
  rewrite (round64_Zeq _ _ Hk53 Ek). apply snap_Z. lia.
Qed.

(** From [d] on, the floor division of a float by [d] is at least one;
    it need not be the exact quotient. *)
Lemma float_floordiv_ge_1 (x : Q) (d : Z) :
  representable x -> inject_Z d <= x -> (3 <= d <= 2 ^ 53)%Z ->
  exists h,
    fst (float_div_mod (Finite x) (round64 (inject_Z d))) = Finite h
    /\ 1 <= h.
Proof.
  intros Hr Hdx Hd.
  pose proof (inject_Z_pos d ltac:(lia)) as Hdq.
  assert (H3 : 3 <= inject_Z d).
  { change 3 with (inject_Z 3). rewrite <- Zle_Qle. lia. }
  assert (Hx : 0 <= x) by lra.
  rewrite float_div_mod_nonneg by (trivial; lia).
  destruct (qmod_bounds x d ltac:(lia)) as [Hm0 Hm1].
  set (k := Qfloor (x / inject_Z d)).
  assert (Hk : (1 <= k)%Z).
  { unfold k. rewrite <- (Qfloor_Z 1). apply Qfloor_resp_le.
    apply Qle_shift_div_l; [exact Hdq | ]. change (inject_Z 1) with 1. lra. }
  assert (Ey : x - qmod x d == inject_Z d * inject_Z k).
  { unfold qmod. fold k. ring. }
  rewrite Zle_Qle in Hk. change (inject_Z 1) with 1 in Hk.
  assert (Hyd : inject_Z d <= x - qmod x d).
  { rewrite Ey. set (D := inject_Z d) in *. set (K := inject_Z k) in *.
    clearbody D K. nra. }
  unfold representable in Hr.
  destruct (round64_mono (x - qmod x d) x _ ltac:(lra) ltac:(lra) Hr)
    as (s & Es & Hs0 & Hsx).
  rewrite Qred_correct in Hsx.
  pose proof (round64_lower d _ _ ltac:(lia) Hyd Es) as Hsd.
  rewrite Es. cbn [fdiv]. rewrite (Qeq_bool_false _ Hdq).
  assert (Hq1 : 1 <= s / inject_Z d).
  { apply Qle_shift_div_l; [exact Hdq | lra]. }
  assert (Hqx : s / inject_Z d <= x).
  { apply Qle_shift_div_r; [exact Hdq | ].
    set (D := inject_Z d) in *. clearbody D. nra. }
  destruct (round64_mono (s / inject_Z d) x _ ltac:(lra) Hqx Hr)
    as (v & Ev & Hv0 & _).
  pose proof (round64_lower 1 (s / inject_Z d) v ltac:(lia) Hq1 Ev) as Hv1.
  change (inject_Z 1) with 1 in Hv1.
  pose proof (round64_upper (s / inject_Z d) v ltac:(lra) Ev) as Hv2.
  rewrite Ev.
  apply (snap_ge_1 v x (Qred x)); [exact Hv1 | | exact Hr].
  assert (Hq3 : s / inject_Z d * 3 <= x).
  { assert (Hq : s / inject_Z d * inject_Z d == s).
    { field. intros C. rewrite C in Hdq. discriminate. }
    set (t := s / inject_Z d) in *. set (D := inject_Z d) in *.
    clearbody t D. nra. }
  lra.
Qed.

End PyProps.

(* ================================================================== *)
(** * Properties of formatters.py *)
(* ================================================================== *)

Module FormattersProps.
Import Py Config Formatters PyProps.

(** ** Timestamps *)

(** The shapes a timestamp is said to have.  [two_digits n] is the
    two-character field of a number below 100; a zero-padded field is at
    least two characters long and reads, as a decimal numeral, as the
    number it stands for. *)
Definition digit (n : Z) : ascii := ascii_of_nat (48 + Z.to_nat n).

Definition two_digits (n : Z) : string :=
  String (digit (n / 10)) (String (digit (n mod 10)) "").

Definition read_decimal (s : string) : option Z :=
  option_map Z.of_uint (NilZero.uint_of_string s).

Definition zero_padded (field : string) (n : Z) : Prop :=
  (2 <= String.length field)%nat /\ read_decimal field = Some n.

Lemma decimal_read (n : N) : read_decimal (decimal n) = Some (Z.of_N n).
Proof.
  unfold read_decimal, decimal.
  rewrite NilZero.usu.
  - simpl. unfold Z.of_uint. do 2 f_equal.
    apply (DecimalN.Unsigned.of_to n).
  - destruct n; simpl;
      [discriminate | apply DecimalPos.Unsigned.to_uint_nonnil].
Qed.

Lemma decimal_nonempty (n : N) : decimal n <> "".
Proof.
  intros H. pose proof (decimal_read n) as Hr. rewrite H in Hr. discriminate.
Qed.

(** [format(n, "02d")] of a non-negative [n] is a zero-padded field. *)
Lemma format_02d_zero_padded (n : Z) : 0 <= n -> zero_padded (format_02d n) n.
Proof.
  intros Hn. unfold format_02d, zero_padded.
  destruct (Z.ltb_spec n 0); [lia|].
  pose proof (decimal_read (Z.abs_N n)) as Hr.
  pose proof (decimal_nonempty (Z.abs_N n)) as Hne.
  rewrite N2Z.inj_abs_N, Z.abs_eq in Hr by assumption.
  destruct (Nat.ltb_spec (String.length (decimal (Z.abs_N n))) 2).
  - split.
    + destruct (decimal (Z.abs_N n)); [contradiction | simpl; lia].
    + unfold read_decimal in *.
      destruct (decimal (Z.abs_N n)) as [|c s]; [contradiction|].
      change (NilZero.uint_of_string ("0" ++ String c s))
        with (uint_of_char "0" (uint_of_char c (NilEmpty.uint_of_string s))).
      change (NilZero.uint_of_string (String c s))
        with (uint_of_char c (NilEmpty.uint_of_string s)) in Hr.
      destruct (uint_of_char c (NilEmpty.uint_of_string s)) as [d|];
        [|discriminate].
      exact Hr.
  - split; assumption.
Qed.

(** Below 100 it is exactly the two digits. *)
Lemma format_02d_two_digits (n : Z) :
  0 <= n < 100 -> format_02d n = two_digits n.
Proof.
  intros Hn.
  assert (Hall : forallb
            (fun k => String.eqb (format_02d (Z.of_nat k))
                                 (two_digits (Z.of_nat k)))
            (seq 0 100) = true) by (vm_compute; reflexivity).
  rewrite forallb_forall in Hall.
  specialize (Hall (Z.to_nat n)).
  rewrite Z2Nat.id in Hall by lia.
  apply String.eqb_eq, Hall, in_seq. lia.
Qed.

(** The three fields [_format_timestamp] computes from a non-negative
    [int]: the exact hours, minutes and seconds. *)
Lemma timestamp_fields_int (n : Z) :
  0 <= n ->
  _format_timestamp (NInt n)
  = Ok (if n / 3600 >? 0 then
          format_02d (n / 3600) ++ ":" ++ format_02d (n mod 3600 / 60)
          ++ ":" ++ format_02d (n mod 60)
        else format_02d (n mod 3600 / 60) ++ ":" ++ format_02d (n mod 60)).
Proof. intros _. reflexivity. Qed.

Lemma qmod_Z (n d : Z) : 0 < d -> (qmod (inject_Z n) d == inject_Z (n mod d))%Q.
Proof.
  intros Hd. unfold qmod. rewrite <- Zdiv_Qdiv.
  rewrite (Z.mod_eq n d) by lia.
  replace (n - d * (n / d)) with (n + - (d * (n / d))) by lia.
  rewrite inject_Z_plus, inject_Z_opp, inject_Z_mult. ring.
Qed.

Lemma minutes_bounds (x : Q) : 0 <= Qfloor (qmod x 3600 / 60) < 60.
Proof.
  destruct (qmod_bounds x 3600 eq_refl) as [H0 H1].
  change (inject_Z 3600) with 3600%Q in H1.
  split.
  - apply Qfloor_nonneg. apply Qle_shift_div_l; [reflexivity | lra].
  - assert (Hlt : (qmod x 3600 / 60 < 60)%Q).
    { apply Qlt_shift_div_r; [reflexivity | lra]. }
    pose proof (Qfloor_le (qmod x 3600 / 60)) as Hle.
    assert (Hq : (inject_Z (Qfloor (qmod x 3600 / 60)) < inject_Z 60)%Q)
      by (change (inject_Z 60) with 60%Q; lra).
    rewrite <- Zlt_Qlt in Hq. exact Hq.
Qed.

Lemma seconds_bounds (x : Q) : 0 <= Qfloor (qmod x 60) < 60.
Proof.
  destruct (qmod_bounds x 60 eq_refl) as [H0 H1].
  split.
  - apply Qfloor_nonneg, H0.
  - pose proof (Qfloor_le (qmod x 60)) as Hle.
    assert (Hq : (inject_Z (Qfloor (qmod x 60)) < inject_Z 60)%Q) by lra.
    rewrite <- Zlt_Qlt in Hq. exact Hq.
Qed.

Lemma hours_low (x : Q) : (0 <= x)%Q -> (x < 3600)%Q -> Qfloor (x / 3600) = 0.
Proof.
  intros H0 Hlt.
  assert (H1 : (x / 3600 < 1)%Q).
  { apply Qlt_shift_div_r; [reflexivity | lra]. }
  assert (H2 : (0 <= x / 3600)%Q).
  { apply Qle_shift_div_l; [reflexivity | lra]. }
  pose proof (Qfloor_nonneg _ H2) as Hn.
  pose proof (Qfloor_le (x / 3600)) as Hle.
  assert (Hq : (inject_Z (Qfloor (x / 3600)) < inject_Z 1)%Q)
    by (change (inject_Z 1) with 1%Q; lra).
  rewrite <- Zlt_Qlt in Hq. lia.
Qed.

Lemma hours_high (x : Q) : (3600 <= x)%Q -> 1 <= Qfloor (x / 3600).
Proof.
  intros Hge. change 1 with (Qfloor 1). apply Qfloor_resp_le.
  apply Qle_shift_div_l; [reflexivity | lra].
Qed.

Lemma int_float_nonneg (x : Q) :
  (0 <= x)%Q -> int (NFloat (Finite x)) = Ok (Qfloor x).
Proof. intros H. cbn [int]. rewrite trunc_nonneg by exact H. reflexivity. Qed.

(** The minutes and the seconds [_format_timestamp] computes from a
    non-negative float are exact. *)
Lemma minutes_float (x : Q) :
  (0 <= x)%Q ->
  int (floordiv (modulo (NFloat (Finite x)) 3600) 60)
  = Ok (Qfloor (qmod x 3600 / 60)).
Proof.
  intros Hx. cbn [modulo floordiv].
  rewrite float_rem_nonneg by (trivial; lia).
  destruct (qmod_bounds x 3600 eq_refl) as [H0 H1].
  change (inject_Z 3600) with 3600%Q in H1.
  rewrite float_floordiv_exact.
  - rewrite int_float_nonneg.
    + rewrite Qfloor_Z.
      rewrite (Qfloor_comp (Qred (qmod x 3600) / inject_Z 60)
                 (qmod x 3600 / 60)) by (rewrite Qred_correct; reflexivity).
      reflexivity.
    + apply inject_Z_nonneg, Qfloor_nonneg.
      apply Qle_shift_div_l; [reflexivity | ]. rewrite Qred_correct. lra.
  - rewrite Qred_correct. exact H0.
  - rewrite Qred_correct.
    apply Qle_trans with (y := 3600%Q); [lra | ].
    change 3600%Q with (inject_Z 3600). rewrite <- Zle_Qle. lia.
  - lia.
Qed.

Lemma seconds_float (x : Q) :
  (0 <= x)%Q ->
  int (modulo (NFloat (Finite x)) 60) = Ok (Qfloor (qmod x 60)).
Proof.
  intros Hx. cbn [modulo].
  rewrite float_rem_nonneg by (trivial; lia).
  destruct (qmod_bounds x 60 eq_refl) as [H0 _].
  rewrite int_float_nonneg by (rewrite Qred_correct; exact H0).
  rewrite (Qfloor_comp _ _ (Qred_correct _)). reflexivity.
Qed.

(** The hours: zero below one hour; the exact quotient up to 2^53 seconds;
    at least one from one hour on. *)
Lemma hours_float_exact (x : Q) :
  (0 <= x)%Q -> (x <= inject_Z (2 ^ 53))%Q ->
  int (floordiv (NFloat (Finite x)) 3600) = Ok (Qfloor (x / 3600)).
Proof.
  intros Hx Hb. cbn [floordiv].
  rewrite float_floordiv_exact by (trivial; lia).
  rewrite int_float_nonneg.
  - rewrite Qfloor_Z. reflexivity.
  - apply inject_Z_nonneg, Qfloor_nonneg.
    apply Qle_shift_div_l; [reflexivity | ].
    change (inject_Z 3600) with 3600%Q. lra.
Qed.

Lemma hours_float_high (x : Q) :
  representable x -> (3600 <= x)%Q ->
  exists hours, int (floordiv (NFloat (Finite x)) 3600) = Ok hours /\ 1 <= hours.
Proof.
  intros Hr Hx. cbn [floordiv].
  destruct (float_floordiv_ge_1 x 3600 Hr Hx ltac:(lia)) as (h & Eh & Hh).
  rewrite Eh. rewrite int_float_nonneg by lra.
  exists (Qfloor h). split; [reflexivity | ].
  change 1 with (Qfloor 1). apply Qfloor_resp_le, Hh.
Qed.

(** The number [x] that [seconds] is: an [int], or a float, which is a
    binary64 value. *)
Definition denotes (seconds : number) (x : Q) : Prop :=
  match seconds with
  | NInt n => x = inject_Z n
  | NFloat (Finite y) => x = y /\ representable y
  | NFloat _ => False
  end.

(** Where the hour field is the exact number of hours: on every [int], and
    on a float up to 2^53 seconds. *)
Definition exact_hours (seconds : number) (x : Q) : Prop :=
  match seconds with
  | NInt _ => True
  | NFloat _ => (x <= inject_Z (2 ^ 53))%Q
  end.

Definition timestamp_form (seconds : number) (x : Q) : Prop :=
  let minutes := Qfloor (qmod x 3600 / 60) in
  let secs := Qfloor (qmod x 60) in
  0 <= minutes < 60 /\ 0 <= secs < 60
  /\ ((x < 3600)%Q ->
      _format_timestamp seconds
      = Ok (two_digits minutes ++ ":" ++ two_digits secs))
  /\ ((3600 <= x)%Q ->
      exists hours hh,
        1 <= hours
        /\ (exact_hours seconds x -> hours = Qfloor (x / 3600))
        /\ zero_padded hh hours
        /\ _format_timestamp seconds
           = Ok (hh ++ ":" ++ two_digits minutes ++ ":" ++ two_digits secs)).

(** What [_format_timestamp] returns once the three fields are known. *)
Lemma format_timestamp_fields (seconds : number) (hours minutes secs : Z) :
  int (floordiv seconds 3600) = Ok hours ->
  int (floordiv (modulo seconds 3600) 60) = Ok minutes ->
  int (modulo seconds 60) = Ok secs ->
  0 <= minutes < 60 -> 0 <= secs < 60 ->
  _format_timestamp seconds
  = Ok (if hours >? 0 then
          format_02d hours ++ ":" ++ two_digits minutes ++ ":" ++ two_digits secs
        else two_digits minutes ++ ":" ++ two_digits secs).
Proof.
  intros Eh Em Es Hm Hs. unfold _format_timestamp.
  rewrite Eh, Em, Es. cbn [bind].
  rewrite (format_02d_two_digits minutes) by lia.
  rewrite (format_02d_two_digits secs) by lia.
  reflexivity.
Qed.

Lemma timestamp_form_of_fields (seconds : number) (x : Q) (hours : Z) :
  (0 <= x)%Q ->
  int (floordiv seconds 3600) = Ok hours ->
  int (floordiv (modulo seconds 3600) 60) = Ok (Qfloor (qmod x 3600 / 60)) ->
  int (modulo seconds 60) = Ok (Qfloor (qmod x 60)) ->
  ((x < 3600)%Q -> hours = 0) ->
  ((3600 <= x)%Q -> 1 <= hours) ->
  (exact_hours seconds x -> hours = Qfloor (x / 3600)) ->
  timestamp_form seconds x.
Proof.
  intros Hx Eh Em Es Hlow Hhigh Hexact.
  pose proof (minutes_bounds x) as Hm. pose proof (seconds_bounds x) as Hs.
  pose proof (format_timestamp_fields _ _ _ _ Eh Em Es Hm Hs) as E.
  unfold timestamp_form. cbv zeta.
  split; [exact Hm | ]. split; [exact Hs | ]. split.
  - intros Hlt. rewrite E, (Hlow Hlt). reflexivity.
  - intros Hge. specialize (Hhigh Hge).
    exists hours, (format_02d hours).
    split; [exact Hhigh | ]. split; [exact Hexact | ].
    split; [apply format_02d_zero_padded; lia | ].
    rewrite E. destruct (Z.gtb_spec hours 0); [reflexivity | lia].
Qed.

(** C8, as the code has it.  For a non-negative number of seconds that is
    an [int] or a finite float, [_format_timestamp] returns [MM:SS] (two
    two-digit fields) when the number is below 3600 and [HH:MM:SS] (a
    zero-padded hour field of at least two digits, then two two-digit
    fields) otherwise.  The minute and second fields are below 60 and are
    the minutes and seconds the number amounts to; the hour field is the
    number of hours on an [int] and on a float up to 2^53, and beyond that
    the float quotient, which is at least one. *)
Theorem format_timestamp_form (seconds : number) (x : Q) :
  denotes seconds x -> (0 <= x)%Q -> timestamp_form seconds x.
Proof.
  intros Hd Hx. destruct seconds as [n | [y | | ]]; cbn [denotes] in Hd;
    try contradiction.
  - subst x.
    assert (Hn : 0 <= n).
    { change 0%Q with (inject_Z 0) in Hx. rewrite <- Zle_Qle in Hx. exact Hx. }
    apply (timestamp_form_of_fields _ _ (n / 3600)); try exact Hx.
    + reflexivity.
    + cbn [modulo floordiv int].
      rewrite (Qfloor_comp (qmod (inject_Z n) 3600 / 60)
                 (inject_Z (n mod 3600) / inject_Z 60))
        by (rewrite qmod_Z by lia; reflexivity).
      rewrite <- Zdiv_Qdiv. reflexivity.
    + cbn [modulo int].
      rewrite (Qfloor_comp _ _ (qmod_Z n 60 eq_refl)), Qfloor_Z. reflexivity.
    + intros Hlt. rewrite (Zdiv_Qdiv n 3600). apply hours_low; assumption.
    + intros Hge. rewrite (Zdiv_Qdiv n 3600). apply hours_high; assumption.
    + intros _. apply Zdiv_Qdiv.
  - destruct Hd as [-> Hr].
    destruct (Qlt_le_dec y 3600) as [Hlt | Hge].
    + apply (timestamp_form_of_fields _ _ 0); try exact Hx.
      * rewrite hours_float_exact.
        -- rewrite (hours_low y Hx Hlt). reflexivity.
        -- exact Hx.
        -- apply Qle_trans with (y := 3600%Q); [lra | ].
           change 3600%Q with (inject_Z 3600). rewrite <- Zle_Qle. lia.
      * apply minutes_float, Hx.
      * apply seconds_float, Hx.
      * reflexivity.
      * intros Hge. exfalso. lra.
      * intros _. symmetry. apply hours_low; assumption.
    + destruct (Qlt_le_dec (inject_Z (2 ^ 53)) y) as [Hbig | Hsmall].
      * destruct (hours_float_high y Hr Hge) as (hours & Eh & Hh).
        apply (timestamp_form_of_fields _ _ hours); try exact Hx.
        -- exact Eh.
        -- apply minutes_float, Hx.
        -- apply seconds_float, Hx.
        -- intros Hlt. exfalso. lra.
        -- intros _. exact Hh.
        -- cbn [exact_hours]. intros Hc. exfalso. lra.
      * apply (timestamp_form_of_fields _ _ (Qfloor (y / 3600))); try exact Hx.
        -- apply hours_float_exact; assumption.
        -- apply minutes_float, Hx.
        -- apply seconds_float, Hx.
        -- intros Hlt. exfalso. lra.
        -- intros _. apply hours_high, Hge.
        -- reflexivity.
Qed.

(** One hour, two minutes and five and a half seconds. *)
Lemma format_timestamp_form_witness :
  denotes (NFloat (Finite (7451 # 2))) (7451 # 2) /\ (0 <= 7451 # 2)%Q
  /\ timestamp_form (NFloat (Finite (7451 # 2))) (7451 # 2).
Proof.
  assert (Hd : denotes (NFloat (Finite (7451 # 2))) (7451 # 2)).
  { split; [reflexivity | vm_compute; reflexivity]. }
  assert (H : (0 <= 7451 # 2)%Q) by (unfold Qle; simpl; lia).
  split; [exact Hd | ]. split; [exact H | ].
  exact (format_timestamp_form _ _ Hd H).
Defined.

(** C8 fails as stated: an infinite number of seconds is a non-negative
    float, and has no timestamp: [inf // 3600] is NaN, which [int]
    refuses with a [ValueError].  Nor has NaN. *)
Lemma format_timestamp_infinity :
  flt (Finite 0) (Inf false) = true
  /\ _format_timestamp (NFloat (Inf false))
     = Raise (ValueError "cannot convert float NaN to integer")
  /\ _format_timestamp (NFloat NaN)
     = Raise (ValueError "cannot convert float NaN to integer").
Proof. repeat split. Qed.

Example format_timestamp_examples :
  _format_timestamp (NFloat (Finite (7451 # 2))) = Ok "01:02:05"
  /\ _format_timestamp (NInt 59) = Ok "00:59"
  /\ _format_timestamp (NInt 3600) = Ok "01:00:00"
  /\ _format_timestamp (NInt 360000) = Ok "100:00:00".
Proof. repeat split; vm_compute; reflexivity. Qed.

(** Where float arithmetic shows.  At 1e22 seconds the hour field is the
    float quotient, not the number of hours, 2777777777777777777; just
    below zero the remainders round up to the divisor. *)
Example format_timestamp_rounding :
  _format_timestamp (NFloat (Finite (inject_Z (10 ^ 22))))
  = Ok "2777777777777777664:46:40"
  /\ _format_timestamp (NFloat (Finite (-1 # 2 ^ 60))) = Ok "60:60"
  /\ representable (inject_Z (10 ^ 22)) /\ representable (-1 # 2 ^ 60).
Proof. repeat split; vm_compute; reflexivity. Qed.


(** ** Loops *)

(** Items on which the body does nothing can be left out of the loop. *)
Lemma for_each_filter {S A : Type} (body : S -> A -> result S)
  (skip : A -> bool) :
  (forall state x, skip x = true -> body state x = Ok state) ->
  forall items state,
    for_each body (filter (fun x => negb (skip x)) items) state
    = for_each body items state.
Proof.
  intros Hskip items. induction items as [|x items IH]; intros state.
  - reflexivity.
  - simpl. destruct (skip x) eqn:Hx; simpl.
    + rewrite (Hskip state x Hx). apply IH.
    + destruct (body state x); [apply IH | reflexivity].
Qed.

(** A loop sees its items only through the body. *)
Lemma for_each_map {S A : Type} (body : S -> A -> result S) (f : A -> A) :
  (forall state x, body state (f x) = body state x) ->
  forall items state,
    for_each body (map f items) state = for_each body items state.
Proof.
  intros Hf items. induction items as [|x items IH]; intros state.
  - reflexivity.
  - simpl. rewrite Hf. destruct (body state x); [apply IH | reflexivity].
Qed.

(** ** Blank segments and default fields *)

(** A segment the loops skip: a dict whose ["text"] (the empty string when
    the key is missing) is a [str] that is empty once stripped.  A segment
    on which reading the text raises is not blank. *)
Definition is_blank (segment : value) : bool :=
  match segment with
  | VDict d =>
      match get_or d "text" (VStr "") with
      | VStr s => String.eqb (strip s) ""
      | _ => false
      end
  | _ => false
  end.

(** The sublist of the segments whose text is not empty after stripping. *)
Definition non_blank (segments : list value) : list value :=
  filter (fun segment => negb (is_blank segment)) segments.

(** [d.setdefault(k, v)]. *)
Definition setdefault (d : dict) (k : string) (v : value) : dict :=
  if contains d k then d else append d (k, v).

(** A segment with each of the three fields the formatters read filled in
    when it is missing: speaker ["Unknown"], text [""], start [0]. *)
Definition with_defaults (segment : value) : value :=
  match segment with
  | VDict d =>
      VDict (setdefault
               (setdefault (setdefault d "speaker" (VStr "Unknown"))
                  "text" (VStr ""))
               "start" (VInt 0))
  | _ => segment
  end.

Lemma get_append_other (d : dict) (k k' : string) (v : value) :
  k <> k' -> get (append d (k, v)) k' = get d k'.
Proof.
  intros Hne. unfold append. induction d as [|[k0 v0] d IH]; simpl.
  - destruct (String.eqb_spec k k'); [contradiction | reflexivity].
  - destruct (String.eqb k0 k'); [reflexivity | exact IH].
Qed.

Lemma get_append_missing (d : dict) (k : string) (v : value) :
  get d k = None -> get (append d (k, v)) k = Some v.
Proof.
  unfold append. induction d as [|[k0 v0] d IH]; simpl; intros Hd.
  - now rewrite String.eqb_refl.
  - destruct (String.eqb k0 k); [discriminate | now apply IH].
Qed.

Lemma get_or_setdefault_same (d : dict) (k : string) (v : value) :
  get (setdefault d k v) k = Some (get_or d k v).
Proof.
  unfold setdefault, contains, get_or.
  destruct (get d k) as [x|] eqn:Hd.
  - exact Hd.
  - now apply get_append_missing.
Qed.

Lemma get_setdefault_other (d : dict) (k k' : string) (v : value) :
  k <> k' -> get (setdefault d k v) k' = get d k'.
Proof.
  intros Hne. unfold setdefault.
  destruct (contains d k); [reflexivity | now apply get_append_other].
Qed.

(** The defaults are the ones [.get] supplies: reading a field of the
    filled-in segment with the formatter's default gives what reading the
    original does. *)
Lemma with_defaults_get (segment : value) :
  value_get (with_defaults segment) "speaker" (VStr "Unknown")
    = value_get segment "speaker" (VStr "Unknown")
  /\ value_get (with_defaults segment) "text" (VStr "")
     = value_get segment "text" (VStr "")
  /\ value_get (with_defaults segment) "start" (VInt 0)
     = value_get segment "start" (VInt 0).
Proof.
  destruct segment as [| | | | | |d]; try (repeat split; reflexivity).
  unfold with_defaults, value_get.
  repeat split; f_equal; unfold get_or at 1.
  - rewrite !get_setdefault_other by discriminate.
    rewrite get_or_setdefault_same. reflexivity.
  - rewrite get_setdefault_other by discriminate.
    rewrite get_or_setdefault_same. unfold get_or at 1.
    rewrite get_setdefault_other by discriminate. reflexivity.
  - rewrite get_or_setdefault_same. unfold get_or at 1.
    rewrite !get_setdefault_other by discriminate. reflexivity.
Qed.

Lemma with_defaults_speaker_and_text (segment : value) :
  speaker_and_text (with_defaults segment) = speaker_and_text segment.
Proof.
  destruct (with_defaults_get segment) as (Hs & Ht & _).
  unfold speaker_and_text. now rewrite Hs, Ht.
Qed.

Lemma with_defaults_timestamp (segment : value) :
  segment_timestamp (with_defaults segment) = segment_timestamp segment.
Proof.
  destruct (with_defaults_get segment) as (_ & _ & Hst).
  unfold segment_timestamp. now rewrite Hst.
Qed.

(** On a blank segment the first two lines of a loop body succeed and the
    text is empty. *)
Lemma blank_speaker_and_text (segment : value) :
  is_blank segment = true ->
  exists speaker, speaker_and_text segment = Ok (speaker, "").
Proof.
  destruct segment as [| | | | | |d]; try discriminate.
  unfold is_blank, speaker_and_text, value_get. simpl.
  destruct (get_or d "text" (VStr "")) as [| | | |s| |]; try discriminate.
  intros Hs. apply String.eqb_eq in Hs. simpl. rewrite Hs.
  now exists (get_or d "speaker" (VStr "Unknown")).
Qed.

Section WithExternals.
Variable repr : value -> string.
Variable write_result : writer_class -> value -> dict -> result (list string).

Ltac skip_blank :=
  let speaker := fresh "speaker" in
  let H := fresh "H" in
  intros ? ? H; apply blank_speaker_and_text in H as [speaker H];
  cbv beta delta [md_basic_body md_list_body md_quote_body two_speaker_body
                  multi_speaker_body];
  rewrite H; reflexivity.

Lemma md_basic_body_blank (its : value) (lines : list string) (seg : value) :
  is_blank seg = true -> md_basic_body repr its lines seg = Ok lines.
Proof. revert lines seg. skip_blank. Qed.

Lemma md_list_body_blank (its : value) (lines : list string) (seg : value) :
  is_blank seg = true -> md_list_body repr its lines seg = Ok lines.
Proof. revert lines seg. skip_blank. Qed.

Lemma md_quote_body_blank (its : value) (lines : list string) (seg : value) :
  is_blank seg = true -> md_quote_body repr its lines seg = Ok lines.
Proof. revert lines seg. skip_blank. Qed.

Lemma two_speaker_body_blank (speakers : list value) (its : value)
  (lines : list string) (seg : value) :
  is_blank seg = true -> two_speaker_body speakers its lines seg = Ok lines.
Proof. revert lines seg. skip_blank. Qed.

Lemma multi_speaker_body_blank (its : value) (lines : list string)
  (seg : value) :
  is_blank seg = true -> multi_speaker_body repr its lines seg = Ok lines.
Proof. revert lines seg. skip_blank. Qed.

Lemma speakers_body_blank (keys : list value) (seg : value) :
  is_blank seg = true -> speakers_body keys seg = Ok keys.
Proof.
  destruct seg as [| | | | | |d]; try discriminate.
  unfold is_blank, speakers_body, value_get. simpl.
  destruct (get_or d "text" (VStr "")) as [| | | |s| |]; try discriminate.
  intros Hs. simpl. now rewrite Hs.
Qed.

(** Blank segments add no speaker to the column detection. *)
Lemma detect_speakers_non_blank (segments : list value) :
  detect_speakers (VList (non_blank segments))
  = detect_speakers (VList segments).
Proof.
  unfold detect_speakers, non_blank. simpl.
  apply for_each_filter. intros; now apply speakers_body_blank.
Qed.

(** C9.  Each of the four markdown formatters gives, on a transcript whose
    segment list is [segments], what it gives on a transcript whose segment
    list is the sublist of the non-blank segments, whatever is passed for
    [include_timestamps]; so does the speaker detection of
    [format_md_table]. *)
Theorem blank_segments_invisible (transcript transcript' : dict)
  (segments : list value) (include_timestamps : value) :
  _get_segments transcript = VList segments ->
  _get_segments transcript' = VList (non_blank segments) ->
  format_md_basic repr transcript' include_timestamps
    = format_md_basic repr transcript include_timestamps
  /\ format_md_list repr transcript' include_timestamps
     = format_md_list repr transcript include_timestamps
  /\ format_md_quote repr transcript' include_timestamps
     = format_md_quote repr transcript include_timestamps
  /\ format_md_table repr transcript' include_timestamps
     = format_md_table repr transcript include_timestamps
  /\ detect_speakers (VList (non_blank segments))
     = detect_speakers (VList segments).
Proof.
  intros Hseg Hseg'.
  unfold format_md_basic, format_md_list, format_md_quote, format_md_table.
  rewrite Hseg, Hseg'. rewrite detect_speakers_non_blank.
  unfold _format_two_speaker_table, _format_multi_speaker_table, non_blank.
  simpl iter. cbv beta delta [bind] iota.
  rewrite (for_each_filter _ is_blank (md_basic_body_blank _)).
  rewrite (for_each_filter _ is_blank (md_list_body_blank _)).
  rewrite (for_each_filter _ is_blank (md_quote_body_blank _)).
  repeat split.
  destruct (detect_speakers (VList segments)) as [speakers|e];
    [|reflexivity].
  destruct (List.length speakers =? 2)%nat.
  - destruct (index speakers 0); [|reflexivity].
    destruct (index speakers 1); [|reflexivity].
    now rewrite (for_each_filter _ is_blank (two_speaker_body_blank _ _)).
  - now rewrite (for_each_filter _ is_blank (multi_speaker_body_blank _)).
Qed.

End WithExternals.


Section Defaults.
Variable repr : value -> string.

Ltac fill_defaults :=
  intros;
  cbv beta delta [md_basic_body md_list_body md_quote_body two_speaker_body
                  multi_speaker_body];
  rewrite with_defaults_speaker_and_text, with_defaults_timestamp;
  reflexivity.

Lemma md_basic_body_defaults (its : value) (lines : list string)
  (seg : value) :
  md_basic_body repr its lines (with_defaults seg)
  = md_basic_body repr its lines seg.
Proof. fill_defaults. Qed.

Lemma md_list_body_defaults (its : value) (lines : list string)
  (seg : value) :
  md_list_body repr its lines (with_defaults seg)
  = md_list_body repr its lines seg.
Proof. fill_defaults. Qed.

Lemma md_quote_body_defaults (its : value) (lines : list string)
  (seg : value) :
  md_quote_body repr its lines (with_defaults seg)
  = md_quote_body repr its lines seg.
Proof. fill_defaults. Qed.

Lemma two_speaker_body_defaults (speakers : list value) (its : value)
  (lines : list string) (seg : value) :
  two_speaker_body speakers its lines (with_defaults seg)
  = two_speaker_body speakers its lines seg.
Proof. fill_defaults. Qed.

Lemma multi_speaker_body_defaults (its : value) (lines : list string)
  (seg : value) :
  multi_speaker_body repr its lines (with_defaults seg)
  = multi_speaker_body repr its lines seg.
Proof. fill_defaults. Qed.

Lemma speakers_body_defaults (keys : list value) (seg : value) :
  speakers_body keys (with_defaults seg) = speakers_body keys seg.
Proof.
  destruct (with_defaults_get seg) as (Hs & Ht & _).
  unfold speakers_body. now rewrite Hs, Ht.
Qed.

(** The four formatters cannot tell a segment list from the one with the
    defaults filled in. *)
Lemma formatters_with_defaults (transcript transcript' : dict)
  (segments : list value) (include_timestamps : value) :
  _get_segments transcript = VList segments ->
  _get_segments transcript' = VList (map with_defaults segments) ->
  format_md_basic repr transcript' include_timestamps
    = format_md_basic repr transcript include_timestamps
  /\ format_md_list repr transcript' include_timestamps
     = format_md_list repr transcript include_timestamps
  /\ format_md_quote repr transcript' include_timestamps
     = format_md_quote repr transcript include_timestamps
  /\ format_md_table repr transcript' include_timestamps
     = format_md_table repr transcript include_timestamps.
Proof.
  intros Hseg Hseg'.
  unfold format_md_basic, format_md_list, format_md_quote, format_md_table.
  rewrite Hseg, Hseg'.
  unfold detect_speakers, _format_two_speaker_table,
    _format_multi_speaker_table.
  simpl iter. cbv beta delta [bind] iota.
  rewrite (for_each_map _ with_defaults (md_basic_body_defaults _)).
  rewrite (for_each_map _ with_defaults (md_list_body_defaults _)).
  rewrite (for_each_map _ with_defaults (md_quote_body_defaults _)).
  rewrite (for_each_map _ with_defaults speakers_body_defaults).
  repeat split.
  destruct (for_each speakers_body segments []) as [speakers|e];
    [|reflexivity].
  destruct (List.length speakers =? 2)%nat.
  - destruct (index speakers 0); [|reflexivity].
    destruct (index speakers 1); [|reflexivity].
    now rewrite (for_each_map _ with_defaults (two_speaker_body_defaults _ _)).
  - now rewrite (for_each_map _ with_defaults (multi_speaker_body_defaults _)).
Qed.

(** What [with_defaults] puts into a segment: each of the three fields is
    present afterwards, with its own value if it had one and the default
    otherwise. *)
Lemma with_defaults_fields (d : dict) :
  exists d',
    with_defaults (VDict d) = VDict d'
    /\ get d' "speaker" = Some (get_or d "speaker" (VStr "Unknown"))
    /\ get d' "text" = Some (get_or d "text" (VStr ""))
    /\ get d' "start" = Some (get_or d "start" (VInt 0)).
Proof.
  eexists. split; [reflexivity|]. repeat split.
  - rewrite !get_setdefault_other by discriminate.
    apply get_or_setdefault_same.
  - rewrite get_setdefault_other by discriminate.
    rewrite get_or_setdefault_same. unfold get_or at 1.
    now rewrite get_setdefault_other by discriminate.
  - rewrite get_or_setdefault_same. unfold get_or at 1.
    now rewrite !get_setdefault_other by discriminate.
Qed.

Lemma missing_text_blank (d : dict) :
  get d "text" = None -> is_blank (VDict d) = true.
Proof.
  intros Hd. unfold is_blank, get_or. rewrite Hd. reflexivity.
Qed.

(** On every segment list, those a formatter raises on included, the four
    markdown formatters give what they give when each segment has
    its missing ["speaker"], ["text"] and ["start"] set to ["Unknown"], the
    empty string and 0.  A segment without ["text"] is blank, so every loop
    passes over it; a segment without ["start"] gets the timestamp of 0
    seconds, [00:00]. *)
Lemma missing_fields_read_as_defaults (transcript transcript' : dict)
  (segments : list value) (include_timestamps : value) :
  _get_segments transcript = VList segments ->
  _get_segments transcript' = VList (map with_defaults segments) ->
  (format_md_basic repr transcript' include_timestamps
     = format_md_basic repr transcript include_timestamps
   /\ format_md_list repr transcript' include_timestamps
      = format_md_list repr transcript include_timestamps
   /\ format_md_quote repr transcript' include_timestamps
      = format_md_quote repr transcript include_timestamps
   /\ format_md_table repr transcript' include_timestamps
      = format_md_table repr transcript include_timestamps)
  /\ (forall d, exists d',
        with_defaults (VDict d) = VDict d'
        /\ get d' "speaker" = Some (get_or d "speaker" (VStr "Unknown"))
        /\ get d' "text" = Some (get_or d "text" (VStr ""))
        /\ get d' "start" = Some (get_or d "start" (VInt 0)))
  /\ (forall d lines,
        get d "text" = None ->
        md_basic_body repr include_timestamps lines (VDict d) = Ok lines
        /\ md_list_body repr include_timestamps lines (VDict d) = Ok lines
        /\ md_quote_body repr include_timestamps lines (VDict d) = Ok lines
        /\ multi_speaker_body repr include_timestamps lines (VDict d)
           = Ok lines
        /\ (forall speakers,
              two_speaker_body speakers include_timestamps lines (VDict d)
              = Ok lines)
        /\ (forall keys, speakers_body keys (VDict d) = Ok keys))
  /\ (forall d, get d "start" = None ->
                segment_timestamp (VDict d) = Ok "00:00")
  /\ (forall d, get d "speaker" = None ->
                speaker_and_text (VDict d)
                = bind (value_strip (get_or d "text" (VStr "")))
                    (fun text => Ok (VStr "Unknown", text))).
Proof.
  intros Hseg Hseg'.
  split; [now apply (formatters_with_defaults transcript transcript' segments)|].
  split; [exact with_defaults_fields|].
  split; [|split].
  - intros d lines Hd. apply missing_text_blank in Hd.
    repeat split; intros.
    + now apply md_basic_body_blank.
    + now apply md_list_body_blank.
    + now apply md_quote_body_blank.
    + now apply multi_speaker_body_blank.
    + now apply two_speaker_body_blank.
    + now apply speakers_body_blank.
  - intros d Hd. unfold segment_timestamp, value_get, get_or.
    rewrite Hd. reflexivity.
  - intros d Hd. unfold speaker_and_text, value_get, get_or.
    rewrite Hd. reflexivity.
Qed.

End Defaults.


(** ** The dispatch on the format name *)

Definition supported_formats : list string :=
  ["json"; "verbose_json"; "vtt_json"; "text"; "srt"; "vtt"; "aud";
   "md_basic"; "md_list"; "md_quote"; "md_table"].

(** The formats that go through [handle_whisperx_format]. *)
Definition writer_formats : list string := ["vtt_json"; "srt"; "vtt"; "aud"].

(** What [transcript["segments"]["language"] = transcript["language"]]
    leaves of the transcript: the nested dict gains (or has replaced) its
    ["language"]; when the statement raises, nothing has changed. *)
Definition language_into_segments (transcript : dict) : dict :=
  match get transcript "language", get transcript "segments" with
  | Some language, Some (VDict segments) =>
      setitem transcript "segments"
        (VDict (setitem segments "language" language))
  | _, _ => transcript
  end.

(** [transcript["segments"][k]], when there is such a thing. *)
Definition nested_get (transcript : dict) (k : string) : option value :=
  match get transcript "segments" with
  | Some (VDict segments) => get segments k
  | _ => None
  end.

Lemma get_setitem {V : Type} (d : list (string * V)) (k k' : string) (v : V) :
  get (setitem d k v) k' = if String.eqb k k' then Some v else get d k'.
Proof.
  induction d as [|[k0 v0] d IH]; simpl.
  - reflexivity.
  - destruct (String.eqb_spec k0 k) as [->|Hne]; simpl.
    + destruct (String.eqb k k'); reflexivity.
    + destruct (String.eqb_spec k0 k') as [->|Hne'].
      * destruct (String.eqb_spec k k'); [congruence | reflexivity].
      * exact IH.
Qed.

Lemma get_setitem_other {V : Type} (d : list (string * V)) (k k' : string)
  (v : V) :
  k <> k' -> get (setitem d k v) k' = get d k'.
Proof.
  intros Hne. rewrite get_setitem.
  destruct (String.eqb_spec k k'); [contradiction | reflexivity].
Qed.

(** Outside [segments["language"]] the statement changes nothing. *)
Lemma language_into_segments_frame (transcript : dict) :
  (forall k, k <> "segments" ->
             get (language_into_segments transcript) k = get transcript k)
  /\ (forall k, k <> "language" ->
                nested_get (language_into_segments transcript) k
                = nested_get transcript k).
Proof.
  unfold language_into_segments, nested_get.
  destruct (get transcript "language") as [language|];
    [|split; reflexivity].
  destruct (get transcript "segments") as [[| | | | | |segments]|] eqn:Hs;
    try (rewrite ?Hs; split; reflexivity).
  split.
  - intros k Hk. now apply get_setitem_other.
  - intros k Hk. rewrite get_setitem, String.eqb_refl.
    now apply get_setitem_other.
Qed.

Section Dispatch.
Variable repr : value -> string.
Variable write_result : writer_class -> value -> dict -> result (list string).

(** [handle_whisperx_format], by the shape of the transcript. *)
Lemma handle_whisperx_format_cases (transcript : dict) (wc : writer_class)
  (options : dict) :
  snd (handle_whisperx_format write_result transcript wc options)
    = language_into_segments transcript
  /\ match get transcript "language", get transcript "segments" with
     | None, _ =>
         fst (handle_whisperx_format write_result transcript wc options)
         = Raise (KeyError "language")
     | Some _, None =>
         fst (handle_whisperx_format write_result transcript wc options)
         = Raise (KeyError "segments")
     | Some language, Some (VDict segments) =>
         fst (handle_whisperx_format write_result transcript wc options)
         = (texts <- write_result wc
                       (VDict (setitem segments "language" language))
                       options ;;
            Ok (join "" texts))
     | Some _, Some _ =>
         fst (handle_whisperx_format write_result transcript wc options)
         = Raise TypeError
     end.
Proof.
  unfold handle_whisperx_format, language_into_segments, getitem.
  destruct (get transcript "language") as [language|];
    [|split; reflexivity].
  destruct (get transcript "segments") as [[| | | | | |segments]|];
    try (split; reflexivity).
  split; [reflexivity|]. simpl.
  destruct (write_result wc _ options) as [texts|e]; [|reflexivity].
  simpl. f_equal. unfold get_output, ListWriter_init.
  assert (Hw : forall texts w,
             lines (fold_left write texts w) = (lines w ++ texts)%list).
  { clear. induction texts as [|x texts IH]; intros w; simpl.
    - now rewrite app_nil_r.
    - rewrite IH. unfold write, append. simpl. now rewrite <- app_assoc. }
  now rewrite Hw.
Qed.

(** What a call with one of the writer formats returns is decided by
    [handle_whisperx_format]. *)
Lemma format_transcription_writer_formats (transcript : dict)
  (format : string) (kwargs : dict) :
  In format writer_formats ->
  exists wc options,
    match handle_whisperx_format write_result transcript wc options with
    | (Ok out, t) =>
        format_transcription repr write_result transcript format kwargs
        = if String.eqb format "vtt_json" then
            (JSONResponse (VDict (setitem t "vtt_text" (VStr out)))
               APPLICATION_JSON,
             setitem t "vtt_text" (VStr out))
          else
            (PlainResponse (VStr out)
               (if String.eqb format "vtt" then TEXT_VTT else TEXT_PLAIN),
             t)
    | (Raise e, t) =>
        format_transcription repr write_result transcript format kwargs
        = (Raise e, t)
    end.
Proof.
  intros Hin. simpl in Hin.
  destruct Hin as [<-|[<-|[<-|[<-|[]]]]];
    unfold format_transcription; simpl;
    match goal with
    | |- context [handle_whisperx_format _ _ ?wc ?o] => exists wc, o
    end;
    destruct (handle_whisperx_format _ _ _ _) as [[out|e] t];
    simpl; eauto.
Qed.

(** C10.  [handle_whisperx_format] returns only when the transcript has a
    ["language"] key and a dict under ["segments"], and so does
    [format_transcription] for the formats [srt], [vtt], [aud] and
    [vtt_json].  When ["segments"] is a list, the shape [_get_segments]
    hands to the markdown formatters as it is, both raise: [TypeError] from
    the item assignment (or [KeyError] before it, when there is no
    ["language"]). *)
Theorem writer_formats_need_language_and_dict (transcript : dict) :
  (forall wc options out t,
     handle_whisperx_format write_result transcript wc options = (Ok out, t) ->
     (exists language, get transcript "language" = Some language)
     /\ (exists segments, get transcript "segments" = Some (VDict segments)))
  /\ (forall format kwargs resp t,
        In format writer_formats ->
        format_transcription repr write_result transcript format kwargs
        = (Ok resp, t) ->
        (exists language, get transcript "language" = Some language)
        /\ (exists segments, get transcript "segments" = Some (VDict segments)))
  /\ (forall items,
        get transcript "segments" = Some (VList items) ->
        _get_segments transcript = VList items
        /\ (forall wc options,
              fst (handle_whisperx_format write_result transcript wc options)
              = Raise (if contains transcript "language"
                       then TypeError else KeyError "language"))
        /\ (forall format kwargs,
              In format writer_formats ->
              fst (format_transcription repr write_result transcript format
                     kwargs)
              = Raise (if contains transcript "language"
                       then TypeError else KeyError "language"))).
Proof.
  assert (Hhandle : forall wc options out t,
    handle_whisperx_format write_result transcript wc options = (Ok out, t) ->
    (exists language, get transcript "language" = Some language)
    /\ (exists segments, get transcript "segments" = Some (VDict segments))).
  { intros wc options out t H.
    destruct (handle_whisperx_format_cases transcript wc options) as [_ Hc].
    rewrite H in Hc. simpl in Hc.
    destruct (get transcript "language") as [language|]; [|discriminate].
    destruct (get transcript "segments") as [[| | | | | |segments]|];
      try discriminate.
    split; eauto. }
  assert (Hlist : forall items wc options,
    get transcript "segments" = Some (VList items) ->
    fst (handle_whisperx_format write_result transcript wc options)
    = Raise (if contains transcript "language"
             then TypeError else KeyError "language")).
  { intros items wc options Hs.
    destruct (handle_whisperx_format_cases transcript wc options) as [_ Hc].
    unfold contains. rewrite Hs in Hc.
    destruct (get transcript "language"); exact Hc. }
  split; [exact Hhandle|]. split.
  - intros format kwargs resp t Hin H.
    destruct (format_transcription_writer_formats transcript format kwargs Hin)
      as (wc & options & Hf).
    destruct (handle_whisperx_format write_result transcript wc options)
      as [[out|e] t0] eqn:Hh.
    + now apply (Hhandle wc options out t0).
    + rewrite H in Hf. discriminate.
  - intros items Hs. split; [|split].
    + unfold _get_segments, get_or. now rewrite Hs.
    + intros wc options. now apply (Hlist items).
    + intros format kwargs Hin.
      destruct (format_transcription_writer_formats transcript format kwargs
                  Hin) as (wc & options & Hf).
      pose proof (Hlist items wc options Hs) as Hl.
      destruct (handle_whisperx_format write_result transcript wc options)
        as [[out|e] t0].
      * simpl in Hl. destruct (contains transcript "language"); discriminate.
      * simpl in Hl. injection Hl as ->. rewrite Hf. reflexivity.
Qed.

End Dispatch.


(** ** Effects on the transcript, and what the result depends on *)

(** The options handed to the whisperx writers: the three defaults, each
    overridden by the keyword argument of the same name. *)
Definition writer_options (kwargs : dict) : dict :=
  [("max_line_width", get_or kwargs "max_line_width" (VInt 1000));
   ("max_line_count", get_or kwargs "max_line_count" VNone);
   ("highlight_words", get_or kwargs "highlight_words" (VBool false))].

Lemma update_options_defaults (kwargs : dict) :
  update_options kwargs
    [("max_line_width", VInt 1000);
     ("max_line_count", VNone);
     ("highlight_words", get_or kwargs "highlight_words" (VBool false))]
  = writer_options kwargs.
Proof.
  unfold update_options, writer_options, update. simpl.
  do 3 f_equal. unfold get_or.
  destruct (get kwargs "highlight_words"); reflexivity.
Qed.

Section Effects.
Variable repr : value -> string.
Variable write_result : writer_class -> value -> dict -> result (list string).

Ltac split_on_format format :=
  repeat match goal with
         | |- context [String.eqb format ?s] =>
             destruct (String.eqb_spec format s); [subst format|]
         end.

(** Outside the writer formats the transcript is only read. *)
Lemma format_transcription_reads (transcript : dict) (format : string)
  (kwargs : dict) :
  ~ In format writer_formats ->
  snd (format_transcription repr write_result transcript format kwargs)
  = transcript.
Proof.
  intros Hnot. unfold format_transcription.
  split_on_format format; try reflexivity;
    exfalso; apply Hnot; simpl; tauto.
Qed.

(** With a writer format the transcript leaves as
    [handle_whisperx_format] leaves it, and [vtt_json] then stores the
    text it got. *)
Lemma format_transcription_writes (transcript : dict) (format : string)
  (kwargs : dict) :
  In format writer_formats ->
  let after :=
    snd (format_transcription repr write_result transcript format kwargs) in
  after = language_into_segments transcript
  \/ (format = "vtt_json"
      /\ exists vtt_text,
           fst (handle_whisperx_format write_result transcript WriteVTT
                  (writer_options kwargs)) = Ok vtt_text
           /\ after = setitem (language_into_segments transcript)
                        "vtt_text" (VStr vtt_text)).
Proof.
  intros Hin. simpl in Hin.
  destruct Hin as [<-|[<-|[<-|[<-|[]]]]]; cbv zeta;
    unfold format_transcription; rewrite update_options_defaults; simpl;
    match goal with
    | |- context [handle_whisperx_format _ _ ?wc ?o] =>
        pose proof (handle_whisperx_format_cases write_result transcript wc o)
          as [Hsnd _];
        destruct (handle_whisperx_format write_result transcript wc o)
          as [[out|e] t]
    end; simpl in *; subst t; eauto.
Qed.

(** C3, as the code has it.  The formats [json], [verbose_json], [text]
    and the four markdown formats (and any unsupported name) leave the
    transcript as it was.  The formats [srt], [vtt] and [aud] leave it with
    [transcript["language"]] stored under
    [transcript["segments"]["language"]]; [vtt_json] does the same and, when
    the writer returns, stores the VTT text under [transcript["vtt_text"]].
    Whatever the format, no other key of the transcript or of its nested
    ["segments"] dict is added, removed or given another value. *)
Theorem format_transcription_effect (transcript : dict) (format : string)
  (kwargs : dict) :
  let after :=
    snd (format_transcription repr write_result transcript format kwargs) in
  (~ In format writer_formats -> after = transcript)
  /\ (In format ["srt"; "vtt"; "aud"] ->
      after = language_into_segments transcript)
  /\ (format = "vtt_json" ->
      after = language_into_segments transcript
      \/ exists vtt_text,
           fst (handle_whisperx_format write_result transcript WriteVTT
                  (writer_options kwargs)) = Ok vtt_text
           /\ after = setitem (language_into_segments transcript)
                        "vtt_text" (VStr vtt_text))
  /\ (forall k, k <> "segments" -> k <> "vtt_text" ->
                get after k = get transcript k)
  /\ (forall k, k <> "language" ->
                nested_get after k = nested_get transcript k).
Proof.
  cbv zeta.
  pose proof (format_transcription_reads transcript format kwargs) as Hreads.
  pose proof (format_transcription_writes transcript format kwargs) as Hwrites.
  cbv zeta in Hwrites.
  destruct (language_into_segments_frame transcript) as [Hget Hnested].
  split; [exact Hreads|]. split; [|split; [|split]].
  - intros Hin.
    destruct Hwrites as [H|[Hv _]]; [simpl in *; tauto | exact H |].
    subst format. simpl in Hin.
    destruct Hin as [H|[H|[H|[]]]]; discriminate.
  - intros ->.
    destruct Hwrites as [H|[_ H]]; [simpl; tauto | now left | now right].
  - intros k Hseg Hvtt.
    destruct (in_dec string_dec format writer_formats) as [Hin|Hnot];
      [|now rewrite Hreads].
    destruct (Hwrites Hin) as [->|[_ (vtt_text & _ & ->)]].
    + now apply Hget.
    + rewrite get_setitem_other by congruence. now apply Hget.
  - intros k Hlang.
    destruct (in_dec string_dec format writer_formats) as [Hin|Hnot];
      [|now rewrite Hreads].
    destruct (Hwrites Hin) as [->|[_ (vtt_text & _ & ->)]].
    + now apply Hnested.
    + unfold nested_get at 1. rewrite get_setitem_other by discriminate.
      now apply Hnested.
Qed.

End Effects.


(** ** Responses and errors *)





(** The two [ValueError]s the interpreter and the framework raise on a
    float that is no number. *)
Definition nan_message : string := "cannot convert float NaN to integer".

(** [isinstance(e, ValueError)]: the class and those of its subclasses
    that are listed. *)
Definition is_value_error (e : exn) : bool :=
  match e with
  | ValueError _ | UnicodeDecodeError | JSONDecodeError _ => true
  | _ => false
  end.

(** A result that raises only exceptions with the property [P]. *)
Definition raises_only {A : Type} (P : exn -> Prop) (r : result A) : Prop :=
  forall e, r = Raise e -> P e.

(** An exception that is no [ValueError], unless it is [int]'s on a NaN. *)
Definition nan_or_other (e : exn) : Prop :=
  is_value_error e = true -> e = ValueError nan_message.

Lemma raises_only_bind {A B : Type} (P : exn -> Prop) (c : result A)
  (k : A -> result B) :
  raises_only P c -> (forall a, raises_only P (k a)) ->
  raises_only P (bind c k).
Proof.
  intros Hc Hk e. destruct c as [a|e']; simpl.
  - apply Hk.
  - intros H. apply Hc. injection H as ->. reflexivity.
Qed.


Ltac other_class :=
  let e := fresh "e" in
  let H := fresh "H" in
  let Hv := fresh "Hv" in
  intros e H;
  first [ discriminate H
        | injection H as <-; intros Hv; first [discriminate Hv | reflexivity] ].

Lemma nan_or_other_value_get (v : value) (k : string) (default : value) :
  raises_only nan_or_other (value_get v k default).
Proof. destruct v; other_class. Qed.

Lemma nan_or_other_value_strip (v : value) :
  raises_only nan_or_other (value_strip v).
Proof. destruct v; other_class. Qed.

Lemma nan_or_other_iter (v : value) : raises_only nan_or_other (iter v).
Proof. destruct v; other_class. Qed.

Lemma nan_or_other_index {A : Type} (l : list A) (i : nat) :
  raises_only nan_or_other (index l i).
Proof. unfold index. destruct (nth_error l i); other_class. Qed.

Lemma nan_or_other_int (x : number) : raises_only nan_or_other (int x).
Proof. destruct x as [n|[q|s|]]; other_class. Qed.

Lemma nan_or_other_format_timestamp (seconds : number) :
  raises_only nan_or_other (_format_timestamp seconds).
Proof.
  unfold _format_timestamp.
  repeat (apply raises_only_bind; [apply nan_or_other_int | intros ?]).
  other_class.
Qed.

Lemma nan_or_other_timestamp (segment : value) :
  raises_only nan_or_other (segment_timestamp segment).
Proof.
  unfold segment_timestamp. apply raises_only_bind.
  - apply nan_or_other_value_get.
  - intros start. unfold format_timestamp_value.
    destruct (as_number start);
      [apply nan_or_other_format_timestamp | other_class].
Qed.

Lemma nan_or_other_speaker_and_text (segment : value) :
  raises_only nan_or_other (speaker_and_text segment).
Proof.
  unfold speaker_and_text.
  repeat (apply raises_only_bind;
          [first [apply nan_or_other_value_get
                 | apply nan_or_other_value_strip]
          | intros ?]).
  other_class.
Qed.

Create HintDb nve.
#[local] Hint Resolve nan_or_other_value_get nan_or_other_value_strip
  nan_or_other_iter nan_or_other_index nan_or_other_timestamp
  nan_or_other_speaker_and_text : nve.


Section Responses.
Variable repr : value -> string.
Variable write_result : writer_class -> value -> dict -> result (list string).


















End Responses.


(** ** Worked examples *)

(** A transcript of the shape the server builds: the text, the language
    and the aligned result, whose ["segments"] is the list of segments.
    The second segment is blank and has no speaker, the third has no start
    time, the fourth no text. *)
Definition sample_segments : list value :=
  [VDict [("start", VFloat (Finite (1 # 2))); ("end", VFloat (Finite (5 # 2)));
          ("text", VStr " Hello there. "); ("speaker", VStr "SPEAKER_00")];
   VDict [("start", VInt 3); ("text", VStr "   ")];
   VDict [("text", VStr "Fine | thanks"); ("speaker", VStr "SPEAKER_01")];
   VDict [("start", VInt 3700); ("speaker", VStr "SPEAKER_00")]].

Definition sample_transcript : dict :=
  [("text", VStr "Hello there. Fine | thanks");
   ("language", VStr "en");
   ("segments", VDict [("segments", VList sample_segments)])].

(** The same transcript after a writer format has run on it. *)
Definition sample_transcript_after : dict :=
  [("text", VStr "Hello there. Fine | thanks");
   ("language", VStr "en");
   ("segments", VDict [("segments", VList sample_segments);
                       ("language", VStr "en")])].

(** The other shape [_get_segments] accepts: the list directly under
    ["segments"]. *)
Definition list_transcript (segments : list value) : dict :=
  [("language", VStr "en"); ("segments", VList segments)].

(** Stand-ins for the two parameters when an example has to run: every
    speaker in the examples is a [str], so [repr] is never called, and the
    writer writes one fixed line whatever it is given. *)
Definition repr_unused (v : value) : string := "".

Definition one_line_writer (wc : writer_class) (result : value)
  (options : dict) : Py.result (list string) :=
  Ok ["1"; newline].

Example sample_md_basic :
  format_md_basic repr_unused sample_transcript (VBool true)
  = Ok (join newline
          ["SPEAKER_00 [00:00]: Hello there."; "";
           "SPEAKER_01 [00:00]: Fine | thanks"]).
Proof. vm_compute. reflexivity. Qed.

Example sample_md_quote :
  format_md_quote repr_unused sample_transcript (VBool false)
  = Ok (join newline
          ["> **SPEAKER_00**: Hello there."; ">";
           "> **SPEAKER_01**: Fine | thanks"]).
Proof. vm_compute. reflexivity. Qed.

Example sample_md_table :
  format_md_table repr_unused sample_transcript (VBool false)
  = Ok (join newline
          ["| SPEAKER_00 | SPEAKER_01 |"; "| --- | --- |";
           "| Hello there. |  |"; "|  | Fine \| thanks |"]).
Proof. vm_compute. reflexivity. Qed.

(** A segment with nothing but its text. *)
Example sample_unknown_speaker :
  format_md_list repr_unused (list_transcript [VDict [("text", VStr "Bye.")]])
    (VBool true)
  = Ok "- **Unknown** [00:00]: Bye.".
Proof. vm_compute. reflexivity. Qed.

(** A list under ["segments"] serves the markdown formats and stops the
    writer formats. *)
Example sample_list_shape :
  format_md_basic repr_unused (list_transcript sample_segments) (VBool false)
  = format_md_basic repr_unused sample_transcript (VBool false)
  /\ fst (format_transcription repr_unused one_line_writer
            (list_transcript sample_segments) "srt" [])
     = Raise TypeError.
Proof. split; vm_compute; reflexivity. Qed.


(** So does [text], a format that calls no formatter, when the
    transcript's text is not a [str]: the response cannot encode it. *)
Example text_of_a_number_raises :
  forall repr write_result,
    format_transcription repr write_result [("text", VInt 5)] "text" []
    = (Raise AttributeError, [("text", VInt 5)]).
Proof. reflexivity. Qed.


(** C3 fails as stated: after a call with the supported format [srt] the
    transcript's nested ["segments"] dict has a ["language"] key it did not
    have before, whatever the writer does. *)
Lemma srt_adds_language_to_segments :
  In "srt" supported_formats
  /\ nested_get sample_transcript "language" = None
  /\ (forall repr write_result,
        snd (format_transcription repr write_result sample_transcript "srt" [])
        = sample_transcript_after)
  /\ nested_get sample_transcript_after "language" = Some (VStr "en")
  /\ sample_transcript_after <> sample_transcript.
Proof.
  split; [simpl; tauto|]. split; [reflexivity|].
  split; [reflexivity|]. split; [reflexivity | discriminate].
Qed.

(** The writer's output reaches the response, and [vtt_json] stores it. *)
Example sample_vtt_json :
  format_transcription repr_unused one_line_writer sample_transcript
    "vtt_json" []
  = (JSONResponse
       (VDict (setitem sample_transcript_after "vtt_text"
                 (VStr (join "" ["1"; newline]))))
       APPLICATION_JSON,
     setitem sample_transcript_after "vtt_text"
       (VStr (join "" ["1"; newline]))).
Proof. vm_compute. reflexivity. Qed.



Lemma blank_segments_invisible_witness :
  _get_segments sample_transcript = VList sample_segments
  /\ _get_segments (list_transcript (non_blank sample_segments))
     = VList (non_blank sample_segments)
  /\ format_md_table repr_unused (list_transcript (non_blank sample_segments))
       (VBool true)
     = format_md_table repr_unused sample_transcript (VBool true).
Proof.
  assert (H1 : _get_segments sample_transcript = VList sample_segments)
    by reflexivity.
  assert (H2 : _get_segments (list_transcript (non_blank sample_segments))
               = VList (non_blank sample_segments)) by reflexivity.
  split; [exact H1|]. split; [exact H2|].
  exact (proj1 (proj2 (proj2 (proj2
           (blank_segments_invisible repr_unused sample_transcript
              (list_transcript (non_blank sample_segments))
              sample_segments (VBool true) H1 H2))))).
Defined.

Example missing_fields_read_as_defaults_example :
  _get_segments sample_transcript = VList sample_segments
  /\ _get_segments (list_transcript (map with_defaults sample_segments))
     = VList (map with_defaults sample_segments)
  /\ format_md_basic repr_unused
       (list_transcript (map with_defaults sample_segments)) (VBool true)
     = format_md_basic repr_unused sample_transcript (VBool true).
Proof.
  assert (H1 : _get_segments sample_transcript = VList sample_segments)
    by reflexivity.
  assert (H2 : _get_segments
                 (list_transcript (map with_defaults sample_segments))
               = VList (map with_defaults sample_segments)) by reflexivity.
  split; [exact H1|]. split; [exact H2|].
  exact (proj1 (proj1
           (missing_fields_read_as_defaults repr_unused sample_transcript
              (list_transcript (map with_defaults sample_segments))
              sample_segments (VBool true) H1 H2))).
Qed.

End FormattersProps.

(* ================================================================== *)
(** * Properties of dependencies.py *)
(* ================================================================== *)

Module DependenciesProps.
Import Py Config Dependencies.

(** The result [lru_cache] has stored for these arguments, if any. *)
Definition cached (w : world) (path : string) (mtime : Q) : option value :=
  match cache w with
  | Some (p, m, keys) =>
      if String.eqb p path && Qeq_bool m mtime then Some keys else None
  | None => None
  end.

(** The exceptions the two [except] clauses of [_get_api_keys] name. *)
Definition caught (e : exn) : bool :=
  match e with
  | FileNotFoundError | JSONDecodeError _ => true
  | _ => false
  end.

(** The same process after the file at [path] has been replaced. *)
Definition rewrite_file (w : world) (path : string) (f : file) : world :=
  {| fs := fun p => if String.eqb p path then Ok f else fs w p;
     cache := cache w;
     log := log w |}.

Lemma get_None_iff {V : Type} (d : list (string * V)) (k : string) :
  get d k = None <-> ~ In k (map fst d).
Proof.
  induction d as [|[k' v] d IH]; simpl.
  - tauto.
  - destruct (String.eqb_spec k' k) as [->|Hne].
    + split; [discriminate | intros H; exfalso; apply H; now left].
    + rewrite IH. split.
      * intros Hn [Heq|Hin]; [now apply Hne | now apply Hn].
      * intros Hn Hin. apply Hn. now right.
Qed.

Section WithParser.
Variable json_load : string -> string + value.
Variable repr : value -> string.

(** What the [try] statement of [_get_api_keys] makes of an exception. *)
Definition recover (path : string) (e : exn) (w : world)
  : result value * world :=
  match e with
  | FileNotFoundError =>
      (Ok (VDict []), logger ERROR ("API keys file not found: " ++ path) w)
  | JSONDecodeError msg =>
      (Ok (VDict []),
       logger ERROR ("Invalid JSON in API keys file: " ++ msg) w)
  | _ => (Raise e, w)
  end.

Lemma recover_result (path : string) (e : exn) (w : world) :
  fst (recover path e w) = if caught e then Ok (VDict []) else Raise e.
Proof. destruct e; reflexivity. Qed.

(** [_get_api_keys] on a path, step by step: the [stat], the cache, the
    reading, the parsing. *)
Lemma get_api_keys_steps (w : world) (path : string) :
  path <> "" ->
  _get_api_keys json_load w (Some path)
  = match fs w path with
    | Raise e => recover path e w
    | Ok f =>
        match cached w path (st_mtime f) with
        | Some keys => (Ok keys, w)
        | None =>
            match contents f with
            | Raise e => recover path e w
            | Ok text =>
                match json_load text with
                | inr keys =>
                    (Ok keys, set_cache (path, st_mtime f, keys) w)
                | inl msg => recover path (JSONDecodeError msg) w
                end
            end
        end
    end.
Proof.
  intros Hne. unfold _get_api_keys.
  destruct (String.eqb_spec path ""); [contradiction|].
  unfold stat_mtime, _load_api_keys_cached, read_text, cached.
  destruct (fs w path) as [f|e]; cbn [bind]; [ | destruct e; reflexivity].
  assert (Hmiss :
    (let '(r, w0) :=
       match contents f with
       | Ok text =>
           match json_load text with
           | inl msg => (Raise (JSONDecodeError msg), w)
           | inr keys => (Ok keys, set_cache (path, st_mtime f, keys) w)
           end
       | Raise e => (Raise e, w)
       end in
     match r with
     | Raise FileNotFoundError =>
         (Ok (VDict []),
          logger ERROR ("API keys file not found: " ++ path) w0)
     | Raise (JSONDecodeError msg) =>
         (Ok (VDict []),
          logger ERROR ("Invalid JSON in API keys file: " ++ msg) w0)
     | _ => (r, w0)
     end)
    = match contents f with
      | Raise e => recover path e w
      | Ok text =>
          match json_load text with
          | inr keys => (Ok keys, set_cache (path, st_mtime f, keys) w)
          | inl msg => recover path (JSONDecodeError msg) w
          end
      end).
  { destruct (contents f) as [text|e];
      [destruct (json_load text) | destruct e]; reflexivity. }
  destruct (cache w) as [[[p m] keys]|]; [ | exact Hmiss].
  destruct (String.eqb p path && Qeq_bool m (st_mtime f));
    [reflexivity | exact Hmiss].
Qed.

(** The file system is only read. *)
Lemma get_api_keys_fs (w : world) (file : option string) :
  fs (snd (_get_api_keys json_load w file)) = fs w.
Proof.
  destruct file as [path|]; [|reflexivity].
  destruct (String.eqb_spec path "") as [->|Hne]; [reflexivity|].
  rewrite (get_api_keys_steps w path Hne).
  destruct (fs w path) as [f|e]; [ | destruct e; reflexivity].
  destruct (cached w path (st_mtime f)); [reflexivity|].
  destruct (contents f) as [text|e];
    [destruct (json_load text) | destruct e]; reflexivity.
Qed.

(** An exception a call lets through is none of the two it catches. *)
Lemma get_api_keys_uncaught (w : world) (file : option string) (e : exn) :
  fst (_get_api_keys json_load w file) = Raise e -> caught e = false.
Proof.
  destruct file as [path|]; [|discriminate].
  destruct (String.eqb_spec path "") as [->|Hne]; [discriminate|].
  rewrite (get_api_keys_steps w path Hne).
  assert (Hrec : forall e', fst (recover path e' w) = Raise e ->
                            caught e = false).
  { intros e' H. rewrite recover_result in H.
    destruct (caught e') eqn:Hc; [discriminate H | ].
    injection H as <-. exact Hc. }
  destruct (fs w path) as [f|e']; [ | apply Hrec].
  destruct (cached w path (st_mtime f)); [discriminate|].
  destruct (contents f) as [text|e']; [ | apply Hrec].
  destruct (json_load text); [apply Hrec | discriminate].
Qed.

(** C5, as the code has it.  [_get_api_keys] returns the empty mapping
    when no path is configured (none, or the empty string), when [stat] or
    [open] raises [FileNotFoundError], and when the text read is not valid
    JSON.  When the cache holds no result for the path and the file's
    modification time, it reads the file and returns what the text parses
    to; when the cache holds one, it returns that without reading the
    file.  Every other exception of [stat], [open] or the reading
    propagates. *)
Theorem get_api_keys_returns (w : world) :
  fst (_get_api_keys json_load w None) = Ok (VDict [])
  /\ fst (_get_api_keys json_load w (Some "")) = Ok (VDict [])
  /\ forall path, path <> "" ->
       let result := fst (_get_api_keys json_load w (Some path)) in
       (forall e, fs w path = Raise e ->
                  result = if caught e then Ok (VDict []) else Raise e)
       /\ (forall f keys,
             fs w path = Ok f -> cached w path (st_mtime f) = Some keys ->
             result = Ok keys)
       /\ (forall f,
             fs w path = Ok f -> cached w path (st_mtime f) = None ->
             (forall text keys,
                contents f = Ok text -> json_load text = inr keys ->
                result = Ok keys)
             /\ (forall text msg,
                   contents f = Ok text -> json_load text = inl msg ->
                   result = Ok (VDict []))
             /\ (forall e,
                   contents f = Raise e ->
                   result = if caught e then Ok (VDict []) else Raise e)).
Proof.
  split; [reflexivity|]. split; [reflexivity|].
  intros path Hne. cbv zeta. rewrite (get_api_keys_steps w path Hne).
  split; [ | split].
  - intros e ->. apply recover_result.
  - intros f keys -> ->. reflexivity.
  - intros f -> ->. split; [ | split].
    + intros text keys -> ->. reflexivity.
    + intros text msg -> ->. reflexivity.
    + intros e ->. apply recover_result.
Qed.

(** ** A file system that stays as it is *)

(** The cached entry is what the file it was read from still parses to:
    a file at the cached path with the cached modification time holds text
    that [json_load] maps to the cached value.  It holds of the empty
    cache, and as long as a change of the text changes the time. *)
Definition cache_coherent (w : world) : Prop :=
  match cache w with
  | None => True
  | Some (path, mtime, keys) =>
      forall f, fs w path = Ok f ->
                Qeq_bool mtime (st_mtime f) = true ->
                exists text, contents f = Ok text /\ json_load text = inr keys
  end.

(** A call leaves the cache coherent. *)
Lemma get_api_keys_coherent (w : world) (file : option string) :
  cache_coherent w -> cache_coherent (snd (_get_api_keys json_load w file)).
Proof.
  intros Hc.
  destruct file as [path|]; [|exact Hc].
  destruct (String.eqb_spec path "") as [->|Hne]; [exact Hc|].
  rewrite (get_api_keys_steps w path Hne).
  destruct (fs w path) as [f|e] eqn:Hf; [ | destruct e; exact Hc].
  destruct (cached w path (st_mtime f)); [exact Hc|].
  destruct (contents f) as [text|e] eqn:Ht; [ | destruct e; exact Hc].
  destruct (json_load text) as [msg|keys] eqn:Hj; [exact Hc|].
  unfold cache_coherent; simpl. intros f' Hf' _.
  rewrite Hf in Hf'. injection Hf' as <-. eauto.
Qed.

(** From a coherent cache a call returns what the file at the path parses
    to now. *)
Lemma get_api_keys_coherent_result (w : world) (path : string) (f : file)
  (text : string) :
  cache_coherent w -> path <> "" ->
  fs w path = Ok f -> contents f = Ok text ->
  fst (_get_api_keys json_load w (Some path))
  = Ok match json_load text with
       | inr keys => keys
       | inl _ => VDict []
       end.
Proof.
  intros Hc Hne Hf Ht. rewrite (get_api_keys_steps w path Hne), Hf, Ht.
  unfold cached. unfold cache_coherent in Hc.
  destruct (cache w) as [[[p m] keys]|].
  - destruct (String.eqb p path && Qeq_bool m (st_mtime f)) eqn:Hhit.
    + apply andb_true_iff in Hhit as [Hp Hm].
      apply String.eqb_eq in Hp. subst p.
      destruct (Hc f Hf Hm) as (text' & Ht' & Hj).
      rewrite Ht in Ht'. injection Ht' as <-. rewrite Hj. reflexivity.
    + destruct (json_load text); reflexivity.
  - destruct (json_load text); reflexivity.
Qed.

(** A process that has loaded nothing yet, and the state it is in after a
    series of calls of [_get_api_keys] on a file system that stays as it
    is. *)
Definition fresh (files : string -> result file) : world :=
  {| fs := files; cache := None; log := [] |}.

Definition after_calls (files : string -> result file)
  (earlier : list (option string)) : world :=
  fold_left (fun w file => snd (_get_api_keys json_load w file)) earlier
    (fresh files).

Lemma after_calls_invariant (files : string -> result file)
  (earlier : list (option string)) :
  fs (after_calls files earlier) = files
  /\ cache_coherent (after_calls files earlier).
Proof.
  unfold after_calls.
  assert (H : forall w, fs w = files -> cache_coherent w ->
    fs (fold_left (fun w file => snd (_get_api_keys json_load w file))
          earlier w) = files
    /\ cache_coherent
         (fold_left (fun w file => snd (_get_api_keys json_load w file))
            earlier w)).
  { induction earlier as [|file earlier IH]; intros w Hfs Hc; simpl.
    - now split.
    - apply IH.
      + now rewrite get_api_keys_fs.
      + now apply get_api_keys_coherent. }
  apply H; [reflexivity | exact I].
Qed.

(** As long as no file changes, every call returns what the file parses
    to now (the empty mapping when its text is not valid JSON), whatever
    calls came before: the cache never serves anything else. *)
Theorem get_api_keys_on_fixed_files (files : string -> result file)
  (earlier : list (option string)) (path : string) (f : file)
  (text : string) :
  path <> "" -> files path = Ok f -> contents f = Ok text ->
  fst (_get_api_keys json_load (after_calls files earlier) (Some path))
  = Ok match json_load text with
       | inr keys => keys
       | inl _ => VDict []
       end.
Proof.
  intros Hne Hf Ht.
  destruct (after_calls_invariant files earlier) as [Hfs Hc].
  apply (get_api_keys_coherent_result _ path f text Hc Hne);
    [rewrite Hfs; exact Hf | exact Ht].
Qed.

(** ** The check *)

Lemma differs_iff (credentials : string) (api_key : option string) :
  differs credentials api_key = true <-> api_key <> Some credentials.
Proof.
  unfold differs. destruct api_key as [k|].
  - rewrite negb_true_iff. destruct (String.eqb_spec credentials k).
    + subst. split; [discriminate | intros H; now contradiction H].
    + split; [intros _ H; injection H as ->; contradiction | reflexivity].
  - split; [discriminate | reflexivity].
Qed.

(** [api_keys.get(credential) is None]: the credential is no key of the
    mapping, or it is one whose value is [null]. *)
Lemma is_none_get (keys : dict) (credentials : string) :
  is_none (get_or keys credentials VNone) = true
  <-> ~ In credentials (map fst keys) \/ get keys credentials = Some VNone.
Proof.
  unfold get_or. pose proof (get_None_iff keys credentials) as Hin.
  destruct (get keys credentials) as [v|].
  - split.
    + intros H. right. destruct v; try discriminate H. reflexivity.
    + intros [H|H]; [apply Hin in H; discriminate H | ].
      injection H as ->. reflexivity.
  - split; [intros _; left; now apply Hin | reflexivity].
Qed.

(** What [verify_api_key] does once the keys are loaded. *)
Lemma verify_api_key_steps (w : world) (config : Config)
  (credentials : string) :
  verify_api_key json_load repr w config credentials
  = match _get_api_keys json_load w (api_keys_file config) with
    | (Raise e, w) => (Raise e, w)
    | (Ok (VDict keys), w) =>
        let client_name := get_or keys credentials VNone in
        if differs credentials (api_key config) && is_none client_name
        then (Raise (HTTPException 403 "Invalid API Key"), w)
        else
          (Ok tt,
           logger INFO
             (if truthy client_name
              then "Authorized request from client: '"
                   ++ fstring repr client_name ++ "'"
              else "Authorized request using the default API key") w)
    | (Ok _, w) => (Raise AttributeError, w)
    end.
Proof.
  unfold verify_api_key.
  destruct (_get_api_keys json_load w (api_keys_file config)) as [[v|e] w'];
    [ | reflexivity].
  destruct v as [| | | | | |keys]; try reflexivity. cbn [value_get]. cbv zeta.
  destruct (differs credentials (api_key config)
            && is_none (get_or keys credentials VNone)); [reflexivity|].
  destruct (truthy (get_or keys credentials VNone)); reflexivity.
Qed.

(** C4, as the code has it.  When [_get_api_keys] returns a JSON object,
    [verify_api_key] raises [HTTPException(403, "Invalid API Key")]
    exactly when the presented credential differs from [config.api_key]
    and [api_keys.get(credential)] is [None], which it is when the
    credential is no key of the object and also when it is a key with the
    value [null]; otherwise it returns [None].  When the key file holds
    JSON of another type the lookup raises [AttributeError], and an
    exception [_get_api_keys] lets through propagates. *)
Theorem verify_api_key_rejects_iff (w : world) (config : Config)
  (credentials : string) :
  let loaded := fst (_get_api_keys json_load w (api_keys_file config)) in
  let result := fst (verify_api_key json_load repr w config credentials) in
  (forall keys,
     loaded = Ok (VDict keys) ->
     let rejected :=
       api_key config <> Some credentials
       /\ (~ In credentials (map fst keys)
           \/ get keys credentials = Some VNone) in
     (result = Raise (HTTPException 403 "Invalid API Key") <-> rejected)
     /\ (~ rejected -> result = Ok tt))
  /\ (forall v,
        loaded = Ok v -> (forall keys, v <> VDict keys) ->
        result = Raise AttributeError)
  /\ (forall e, loaded = Raise e -> result = Raise e).
Proof.
  cbv zeta. rewrite verify_api_key_steps.
  destruct (_get_api_keys json_load w (api_keys_file config)) as [r w'].
  cbn [fst]. split; [ | split].
  - intros keys ->. cbv zeta.
    pose proof (differs_iff credentials (api_key config)) as Hd.
    pose proof (is_none_get keys credentials) as Hn.
    destruct (differs credentials (api_key config));
      destruct (is_none (get_or keys credentials VNone)); cbn [andb fst].
    + split; [split; [intros _ | reflexivity] | intros H; exfalso; apply H];
        (split; [now apply Hd | now apply Hn]).
    + split; [split; [discriminate | ] | reflexivity].
      intros [_ H]. apply Hn in H. discriminate H.
    + split; [split; [discriminate | ] | reflexivity].
      intros [H _]. apply Hd in H. discriminate H.
    + split; [split; [discriminate | ] | reflexivity].
      intros [H _]. apply Hd in H. discriminate H.
  - intros v -> Hv. destruct v as [| | | | | |keys]; try reflexivity.
    exfalso. apply (Hv keys). reflexivity.
  - intros e ->. reflexivity.
Qed.

End WithParser.

(** ** Worked examples *)

Definition double_quote : string := String (ascii_of_nat 34) "".

(** The text of a key file with one entry, secret-1 for alice. *)
Definition keys_json : string :=
  "{" ++ double_quote ++ "secret-1" ++ double_quote ++ ": "
      ++ double_quote ++ "alice" ++ double_quote ++ "}".

(** The text of a key file that lists a key without a client name. *)
Definition null_json : string :=
  "{" ++ double_quote ++ "secret-2" ++ double_quote ++ ": null}".

(** [json.load] on the texts the examples use: the two files above, the
    empty object, a list, and anything else read as malformed. *)
Definition sample_json_load (text : string) : string + value :=
  if String.eqb text keys_json then inr (VDict [("secret-1", VStr "alice")])
  else if String.eqb text null_json then inr (VDict [("secret-2", VNone)])
  else if String.eqb text "{}" then inr (VDict [])
  else if String.eqb text "[1, 2]" then inr (VList [VInt 1; VInt 2])
  else inl "Expecting value: line 1 column 1 (char 0)".

(** No client name of the examples needs [repr]. *)
Definition repr_unread (v : value) : string := "".

(** A file system with a well-formed key file, a malformed one, one that
    lists a key without a client name, one that holds a list and one whose
    bytes are not text, seen by a process that has not loaded anything
    yet. *)
Definition sample_world : world := {|
  fs := fun path =>
          if String.eqb path "keys.json"
          then Ok {| st_mtime := 1700000000 # 1; contents := Ok keys_json |}
          else if String.eqb path "broken.json"
          then Ok {| st_mtime := 1700000001 # 1; contents := Ok "{oops" |}
          else if String.eqb path "null.json"
          then Ok {| st_mtime := 1700000002 # 1; contents := Ok null_json |}
          else if String.eqb path "list.json"
          then Ok {| st_mtime := 1700000003 # 1; contents := Ok "[1, 2]" |}
          else if String.eqb path "binary.json"
          then Ok {| st_mtime := 1700000004 # 1;
                     contents := Raise UnicodeDecodeError |}
          else Raise FileNotFoundError;
  cache := None;
  log := []
|}.

Definition sample_config : Config := {|
  api_key := Some "default-key";
  api_keys_file := Some "keys.json"
|}.

(** A first call that fails, then the calls of the three kinds. *)
Example get_api_keys_examples :
  let w := after_calls sample_json_load (fs sample_world)
             [Some "broken.json"; Some "keys.json"] in
  fst (_get_api_keys sample_json_load w (Some "keys.json"))
    = Ok (VDict [("secret-1", VStr "alice")])
  /\ fst (_get_api_keys sample_json_load w (Some "broken.json"))
     = Ok (VDict [])
  /\ fst (_get_api_keys sample_json_load w (Some "missing.json"))
     = Ok (VDict [])
  /\ log w = [(ERROR, "Invalid JSON in API keys file: "
                        ++ "Expecting value: line 1 column 1 (char 0)")].
Proof. repeat split; reflexivity. Qed.

(** The second call is served from the cache. *)
Example second_call_hits_cache :
  let w := snd (_get_api_keys sample_json_load sample_world
                  (Some "keys.json")) in
  cache w = Some ("keys.json", 1700000000 # 1,
                  VDict [("secret-1", VStr "alice")])
  /\ fst (_get_api_keys sample_json_load w (Some "keys.json"))
     = Ok (VDict [("secret-1", VStr "alice")]).
Proof. split; reflexivity. Qed.

(** The process after it has loaded [keys.json]. *)
Definition sample_loaded : world :=
  snd (_get_api_keys sample_json_load sample_world (Some "keys.json")).

(** C5 fails as stated.  The cache is keyed by path and modification
    time: once the file has been loaded, a file rewritten within the same
    modification time is not read again, so the call returns neither what
    the file parses to nor, when its text is no longer valid JSON, the
    empty mapping.  And a file whose bytes do not decode is a failure that
    propagates. *)
Lemma stale_cache_is_served :
  sample_json_load "{oops" = inl "Expecting value: line 1 column 1 (char 0)"
  /\ fst (_get_api_keys sample_json_load
            (rewrite_file sample_loaded "keys.json"
               {| st_mtime := 1700000000 # 1; contents := Ok "{oops" |})
            (Some "keys.json"))
     = Ok (VDict [("secret-1", VStr "alice")])
  /\ sample_json_load "{}" = inr (VDict [])
  /\ fst (_get_api_keys sample_json_load
            (rewrite_file sample_loaded "keys.json"
               {| st_mtime := 1700000000 # 1; contents := Ok "{}" |})
            (Some "keys.json"))
     = Ok (VDict [("secret-1", VStr "alice")])
  /\ fst (_get_api_keys sample_json_load sample_world (Some "binary.json"))
     = Raise UnicodeDecodeError.
Proof. repeat split; reflexivity. Qed.

Example verify_api_key_examples :
  fst (verify_api_key sample_json_load repr_unread sample_world sample_config
         "default-key") = Ok tt
  /\ fst (verify_api_key sample_json_load repr_unread sample_world
            sample_config "secret-1") = Ok tt
  /\ fst (verify_api_key sample_json_load repr_unread sample_world
            sample_config "guess")
     = Raise (HTTPException 403 "Invalid API Key")
  /\ log (snd (verify_api_key sample_json_load repr_unread sample_world
                 sample_config "secret-1"))
     = [(INFO, "Authorized request from client: 'alice'")].
Proof. repeat split; reflexivity. Qed.

Definition null_config : Config := {|
  api_key := Some "default-key";
  api_keys_file := Some "null.json"
|}.

Definition list_config : Config := {|
  api_key := Some "default-key";
  api_keys_file := Some "list.json"
|}.

(** C4 fails as stated.  A credential that is a key of the loaded mapping
    is rejected all the same when the value under it is [null]; and when
    the key file holds a list, the call neither rejects with 403 nor
    returns, whatever the credential. *)
Lemma null_client_name_is_rejected :
  fst (_get_api_keys sample_json_load sample_world (Some "null.json"))
    = Ok (VDict [("secret-2", VNone)])
  /\ In "secret-2" (map fst [("secret-2", VNone)])
  /\ fst (verify_api_key sample_json_load repr_unread sample_world null_config
            "secret-2")
     = Raise (HTTPException 403 "Invalid API Key")
  /\ fst (verify_api_key sample_json_load repr_unread sample_world list_config
            "default-key") = Raise AttributeError
  /\ fst (verify_api_key sample_json_load repr_unread sample_world list_config
            "guess") = Raise AttributeError.
Proof. repeat split; try reflexivity. simpl. tauto. Qed.

End DependenciesProps.

(* ================================================================== *)
(** * Further properties of formatters.py *)
(* ================================================================== *)

Module FormattersMore.
Import Py Config Formatters PyProps FormattersProps.

(** ** What a loop reads of a segment *)

(** The three things a loop body takes from a segment it can process:
    the speaker, the stripped text and the timestamp of the start. *)
Definition speaker_of (segment : value) : value :=
  match segment with
  | VDict d => get_or d "speaker" (VStr "Unknown")
  | _ => VStr "Unknown"
  end.

Definition text_of (segment : value) : string :=
  match segment with
  | VDict d =>
      match get_or d "text" (VStr "") with
      | VStr s => strip s
      | _ => ""
      end
  | _ => ""
  end.

Definition timestamp_of (segment : value) : string :=
  match segment with
  | VDict d =>
      match format_timestamp_value (get_or d "start" (VInt 0)) with
      | Ok timestamp => timestamp
      | Raise _ => ""
      end
  | _ => ""
  end.

(** A segment on which no loop body raises: a dict whose text is a [str]
    and, when it is not blank and timestamps are asked for, whose start
    has a timestamp: it is a number, and neither NaN nor an infinity. *)
Definition well_formed (include_timestamps : value) (segment : value) : bool :=
  match segment with
  | VDict d =>
      match get_or d "text" (VStr "") with
      | VStr s =>
          String.eqb (strip s) ""
          || negb (truthy include_timestamps)
          || is_ok (format_timestamp_value (get_or d "start" (VInt 0)))
      | _ => false
      end
  | _ => false
  end.

Lemma well_formed_view (its : value) (segment : value) :
  well_formed its segment = true ->
  speaker_and_text segment = Ok (speaker_of segment, text_of segment)
  /\ is_blank segment = String.eqb (text_of segment) ""
  /\ (is_blank segment = false -> truthy its = true ->
      segment_timestamp segment = Ok (timestamp_of segment)).
Proof.
  destruct segment as [| | | | | |d]; try discriminate.
  unfold well_formed, speaker_and_text, is_blank, text_of, speaker_of,
    segment_timestamp, timestamp_of, format_timestamp_value, value_get.
  cbn [bind].
  destruct (get_or d "text" (VStr "")) as [| | | |s| |]; try discriminate.
  cbn [value_strip bind]. intros Hwf.
  split; [reflexivity|]. split; [reflexivity|].
  intros Hblank Hits. rewrite Hblank, Hits in Hwf. simpl in Hwf.
  destruct (as_number (get_or d "start" (VInt 0))) as [n|];
    [ | discriminate].
  destruct (_format_timestamp n); [reflexivity | discriminate].
Qed.

Lemma blank_well_formed (its : value) (segment : value) :
  is_blank segment = true -> well_formed its segment = true.
Proof.
  destruct segment as [| | | | | |d]; try discriminate.
  unfold is_blank, well_formed.
  destruct (get_or d "text" (VStr "")); try discriminate.
  now intros ->.
Qed.

(** ** Loops that only append *)

Lemma for_each_appends {A : Type}
  (body : list string -> A -> result (list string))
  (render : A -> list string) (items : list A) :
  (forall x lines, In x items -> body lines x = Ok (lines ++ render x)%list) ->
  forall lines,
    for_each body items lines = Ok (lines ++ flat_map render items)%list.
Proof.
  induction items as [|x items IH]; intros Hbody lines; simpl.
  - now rewrite app_nil_r.
  - rewrite (Hbody x lines (or_introl eq_refl)).
    rewrite IH by (intros; apply Hbody; now right).
    now rewrite <- app_assoc.
Qed.

Lemma flat_map_non_blank (line : value -> string) (segments : list value) :
  flat_map (fun segment => if is_blank segment then [] else [line segment])
    segments
  = map line (non_blank segments).
Proof.
  unfold non_blank. induction segments as [|x segments IH]; simpl.
  - reflexivity.
  - destruct (is_blank x); simpl; now rewrite IH.
Qed.

Lemma forallb_In {A : Type} (p : A -> bool) (l : list A) (x : A) :
  forallb p l = true -> In x l -> p x = true.
Proof. intros H Hin. rewrite forallb_forall in H. now apply H. Qed.

(** ** Stripping *)

Lemma rstrip_app_space (s : string) (c : ascii) :
  isspace c = true -> rstrip (s ++ String c "") = rstrip s.
Proof.
  intros Hc. induction s as [|a s IH]; simpl.
  - now rewrite Hc.
  - now rewrite IH.
Qed.

Lemma lstrip_app_space (s : string) (c : ascii) :
  isspace c = true ->
  lstrip (s ++ String c "")
  = if String.eqb (lstrip s) "" then "" else lstrip s ++ String c "".
Proof.
  intros Hc. induction s as [|a s IH]; simpl.
  - now rewrite Hc.
  - destruct (isspace a); [exact IH | reflexivity].
Qed.

(** A trailing white-space character does not survive [strip]. *)
Lemma strip_app_space (s : string) (c : ascii) :
  isspace c = true -> strip (s ++ String c "") = strip s.
Proof.
  intros Hc. unfold strip. rewrite (lstrip_app_space s c Hc).
  destruct (String.eqb_spec (lstrip s) "") as [->|_]; [reflexivity|].
  now apply rstrip_app_space.
Qed.

Lemma append_assoc (a b c : string) : (a ++ b) ++ c = a ++ b ++ c.
Proof. induction a as [|x a IH]; simpl; [reflexivity | now rewrite IH]. Qed.

Lemma append_nil_r (a : string) : a ++ "" = a.
Proof. induction a as [|x a IH]; simpl; [reflexivity | now rewrite IH]. Qed.

Lemma concat_app_one (sep : string) (lines : list string) (x : string) :
  lines <> [] ->
  String.concat sep (lines ++ [x])%list = String.concat sep lines ++ sep ++ x.
Proof.
  induction lines as [|a lines IH]; [contradiction|]. intros _.
  destruct lines as [|b lines].
  - reflexivity.
  - change (String.concat sep ((a :: b :: lines) ++ [x])%list)
      with (a ++ sep ++ String.concat sep ((b :: lines) ++ [x])%list).
    rewrite IH by discriminate.
    change (String.concat sep (a :: b :: lines))
      with (a ++ sep ++ String.concat sep (b :: lines)).
    now rewrite !append_assoc.
Qed.


(** Lines that each come with a spacer line after them, joined: the lines
    joined by newline, spacer, newline, all but the last spacer. *)
Lemma spaced_lines (f : value -> string) (spacer : string)
  (items : list value) :
  items <> [] ->
  exists body,
    flat_map (fun x => [f x; spacer]) items = (body ++ [spacer])%list
    /\ body <> []
    /\ join newline body
       = join (newline ++ spacer ++ newline) (map f items).
Proof.
  induction items as [|x items IH]; [contradiction|]. intros _.
  destruct items as [|y items].
  - exists [f x]. repeat split. discriminate.
  - destruct IH as (body & Hbody & Hne & Hjoin); [discriminate|].
    exists (f x :: spacer :: body). split; [|split; [discriminate|]].
    + change (flat_map (fun x => [f x; spacer]) (x :: y :: items))
        with (f x :: spacer :: flat_map (fun x => [f x; spacer]) (y :: items)).
      now rewrite Hbody.
    + destruct body as [|b body]; [contradiction|].
      change (join newline (f x :: spacer :: b :: body))
        with (f x ++ newline ++ spacer ++ newline ++ join newline (b :: body)).
      rewrite Hjoin.
      change (join (newline ++ spacer ++ newline) (map f (x :: y :: items)))
        with (f x ++ (newline ++ spacer ++ newline)
                ++ join (newline ++ spacer ++ newline) (map f (y :: items))).
      now rewrite !append_assoc.
Qed.

Lemma flat_map_non_blank_pair (f : value -> string) (spacer : string)
  (segments : list value) :
  flat_map (fun segment =>
              if is_blank segment then [] else [f segment; spacer]) segments
  = flat_map (fun segment => [f segment; spacer]) (non_blank segments).
Proof.
  unfold non_blank. induction segments as [|x segments IH]; simpl.
  - reflexivity.
  - destruct (is_blank x); simpl; now rewrite IH.
Qed.

Lemma drop_trailing_quote_last (body : list string) :
  drop_trailing_quote (body ++ [">"])%list = body.
Proof.
  unfold drop_trailing_quote. rewrite rev_app_distr. simpl.
  apply removelast_last.
Qed.

(** ** The paragraph, list and quote layouts in closed form *)

Section Layouts.
Variable repr : value -> string.

(** The line each layout writes for a segment. *)
Definition basic_line (its : value) (segment : value) : string :=
  if truthy its then
    fmt repr (speaker_of segment) ++ " [" ++ timestamp_of segment ++ "]: "
      ++ text_of segment
  else fmt repr (speaker_of segment) ++ ": " ++ text_of segment.

Definition list_line (its : value) (segment : value) : string :=
  if truthy its then
    "- **" ++ fmt repr (speaker_of segment) ++ "** ["
      ++ timestamp_of segment ++ "]: " ++ text_of segment
  else "- **" ++ fmt repr (speaker_of segment) ++ "**: " ++ text_of segment.

Definition quote_line (its : value) (segment : value) : string :=
  if truthy its then
    "> **" ++ fmt repr (speaker_of segment) ++ "** ["
      ++ timestamp_of segment ++ "]: " ++ text_of segment
  else "> **" ++ fmt repr (speaker_of segment) ++ "**: " ++ text_of segment.

Ltac body_appends Hwf :=
  apply well_formed_view in Hwf as (Hst & Hb & Hts);
  cbv beta delta [md_basic_body md_list_body md_quote_body
                  basic_line list_line quote_line];
  rewrite Hst; cbn [bind]; cbv beta iota; rewrite <- Hb;
  destruct (is_blank _) eqn:Hblank;
    [now rewrite app_nil_r|];
  destruct (truthy _) eqn:Hits;
    [rewrite (Hts eq_refl eq_refl); cbn [bind]|];
    unfold append; rewrite <- ?app_assoc; reflexivity.

Lemma md_basic_body_appends (its : value) (lines : list string)
  (segment : value) :
  well_formed its segment = true ->
  md_basic_body repr its lines segment
  = Ok (lines ++ (if is_blank segment then []
                  else [basic_line its segment; ""]))%list.
Proof. intros Hwf. body_appends Hwf. Qed.

Lemma md_list_body_appends (its : value) (lines : list string)
  (segment : value) :
  well_formed its segment = true ->
  md_list_body repr its lines segment
  = Ok (lines ++ (if is_blank segment then []
                  else [list_line its segment]))%list.
Proof. intros Hwf. body_appends Hwf. Qed.

Lemma md_quote_body_appends (its : value) (lines : list string)
  (segment : value) :
  well_formed its segment = true ->
  md_quote_body repr its lines segment
  = Ok (lines ++ (if is_blank segment then []
                  else [quote_line its segment; ">"]))%list.
Proof. intros Hwf. body_appends Hwf. Qed.

(** On well-formed segments [format_md_list] returns one line per
    non-blank segment, in order, joined by newlines. *)
Theorem format_md_list_lines (transcript : dict) (segments : list value)
  (include_timestamps : value) :
  _get_segments transcript = VList segments ->
  forallb (well_formed include_timestamps) segments = true ->
  format_md_list repr transcript include_timestamps
  = Ok (join newline
          (map (list_line include_timestamps) (non_blank segments))).
Proof.
  intros Hseg Hwf. unfold format_md_list. rewrite Hseg. cbn [iter bind].
  rewrite (for_each_appends _
             (fun s => if is_blank s then []
                       else [list_line include_timestamps s])).
  - cbn [bind app]. now rewrite flat_map_non_blank.
  - intros x lines Hin. apply md_list_body_appends.
    now apply (forallb_In _ segments).
Qed.

(** On well-formed segments [format_md_basic] returns the lines of the
    non-blank segments separated by one empty line, stripped as a
    whole. *)
Theorem format_md_basic_paragraphs (transcript : dict)
  (segments : list value) (include_timestamps : value) :
  _get_segments transcript = VList segments ->
  forallb (well_formed include_timestamps) segments = true ->
  format_md_basic repr transcript include_timestamps
  = Ok (strip (join (newline ++ newline)
                 (map (basic_line include_timestamps)
                    (non_blank segments)))).
Proof.
  intros Hseg Hwf. unfold format_md_basic. rewrite Hseg. cbn [iter bind].
  rewrite (for_each_appends _
             (fun s => if is_blank s then []
                       else [basic_line include_timestamps s; ""])).
  - cbn [bind app]. rewrite flat_map_non_blank_pair.
    destruct (non_blank segments) as [|x rest] eqn:Hnb; [reflexivity|].
    destruct (spaced_lines (basic_line include_timestamps) "" (x :: rest))
      as (body & Hbody & Hne & Hjoin); [discriminate|].
    rewrite Hbody. unfold join at 1. rewrite (concat_app_one _ _ _ Hne).
    rewrite append_nil_r.
    change (String.concat newline body ++ newline)
      with (join newline body ++ String (ascii_of_nat 10) "").
    rewrite strip_app_space by reflexivity.
    now rewrite Hjoin.
  - intros x lines Hin. apply md_basic_body_appends.
    now apply (forallb_In _ segments).
Qed.

(** On well-formed segments [format_md_quote] returns the quoted lines of
    the non-blank segments with one [>] line between two of them, and none
    after the last. *)
Theorem format_md_quote_spaced (transcript : dict) (segments : list value)
  (include_timestamps : value) :
  _get_segments transcript = VList segments ->
  forallb (well_formed include_timestamps) segments = true ->
  format_md_quote repr transcript include_timestamps
  = Ok (join (newline ++ ">" ++ newline)
          (map (quote_line include_timestamps) (non_blank segments))).
Proof.
  intros Hseg Hwf. unfold format_md_quote. rewrite Hseg. cbn [iter bind].
  rewrite (for_each_appends _
             (fun s => if is_blank s then []
                       else [quote_line include_timestamps s; ">"])).
  - cbn [bind app]. rewrite flat_map_non_blank_pair.
    destruct (non_blank segments) as [|x rest] eqn:Hnb; [reflexivity|].
    destruct (spaced_lines (quote_line include_timestamps) ">" (x :: rest))
      as (body & Hbody & Hne & Hjoin); [discriminate|].
    rewrite Hbody, drop_trailing_quote_last. now rewrite Hjoin.
  - intros x lines Hin. apply md_quote_body_appends.
    now apply (forallb_In _ segments).
Qed.

End Layouts.


(** ** The table layouts and the speaker columns *)

(** No two of the speakers are equal: a later one is never [==] an
    earlier one. *)
Fixpoint distinct (speakers : list value) : bool :=
  match speakers with
  | [] => true
  | x :: rest => negb (existsb (fun y => eq y x) rest) && distinct rest
  end.

Lemma existsb_app_one {A : Type} (p : A -> bool) (l : list A) (x : A) :
  existsb p (l ++ [x]) = existsb p l || p x.
Proof. rewrite existsb_app. simpl. now rewrite orb_false_r. Qed.

Lemma distinct_app_one (keys : list value) (speaker : value) :
  distinct keys = true -> existsb (eq speaker) keys = false ->
  distinct (keys ++ [speaker]) = true.
Proof.
  induction keys as [|k keys IH]; simpl; intros Hd Hnew.
  - reflexivity.
  - apply andb_true_iff in Hd as [Hk Hd].
    apply orb_false_iff in Hnew as [Hsk Hnew].
    rewrite existsb_app_one, Hsk, orb_false_r, Hk. simpl.
    now apply IH.
Qed.

(** A segment whose speaker can be a dictionary key, and is found again
    under it: the speaker is hashable and equal to itself, as every
    hashable value is but NaN. *)
Definition speaker_hashable (segment : value) : bool :=
  is_blank segment
  || (hashable (speaker_of segment)
      && eq (speaker_of segment) (speaker_of segment)).

(** The text of a segment is a [str]. *)
Definition text_is_str (segment : value) : bool :=
  well_formed (VBool false) segment.

Lemma speakers_body_step (keys : list value) (segment : value) :
  text_is_str segment = true -> speaker_hashable segment = true ->
  speakers_body keys segment
  = Ok (if is_blank segment || existsb (eq (speaker_of segment)) keys
        then keys else (keys ++ [speaker_of segment])%list).
Proof.
  destruct segment as [| | | | | |d]; try discriminate.
  unfold text_is_str, well_formed, speaker_hashable, is_blank, speakers_body,
    speaker_of, value_get.
  cbn [bind].
  destruct (get_or d "text" (VStr "")) as [| | | |s| |]; try discriminate.
  cbn [value_strip bind]. intros _ Hh.
  destruct (String.eqb (strip s) ""); [reflexivity|].
  simpl in Hh. apply andb_true_iff in Hh as [Hh _]. rewrite Hh. reflexivity.
Qed.

Lemma detect_speakers_invariant (segments : list value) :
  forallb text_is_str segments = true ->
  forallb speaker_hashable segments = true ->
  forall keys0,
  exists keys,
    for_each speakers_body segments keys0 = Ok keys
    /\ (forall s, In s keys0 -> In s keys)
    /\ (forall s, In s keys ->
          In s keys0
          \/ exists segment, In segment (non_blank segments)
                             /\ speaker_of segment = s)
    /\ (forall segment, In segment (non_blank segments) ->
          existsb (eq (speaker_of segment)) keys = true)
    /\ (distinct keys0 = true -> distinct keys = true).
Proof.
  induction segments as [|x segments IH]; intros Htext Hhash keys0.
  - exists keys0. simpl. repeat split; auto.
  - simpl in Htext, Hhash.
    apply andb_true_iff in Htext as [Hx Htext].
    apply andb_true_iff in Hhash as [Hhx Hhash].
    cbn [for_each]. rewrite (speakers_body_step keys0 x Hx Hhx).
    set (keys1 := if is_blank x || existsb (eq (speaker_of x)) keys0
                  then keys0 else (keys0 ++ [speaker_of x])%list).
    destruct (IH Htext Hhash keys1) as (keys & Hrun & Hkeep & Hfrom & Hall & Hd).
    assert (Hgrow : forall s, In s keys0 -> In s keys1).
    { intros s Hs. unfold keys1.
      destruct (is_blank x || existsb (eq (speaker_of x)) keys0);
        [exact Hs | apply in_or_app; now left]. }
    exists keys. split; [exact Hrun|]. unfold non_blank in *. cbn [filter].
    split; [auto|]. split; [|split].
    + intros s Hs. destruct (Hfrom s Hs) as [H1|(segment & Hin & Heq)].
      * unfold keys1 in H1.
        destruct (is_blank x) eqn:Hb; simpl in *; [now left|].
        destruct (existsb (eq (speaker_of x)) keys0); [now left|].
        apply in_app_or in H1 as [H1|[H1|[]]]; [now left|].
        right. exists x. split; [now left | exact H1].
      * right. exists segment. split; [|exact Heq].
        destruct (is_blank x); simpl; [exact Hin | now right].
    + intros segment Hin.
      destruct (is_blank x) eqn:Hb; simpl in Hin; [now apply Hall|].
      destruct Hin as [Heq|Hin]; [subst segment|now apply Hall].
      assert (H1 : existsb (eq (speaker_of x)) keys1 = true).
      { unfold keys1. simpl.
        destruct (existsb (eq (speaker_of x)) keys0) eqn:He; [exact He|].
        rewrite existsb_app_one, He. simpl.
        unfold speaker_hashable in Hhx. rewrite Hb in Hhx.
        simpl in Hhx. now apply andb_true_iff in Hhx as [_ Hhx]. }
      apply existsb_exists in H1 as (k & Hk & Hek).
      apply existsb_exists. exists k. split; [now apply Hkeep | exact Hek].
    + intros Hd0. apply Hd. unfold keys1.
      destruct (is_blank x); simpl; [exact Hd0|].
      destruct (existsb (eq (speaker_of x)) keys0) eqn:He; [exact Hd0|].
      now apply distinct_app_one.
Qed.

(** On segments whose texts are [str] and whose speakers are hashable,
    [detect_speakers] returns: no speaker twice, nothing but speakers of
    non-blank segments, and for every non-blank segment a speaker equal to
    its own. *)
Theorem detect_speakers_columns (segments : list value) :
  forallb text_is_str segments = true ->
  forallb speaker_hashable segments = true ->
  exists speakers,
    detect_speakers (VList segments) = Ok speakers
    /\ distinct speakers = true
    /\ (forall s, In s speakers ->
          exists segment, In segment (non_blank segments)
                          /\ speaker_of segment = s)
    /\ (forall segment, In segment (non_blank segments) ->
          existsb (eq (speaker_of segment)) speakers = true).
Proof.
  intros Htext Hhash.
  destruct (detect_speakers_invariant segments Htext Hhash [])
    as (keys & Hrun & _ & Hfrom & Hall & Hd).
  exists keys. split; [exact Hrun|]. split; [now apply Hd|].
  split; [|exact Hall].
  intros s Hs. destruct (Hfrom s Hs) as [[]|H]. exact H.
Qed.

Section Tables.
Variable repr : value -> string.

(** The text cell and the rows of the two tables. *)
Definition two_speaker_row (its : value) (speaker0 : value)
  (segment : value) : string :=
  let text := replace (text_of segment) "|" "\|" in
  let text :=
    if truthy its then "[" ++ timestamp_of segment ++ "] " ++ text
    else text in
  let '(col1, col2) :=
    if eq (speaker_of segment) speaker0 then (text, "") else ("", text) in
  "| " ++ col1 ++ " | " ++ col2 ++ " |".

Definition multi_speaker_row (its : value) (segment : value) : string :=
  let text := replace (text_of segment) "|" "\|" in
  if truthy its then
    "| " ++ timestamp_of segment ++ " | " ++ fmt repr (speaker_of segment)
      ++ " | " ++ text ++ " |"
  else "| " ++ fmt repr (speaker_of segment) ++ " | " ++ text ++ " |".

(** The lines of the table for the detected speakers: two columns, one per
    speaker, when there are exactly two of them, and one row per message
    with the speaker in a column otherwise. *)
Definition table_lines (its : value) (speakers : list value)
  (messages : list value) : list string :=
  match speakers with
  | [speaker0; speaker1] =>
      ("| " ++ fmt repr speaker0 ++ " | " ++ fmt repr speaker1 ++ " |")
      :: "| --- | --- |"
      :: map (two_speaker_row its speaker0) messages
  | _ =>
      if truthy its then
        "| Time | Speaker | Message |" :: "| --- | --- | --- |"
        :: map (multi_speaker_row its) messages
      else
        "| Speaker | Message |" :: "| --- | --- |"
        :: map (multi_speaker_row its) messages
  end.

Lemma two_speaker_body_appends (its : value) (speaker0 : value)
  (rest : list value) (lines : list string) (segment : value) :
  well_formed its segment = true ->
  two_speaker_body (speaker0 :: rest) its lines segment
  = Ok (lines ++ (if is_blank segment then []
                  else [two_speaker_row its speaker0 segment]))%list.
Proof.
  intros Hwf. apply well_formed_view in Hwf as (Hst & Hb & Hts).
  unfold two_speaker_body, two_speaker_row.
  rewrite Hst. cbn [bind]. cbv beta iota zeta. rewrite <- Hb.
  destruct (is_blank segment) eqn:Hblank; [now rewrite app_nil_r|].
  destruct (truthy its) eqn:Hits;
    [rewrite (Hts eq_refl eq_refl)|];
    cbn [bind index nth_error];
    destruct (eq (speaker_of segment) speaker0); reflexivity.
Qed.

Lemma multi_speaker_body_appends (its : value) (lines : list string)
  (segment : value) :
  well_formed its segment = true ->
  multi_speaker_body repr its lines segment
  = Ok (lines ++ (if is_blank segment then []
                  else [multi_speaker_row its segment]))%list.
Proof.
  intros Hwf. apply well_formed_view in Hwf as (Hst & Hb & Hts).
  unfold multi_speaker_body, multi_speaker_row.
  rewrite Hst. cbn [bind]. cbv beta iota zeta. rewrite <- Hb.
  destruct (is_blank segment) eqn:Hblank; [now rewrite app_nil_r|].
  destruct (truthy its) eqn:Hits;
    [rewrite (Hts eq_refl eq_refl)|]; reflexivity.
Qed.

(** On well-formed segments [format_md_table] returns a header, a rule and
    one row per non-blank segment: the two-column layout exactly when two
    speakers were detected, the speaker-per-row layout otherwise. *)
Theorem format_md_table_rows (transcript : dict) (segments : list value)
  (include_timestamps : value) (speakers : list value) :
  _get_segments transcript = VList segments ->
  forallb (well_formed include_timestamps) segments = true ->
  detect_speakers (VList segments) = Ok speakers ->
  format_md_table repr transcript include_timestamps
  = Ok (join newline
          (table_lines include_timestamps speakers (non_blank segments))).
Proof.
  intros Hseg Hwf Hdetect. unfold format_md_table.
  rewrite Hseg, Hdetect. cbn [bind].
  assert (Hmulti :
    _format_multi_speaker_table repr (VList segments) include_timestamps
    = Ok (join newline
            (if truthy include_timestamps then
               "| Time | Speaker | Message |" :: "| --- | --- | --- |"
               :: map (multi_speaker_row include_timestamps)
                    (non_blank segments)
             else
               "| Speaker | Message |" :: "| --- | --- |"
               :: map (multi_speaker_row include_timestamps)
                    (non_blank segments)))).
  { unfold _format_multi_speaker_table. cbn [iter bind].
    rewrite (for_each_appends _
               (fun s => if is_blank s then []
                         else [multi_speaker_row include_timestamps s])).
    - cbn [bind]. rewrite flat_map_non_blank.
      destruct (truthy include_timestamps); reflexivity.
    - intros x lines Hin. apply multi_speaker_body_appends.
      now apply (forallb_In _ segments). }
  destruct speakers as [|a [|b [|c rest]]]; try exact Hmulti.
  cbn [List.length Nat.eqb]. unfold _format_two_speaker_table, table_lines.
  cbn [index nth_error bind iter].
  rewrite (for_each_appends _
             (fun s => if is_blank s then []
                       else [two_speaker_row include_timestamps a s])).
  - cbn [bind]. now rewrite flat_map_non_blank.
  - intros x lines Hin. apply two_speaker_body_appends.
    now apply (forallb_In _ segments).
Qed.

End Tables.


(** ** Segments with missing fields *)

Section Rendering.
Variable repr : value -> string.

(** C6.  On segments the loops can process, each of the four markdown
    formatters returns the lines of the non-blank segments in its layout;
    the line of a segment shows its speaker, its stripped text and, with
    timestamps on, the timestamp of its start.  A segment without a
    ["text"] key is none of the non-blank segments: it has no line.  The
    line of a segment without a ["speaker"] key shows the speaker
    [Unknown], and in the two-column table its text goes to the column of
    the speaker [Unknown].  With timestamps on, the line of a segment
    without a ["start"] key shows the timestamp [00:00]. *)
Theorem missing_fields_render_defaults (transcript : dict)
  (segments : list value) (its : value) :
  _get_segments transcript = VList segments ->
  forallb (well_formed its) segments = true ->
  let messages := non_blank segments in
  (format_md_basic repr transcript its
     = Ok (strip (join (newline ++ newline)
                    (map (basic_line repr its) messages)))
   /\ format_md_list repr transcript its
      = Ok (join newline (map (list_line repr its) messages))
   /\ format_md_quote repr transcript its
      = Ok (join (newline ++ ">" ++ newline)
              (map (quote_line repr its) messages))
   /\ (forall speakers,
         detect_speakers (VList segments) = Ok speakers ->
         format_md_table repr transcript its
         = Ok (join newline (table_lines repr its speakers messages))))
  /\ (forall d, get d "text" = None -> ~ In (VDict d) messages)
  /\ (forall d,
        get d "speaker" = None ->
        let segment := VDict d in
        let timestamp := timestamp_of segment in
        let text := text_of segment in
        let cell :=
          if truthy its
          then "[" ++ timestamp ++ "] " ++ replace text "|" "\|"
          else replace text "|" "\|" in
        speaker_of segment = VStr "Unknown"
        /\ basic_line repr its segment
           = (if truthy its
              then "Unknown [" ++ timestamp ++ "]: " ++ text
              else "Unknown: " ++ text)
        /\ list_line repr its segment
           = (if truthy its
              then "- **Unknown** [" ++ timestamp ++ "]: " ++ text
              else "- **Unknown**: " ++ text)
        /\ quote_line repr its segment
           = (if truthy its
              then "> **Unknown** [" ++ timestamp ++ "]: " ++ text
              else "> **Unknown**: " ++ text)
        /\ multi_speaker_row repr its segment
           = (if truthy its
              then "| " ++ timestamp ++ " | Unknown | "
                     ++ replace text "|" "\|" ++ " |"
              else "| Unknown | " ++ replace text "|" "\|" ++ " |")
        /\ (forall speaker0,
              two_speaker_row its speaker0 segment
              = if eq (VStr "Unknown") speaker0
                then "| " ++ cell ++ " |  |"
                else "|  | " ++ cell ++ " |"))
  /\ (forall d,
        get d "start" = None -> truthy its = true ->
        let segment := VDict d in
        let speaker := fmt repr (speaker_of segment) in
        let text := text_of segment in
        timestamp_of segment = "00:00"
        /\ basic_line repr its segment = speaker ++ " [00:00]: " ++ text
        /\ list_line repr its segment
           = "- **" ++ speaker ++ "** [00:00]: " ++ text
        /\ quote_line repr its segment
           = "> **" ++ speaker ++ "** [00:00]: " ++ text
        /\ multi_speaker_row repr its segment
           = "| 00:00 | " ++ speaker ++ " | " ++ replace text "|" "\|" ++ " |"
        /\ (forall speaker0,
              two_speaker_row its speaker0 segment
              = if eq (speaker_of segment) speaker0
                then "| [00:00] " ++ replace text "|" "\|" ++ " |  |"
                else "|  | [00:00] " ++ replace text "|" "\|" ++ " |")).
Proof.
  intros Hseg Hwf. cbv zeta.
  assert (Hall : forall x, In x segments -> well_formed its x = true)
    by (intros x; apply forallb_In, Hwf).
  split; [split; [ | split; [ | split]] | split; [ | split]].
  - unfold format_md_basic. rewrite Hseg. cbn [iter bind].
    rewrite (for_each_appends _
               (fun s => if is_blank s then []
                         else [basic_line repr its s; ""]))
      by (intros; apply md_basic_body_appends; auto).
    cbn [bind app]. rewrite flat_map_non_blank_pair.
    destruct (non_blank segments) as [|x rest]; [reflexivity|].
    destruct (spaced_lines (basic_line repr its) "" (x :: rest))
      as (body & Hbody & Hne & Hjoin); [discriminate|].
    rewrite Hbody. unfold join at 1. rewrite (concat_app_one _ _ _ Hne).
    rewrite append_nil_r.
    change (String.concat newline body ++ newline)
      with (join newline body ++ String (ascii_of_nat 10) "").
    rewrite strip_app_space by reflexivity.
    now rewrite Hjoin.
  - unfold format_md_list. rewrite Hseg. cbn [iter bind].
    rewrite (for_each_appends _
               (fun s => if is_blank s then [] else [list_line repr its s]))
      by (intros; apply md_list_body_appends; auto).
    cbn [bind app]. now rewrite flat_map_non_blank.
  - unfold format_md_quote. rewrite Hseg. cbn [iter bind].
    rewrite (for_each_appends _
               (fun s => if is_blank s then []
                         else [quote_line repr its s; ">"]))
      by (intros; apply md_quote_body_appends; auto).
    cbn [bind app]. rewrite flat_map_non_blank_pair.
    destruct (non_blank segments) as [|x rest]; [reflexivity|].
    destruct (spaced_lines (quote_line repr its) ">" (x :: rest))
      as (body & Hbody & Hne & Hjoin); [discriminate|].
    rewrite Hbody, drop_trailing_quote_last. now rewrite Hjoin.
  - intros speakers Hdetect. unfold format_md_table.
    rewrite Hseg, Hdetect. cbn [bind].
    assert (Hmulti :
      _format_multi_speaker_table repr (VList segments) its
      = Ok (join newline
              (if truthy its then
                 "| Time | Speaker | Message |" :: "| --- | --- | --- |"
                 :: map (multi_speaker_row repr its) (non_blank segments)
               else
                 "| Speaker | Message |" :: "| --- | --- |"
                 :: map (multi_speaker_row repr its) (non_blank segments)))).
    { unfold _format_multi_speaker_table. cbn [iter bind].
      rewrite (for_each_appends _
                 (fun s => if is_blank s then []
                           else [multi_speaker_row repr its s]))
        by (intros; apply multi_speaker_body_appends; auto).
      cbn [bind]. rewrite flat_map_non_blank.
      destruct (truthy its); reflexivity. }
    destruct speakers as [|a [|b [|c rest]]]; try exact Hmulti.
    cbn [List.length Nat.eqb]. unfold _format_two_speaker_table, table_lines.
    cbn [index nth_error bind iter].
    rewrite (for_each_appends _
               (fun s => if is_blank s then []
                         else [two_speaker_row its a s]))
      by (intros; apply two_speaker_body_appends; auto).
    cbn [bind]. now rewrite flat_map_non_blank.
  - intros d Hd Hin. unfold non_blank in Hin.
    apply filter_In in Hin as [_ Hin].
    rewrite (missing_text_blank d Hd) in Hin. discriminate Hin.
  - intros d Hd. cbv zeta.
    assert (Hs : speaker_of (VDict d) = VStr "Unknown").
    { unfold speaker_of, get_or. rewrite Hd. reflexivity. }
    unfold basic_line, list_line, quote_line, multi_speaker_row,
      two_speaker_row.
    rewrite Hs. cbn [fmt].
    split; [reflexivity | ].
    repeat split; try (destruct (truthy its); reflexivity).
    intros speaker0.
    destruct (truthy its); destruct (eq (VStr "Unknown") speaker0);
      reflexivity.
  - intros d Hd Hits. cbv zeta.
    assert (Ht : timestamp_of (VDict d) = "00:00").
    { unfold timestamp_of, get_or. rewrite Hd. reflexivity. }
    unfold basic_line, list_line, quote_line, multi_speaker_row,
      two_speaker_row.
    rewrite Ht, Hits.
    repeat split.
    intros speaker0. destruct (eq (speaker_of (VDict d)) speaker0);
      reflexivity.
Qed.

End Rendering.


(** ** Edge cases of the markdown formatters *)

Lemma for_each_all_skipped {S A : Type} (body : S -> A -> result S)
  (items : list A) :
  (forall x state, In x items -> body state x = Ok state) ->
  forall state, for_each body items state = Ok state.
Proof.
  induction items as [|x items IH]; intros Hskip state; simpl.
  - reflexivity.
  - rewrite (Hskip x state (or_introl eq_refl)).
    apply IH. intros; apply Hskip; now right.
Qed.

Lemma for_each_ext {S A : Type} (body body' : S -> A -> result S) :
  (forall state x, body state x = body' state x) ->
  forall items state, for_each body items state = for_each body' items state.
Proof.
  intros Hext items. induction items as [|x items IH]; intros state; simpl.
  - reflexivity.
  - rewrite Hext. destruct (body' state x); [apply IH | reflexivity].
Qed.

Section Edges.
Variable repr : value -> string.

(** With no segment to show (no ["segments"] key, an empty list, or blank
    segments only) the paragraph, list and quote layouts return the empty
    string, and the table layout the header and rule of the
    speaker-per-row table. *)
Theorem nothing_to_format (transcript : dict) (segments : list value)
  (include_timestamps : value) :
  _get_segments transcript = VList segments ->
  forallb is_blank segments = true ->
  format_md_basic repr transcript include_timestamps = Ok ""
  /\ format_md_list repr transcript include_timestamps = Ok ""
  /\ format_md_quote repr transcript include_timestamps = Ok ""
  /\ format_md_table repr transcript include_timestamps
     = Ok (if truthy include_timestamps
           then "| Time | Speaker | Message |" ++ newline
                  ++ "| --- | --- | --- |"
           else "| Speaker | Message |" ++ newline ++ "| --- | --- |").
Proof.
  intros Hseg Hblank.
  assert (Hb : forall x, In x segments -> is_blank x = true)
    by (intros x; now apply forallb_In).
  unfold format_md_basic, format_md_list, format_md_quote, format_md_table,
    detect_speakers, _format_multi_speaker_table.
  rewrite Hseg. cbn [iter bind].
  rewrite (for_each_all_skipped (md_basic_body repr include_timestamps))
    by (intros; apply md_basic_body_blank; auto).
  rewrite (for_each_all_skipped (md_list_body repr include_timestamps))
    by (intros; apply md_list_body_blank; auto).
  rewrite (for_each_all_skipped (md_quote_body repr include_timestamps))
    by (intros; apply md_quote_body_blank; auto).
  rewrite (for_each_all_skipped speakers_body)
    by (intros; apply speakers_body_blank; auto).
  cbn [bind List.length Nat.eqb iter].
  rewrite (for_each_all_skipped (multi_speaker_body repr include_timestamps))
    by (intros; apply multi_speaker_body_blank; auto).
  repeat split. destruct (truthy include_timestamps); reflexivity.
Qed.

(** Only the truth value of [include_timestamps] matters: any two objects
    with the same truth value give the same output, so a non-empty string
    or a non-zero number turns the timestamps on. *)
Theorem include_timestamps_by_truth_value (transcript : dict) (a b : value) :
  truthy a = truthy b ->
  format_md_basic repr transcript a = format_md_basic repr transcript b
  /\ format_md_list repr transcript a = format_md_list repr transcript b
  /\ format_md_quote repr transcript a = format_md_quote repr transcript b
  /\ format_md_table repr transcript a = format_md_table repr transcript b.
Proof.
  intros Hab.
  assert (Hbasic : forall lines seg,
    md_basic_body repr a lines seg = md_basic_body repr b lines seg)
    by (intros; unfold md_basic_body; now rewrite Hab).
  assert (Hlist : forall lines seg,
    md_list_body repr a lines seg = md_list_body repr b lines seg)
    by (intros; unfold md_list_body; now rewrite Hab).
  assert (Hquote : forall lines seg,
    md_quote_body repr a lines seg = md_quote_body repr b lines seg)
    by (intros; unfold md_quote_body; now rewrite Hab).
  assert (Htwo : forall speakers lines seg,
    two_speaker_body speakers a lines seg
    = two_speaker_body speakers b lines seg)
    by (intros; unfold two_speaker_body; now rewrite Hab).
  assert (Hmulti : forall lines seg,
    multi_speaker_body repr a lines seg = multi_speaker_body repr b lines seg)
    by (intros; unfold multi_speaker_body; now rewrite Hab).
  unfold format_md_basic, format_md_list, format_md_quote, format_md_table,
    _format_two_speaker_table, _format_multi_speaker_table.
  rewrite Hab.
  destruct (iter (_get_segments transcript)) as [segments|e]; cbn [bind].
  - rewrite (for_each_ext _ _ Hbasic), (for_each_ext _ _ Hlist),
      (for_each_ext _ _ Hquote).
    repeat split.
    destruct (detect_speakers (_get_segments transcript)) as [speakers|e];
      [|reflexivity].
    cbn [bind]. destruct (List.length speakers =? 2)%nat.
    + destruct (index speakers 0); [|reflexivity].
      destruct (index speakers 1); [|reflexivity].
      cbn [bind]. now rewrite (for_each_ext _ _ (Htwo speakers)).
    + now rewrite (for_each_ext _ _ Hmulti).
  - repeat split.
Qed.

End Edges.

(** ** Escaping in table cells *)

(** A pipe that is not right after a backslash. *)
Fixpoint unescaped_pipe (previous : ascii) (s : string) : bool :=
  match s with
  | String c rest =>
      (Ascii.eqb c "|" && negb (Ascii.eqb previous "\"))
      || unescaped_pipe c rest
  | EmptyString => false
  end.

(** After [text.replace("|", "\\|")], as the two table layouts apply it to
    a segment's text, every pipe of the cell follows a backslash, whatever
    stands before the cell. *)
Theorem table_text_pipes_escaped (text : string) (previous : ascii) :
  unescaped_pipe previous (replace text "|" "\|") = false.
Proof.
  revert previous. induction text as [|c text IH]; intros previous.
  - reflexivity.
  - cbn [replace]. destruct (Ascii.eqb c "|") eqn:Hc.
    + cbn [String.append unescaped_pipe]. rewrite IH. reflexivity.
    + cbn [String.append unescaped_pipe]. rewrite IH, Hc. reflexivity.
Qed.

(** ** The file-like [ListWriter] *)

Lemma concat_empty_app (a b : list string) :
  String.concat "" (a ++ b)%list = String.concat "" a ++ String.concat "" b.
Proof.
  induction a as [|x a IH]; [reflexivity|].
  destruct a as [|y a].
  - simpl. destruct b; [now rewrite append_nil_r | reflexivity].
  - change (String.concat "" ((x :: y :: a) ++ b)%list)
      with (x ++ "" ++ String.concat "" ((y :: a) ++ b)%list).
    rewrite IH.
    change (String.concat "" (x :: y :: a))
      with (x ++ "" ++ String.concat "" (y :: a)).
    simpl. now rewrite append_assoc.
Qed.

(** What [get_output] returns after a series of [write] calls is what the
    writer held before followed by the texts written, in the order of the
    calls; [flush] changes nothing. *)
Theorem list_writer_concatenates (texts : list string) (w : ListWriter) :
  get_output (fold_left write texts w)
    = get_output w ++ String.concat "" texts
  /\ get_output (fold_left write texts ListWriter_init)
     = String.concat "" texts
  /\ get_output (flush (fold_left write texts w))
     = get_output (fold_left write texts w).
Proof.
  assert (H : forall texts w,
    get_output (fold_left write texts w)
    = get_output w ++ String.concat "" texts).
  { clear. induction texts as [|x texts IH]; intros w.
    - simpl. now rewrite append_nil_r.
    - cbn [fold_left]. rewrite IH. unfold get_output, write, join, append.
      cbn [lines]. rewrite concat_empty_app.
      change (x :: texts) with ([x] ++ texts)%list.
      rewrite (concat_empty_app [x] texts). now rewrite append_assoc. }
  split; [apply H|]. split; [|reflexivity].
  rewrite H. reflexivity.
Qed.


(** ** Options *)

Lemma setitem_absent {V : Type} (d : list (string * V)) (k : string) (v : V) :
  get d k = None -> setitem d k v = (d ++ [(k, v)])%list.
Proof.
  induction d as [|[k0 v0] d IH]; simpl; intros Hd.
  - reflexivity.
  - destruct (String.eqb k0 k); [discriminate | now rewrite IH].
Qed.

Lemma get_absent {V : Type} (d : list (string * V)) (k : string) :
  ~ In k (map fst d) -> get d k = None.
Proof.
  induction d as [|[k0 v0] d IH]; simpl; intros Hd.
  - reflexivity.
  - destruct (String.eqb_spec k0 k) as [->|_]; [tauto|].
    apply IH. tauto.
Qed.

Lemma setitem_middle {V : Type} (pre post : list (string * V))
  (k : string) (v v' : V) :
  ~ In k (map fst pre) ->
  setitem (pre ++ (k, v) :: post) k v' = (pre ++ (k, v') :: post)%list.
Proof.
  induction pre as [|[k0 v0] pre IH]; simpl; intros Hpre.
  - now rewrite String.eqb_refl.
  - destruct (String.eqb_spec k0 k) as [->|_]; [tauto|].
    rewrite IH by tauto. reflexivity.
Qed.

(** The option of a default: the keyword argument of the same name when
    there is one, the default otherwise. *)
Definition overridden (kwargs : dict) (kv : string * value) : string * value :=
  (fst kv, get_or kwargs (fst kv) (snd kv)).

Lemma overridden_keys (kwargs : dict) (l : dict) :
  map fst (map (overridden kwargs) l) = map fst l.
Proof. rewrite map_map. reflexivity. Qed.

Lemma comprehension_maps (kwargs : dict) (defaults : dict) :
  NoDup (map fst defaults) ->
  forall acc,
    (forall k, In k (map fst defaults) -> ~ In k (map fst acc)) ->
    fold_left
      (fun acc kv => setitem acc (fst kv) (get_or kwargs (fst kv) (snd kv)))
      defaults acc
    = (acc ++ map (overridden kwargs) defaults)%list.
Proof.
  induction defaults as [|[k v] defaults IH]; intros Hnd acc Hacc.
  - simpl. now rewrite app_nil_r.
  - simpl in *. inversion Hnd as [|? ? Hk Hnd']; subst.
    rewrite setitem_absent by (apply get_absent, Hacc; now left).
    rewrite IH; [now rewrite <- app_assoc | exact Hnd' |].
    intros k' Hk' Hin. rewrite map_app in Hin.
    apply in_app_or in Hin as [Hin|[<-|[]]].
    + apply (Hacc k'); [now right | exact Hin].
    + contradiction.
Qed.

Lemma update_in_place (kwargs : dict) (todo : dict) :
  forall done,
    NoDup (map fst (done ++ todo)) ->
    fold_left (fun acc kv => setitem acc (fst kv) (snd kv))
      (map (overridden kwargs) todo)
      (map (overridden kwargs) done ++ todo)%list
    = map (overridden kwargs) (done ++ todo).
Proof.
  induction todo as [|[k v] todo IH]; intros done Hnd.
  - simpl. now rewrite !app_nil_r.
  - cbn [map fold_left overridden fst snd].
    rewrite setitem_middle.
    + assert (Hsplit : (done ++ (k, v) :: todo
                        = (done ++ [(k, v)]) ++ todo)%list)
        by now rewrite <- app_assoc.
      rewrite Hsplit in Hnd |- *.
      rewrite <- (IH (done ++ [(k, v)])%list Hnd).
      f_equal. rewrite map_app, <- app_assoc. reflexivity.
    + rewrite overridden_keys. rewrite map_app in Hnd.
      apply NoDup_remove_2 in Hnd. intros Hin. apply Hnd.
      apply in_or_app. now left.
Qed.

(** [update_options] keeps the keys of the defaults, in their order, and
    gives each the keyword argument of the same name when there is one;
    a keyword argument that is no default never gets in. *)
Theorem update_options_overrides (kwargs defaults : dict) :
  NoDup (map fst defaults) ->
  update_options kwargs defaults = map (overridden kwargs) defaults.
Proof.
  intros Hnd. unfold update_options, update.
  rewrite (comprehension_maps kwargs defaults Hnd []) by (intros ? _ []).
  cbn [app].
  exact (update_in_place kwargs defaults [] Hnd).
Qed.

Section Runs.
Variable repr : value -> string.
Variable write_result : writer_class -> value -> dict -> result (list string).

(** [format_transcription] reads four keyword arguments and no other:
    calls that agree on [max_line_width], [max_line_count],
    [highlight_words] and [include_timestamps] return the same. *)
Theorem only_four_options_are_read (transcript : dict) (format : string)
  (kwargs1 kwargs2 : dict) :
  (forall k,
     In k ["max_line_width"; "max_line_count"; "highlight_words";
           "include_timestamps"] ->
     get kwargs1 k = get kwargs2 k) ->
  format_transcription repr write_result transcript format kwargs1
  = format_transcription repr write_result transcript format kwargs2.
Proof.
  intros Hkw. unfold format_transcription.
  rewrite !update_options_defaults. unfold writer_options, get_or.
  rewrite (Hkw "max_line_width"), (Hkw "max_line_count"),
    (Hkw "highlight_words"), (Hkw "include_timestamps")
    by (simpl; tauto).
  reflexivity.
Qed.

End Runs.


(** ** Running a format again *)

Lemma setitem_same {V : Type} (d : list (string * V)) (k : string) (v : V) :
  get d k = Some v -> setitem d k v = d.
Proof.
  induction d as [|[k0 v0] d IH]; simpl; [discriminate|].
  destruct (String.eqb k0 k); intros Hd.
  - now injection Hd as ->.
  - now rewrite IH.
Qed.

Lemma setitem_setitem {V : Type} (d : list (string * V)) (k : string)
  (v v' : V) :
  setitem (setitem d k v) k v' = setitem d k v'.
Proof.
  induction d as [|[k0 v0] d IH]; simpl.
  - now rewrite String.eqb_refl.
  - destruct (String.eqb k0 k) eqn:Hk; simpl; rewrite Hk;
      [reflexivity | now rewrite IH].
Qed.

(** A transcript that holds the language and the segments that
    [language_into_segments] leaves is left as it is by the statement. *)
Lemma language_into_segments_settled (transcript settled : dict) :
  get settled "language" = get (language_into_segments transcript) "language" ->
  get settled "segments" = get (language_into_segments transcript) "segments" ->
  language_into_segments settled = settled.
Proof.
  unfold language_into_segments at 1 2.
  destruct (get transcript "language") as [language|] eqn:Hl.
  - destruct (get transcript "segments") as [[| | | | | |segments]|] eqn:Hs;
      try (rewrite Hl, Hs; intros Hl' Hs';
           unfold language_into_segments; now rewrite Hl', Hs').
    rewrite get_setitem_other by discriminate.
    rewrite get_setitem, String.eqb_refl, Hl. intros Hl' Hs'.
    unfold language_into_segments. rewrite Hl', Hs'.
    rewrite setitem_setitem. now apply setitem_same.
  - rewrite Hl. intros Hl' _.
    unfold language_into_segments. now rewrite Hl'.
Qed.

Section Again.
Variable repr : value -> string.
Variable write_result : writer_class -> value -> dict -> result (list string).

(** What [handle_whisperx_format] returns depends on the transcript's
    language and segments only. *)
Lemma handle_reads_two_keys (t t' : dict) (wc : writer_class)
  (options : dict) :
  get t' "language" = get t "language" ->
  get t' "segments" = get t "segments" ->
  fst (handle_whisperx_format write_result t' wc options)
  = fst (handle_whisperx_format write_result t wc options).
Proof.
  intros Hl Hs.
  destruct (handle_whisperx_format_cases write_result t wc options) as [_ H].
  destruct (handle_whisperx_format_cases write_result t' wc options)
    as [_ H'].
  rewrite Hl, Hs in H'.
  destruct (get t "language"); [|now rewrite H, H'].
  destruct (get t "segments") as [[| | | | | |segments]|];
    now rewrite H, H'.
Qed.

(** On the transcript it has left, [handle_whisperx_format] returns what it
    returned and changes nothing more. *)
Lemma handle_settled (t settled : dict) (wc : writer_class) (options : dict) :
  get settled "language" = get (language_into_segments t) "language" ->
  get settled "segments" = get (language_into_segments t) "segments" ->
  handle_whisperx_format write_result settled wc options
  = (fst (handle_whisperx_format write_result t wc options), settled).
Proof.
  intros Hl Hs.
  destruct (handle_whisperx_format_cases write_result settled wc options)
    as [Hsnd Hfst].
  rewrite (language_into_segments_settled t settled Hl Hs) in Hsnd.
  rewrite (surjective_pairing
             (handle_whisperx_format write_result settled wc options)).
  rewrite Hsnd. f_equal. clear Hsnd.
  destruct (handle_whisperx_format_cases write_result t wc options)
    as [_ Hfst0].
  rewrite Hl, Hs in Hfst. unfold language_into_segments in Hfst.
  destruct (get t "language") as [language|] eqn:Hlang;
    [|rewrite Hlang in Hfst; now rewrite Hfst, Hfst0].
  destruct (get t "segments") as [[| | | | | |segments]|] eqn:Hseg;
    try (rewrite Hlang, Hseg in Hfst; now rewrite Hfst, Hfst0).
  rewrite get_setitem_other in Hfst by discriminate.
  rewrite get_setitem, String.eqb_refl, Hlang in Hfst.
  rewrite setitem_setitem in Hfst. now rewrite Hfst, Hfst0.
Qed.

(** Formatting is repeatable: called again on the transcript the first
    call left behind, with the same format and keyword arguments,
    [format_transcription] returns the same response (or raises the same
    exception) and leaves the transcript as it found it. *)
Theorem format_transcription_again (transcript : dict) (format : string)
  (kwargs : dict) :
  let first :=
    format_transcription repr write_result transcript format kwargs in
  format_transcription repr write_result (snd first) format kwargs = first.
Proof.
  cbv zeta.
  destruct (in_dec string_dec format writer_formats) as [Hin|Hnot];
    [|now rewrite (format_transcription_reads repr write_result transcript
                     format kwargs Hnot)].
  assert (Hplain : forall wc,
    handle_whisperx_format write_result
      (snd (handle_whisperx_format write_result transcript wc
              (writer_options kwargs))) wc (writer_options kwargs)
    = handle_whisperx_format write_result transcript wc
        (writer_options kwargs)).
  { intros wc.
    destruct (handle_whisperx_format_cases write_result transcript wc
                (writer_options kwargs)) as [Hsnd _].
    rewrite Hsnd at 1.
    rewrite (handle_settled transcript (language_into_segments transcript))
      by reflexivity.
    rewrite <- Hsnd. symmetry. apply surjective_pairing. }
  simpl in Hin. destruct Hin as [<-|[<-|[<-|[<-|[]]]]];
    unfold format_transcription; rewrite !update_options_defaults; simpl.
  - destruct (handle_whisperx_format_cases write_result transcript WriteVTT
                (writer_options kwargs)) as [Hsnd _].
    destruct (handle_whisperx_format write_result transcript WriteVTT
                (writer_options kwargs)) as [[out|e] t1] eqn:Hfirst;
      simpl in Hsnd; subst t1; simpl.
    + rewrite (handle_settled transcript
                 (setitem (language_into_segments transcript) "vtt_text"
                    (VStr out)))
        by (now rewrite get_setitem_other by discriminate).
      rewrite Hfirst. simpl.
      rewrite setitem_setitem. reflexivity.
    + rewrite (handle_settled transcript (language_into_segments transcript))
        by reflexivity.
      rewrite Hfirst. reflexivity.
  - pose proof (Hplain WriteSRT) as H.
    destruct (handle_whisperx_format write_result transcript WriteSRT
                (writer_options kwargs)) as [r t1].
    simpl in *. now rewrite H.
  - pose proof (Hplain WriteVTT) as H.
    destruct (handle_whisperx_format write_result transcript WriteVTT
                (writer_options kwargs)) as [r t1].
    simpl in *. now rewrite H.
  - pose proof (Hplain WriteAudacity) as H.
    destruct (handle_whisperx_format write_result transcript WriteAudacity
                (writer_options kwargs)) as [r t1].
    simpl in *. now rewrite H.
Qed.

End Again.


(** ** Timestamps as clock readings *)

(** Hours, minutes and seconds of a whole number of seconds, written as
    [_format_timestamp] writes them. *)
Definition clock_string (n : Z) : string :=
  let hours := n / 3600 in
  let minutes := (n mod 3600) / 60 in
  let secs := n mod 60 in
  if hours >? 0 then
    format_02d hours ++ ":" ++ format_02d minutes ++ ":" ++ format_02d secs
  else
    format_02d minutes ++ ":" ++ format_02d secs.

Lemma Qfloor_div (x : Q) (d : positive) :
  Qfloor (x / inject_Z (Z.pos d)) = Qfloor x / Z.pos d.
Proof.
  destruct x as [a b]. unfold Qdiv, Qinv, Qmult, Qfloor, inject_Z. simpl.
  rewrite Z.mul_1_r, Pos2Z.inj_mul.
  symmetry. apply Z.div_div; lia.
Qed.

Lemma Qfloor_sub (x : Q) (k : Z) :
  Qfloor (x - inject_Z k) = Qfloor x - k.
Proof.
  destruct x as [a b].
  unfold Qminus, Qplus, Qopp, Qfloor, inject_Z. simpl.
  rewrite Z.mul_1_r, Pos.mul_1_r.
  replace (a + - k * Z.pos b) with (a + (- k) * Z.pos b) by lia.
  rewrite Z.div_add by lia. lia.
Qed.

Lemma Qfloor_qmod (x : Q) (d : positive) :
  Qfloor (qmod x (Z.pos d)) = Qfloor x mod Z.pos d.
Proof.
  unfold qmod.
  rewrite (Qfloor_comp _ (x - inject_Z (Z.pos d * Qfloor (x / inject_Z (Z.pos d))))).
  - rewrite Qfloor_sub, Qfloor_div. rewrite Z.mod_eq by lia. reflexivity.
  - rewrite inject_Z_mult. reflexivity.
Qed.

(** The fields of a float of at most 2^53 seconds, in integer arithmetic
    on the whole seconds. *)
Lemma timestamp_fields_whole (seconds : Q) :
  (0 <= seconds)%Q -> (seconds <= inject_Z (2 ^ 53))%Q ->
  int (floordiv (NFloat (Finite seconds)) 3600) = Ok (Qfloor seconds / 3600)
  /\ int (floordiv (modulo (NFloat (Finite seconds)) 3600) 60)
     = Ok ((Qfloor seconds mod 3600) / 60)
  /\ int (modulo (NFloat (Finite seconds)) 60) = Ok (Qfloor seconds mod 60).
Proof.
  intros Hs Hb.
  rewrite (hours_float_exact seconds Hs Hb), (minutes_float seconds Hs),
    (seconds_float seconds Hs).
  change 3600%Q with (inject_Z (Z.pos 3600)).
  change 60%Q with (inject_Z (Z.pos 60)).
  rewrite !Qfloor_div, !Qfloor_qmod. repeat split.
Qed.

(** The fraction of a second is dropped, not rounded: for a float of at
    least zero and at most 2^53 seconds [_format_timestamp] writes the
    clock reading of its whole part, whose hours, minutes and seconds add
    up to that whole part.  (Beyond 2^53 the hour field is the float
    quotient: see [format_timestamp_rounding].) *)
Theorem format_timestamp_whole_seconds (seconds : Q) :
  (0 <= seconds)%Q -> (seconds <= inject_Z (2 ^ 53))%Q ->
  let n := Qfloor seconds in
  _format_timestamp (NFloat (Finite seconds)) = Ok (clock_string n)
  /\ _format_timestamp (NFloat (Finite seconds)) = _format_timestamp (NInt n)
  /\ 3600 * (n / 3600) + 60 * ((n mod 3600) / 60) + n mod 60 = n.
Proof.
  intros Hs Hb n.
  assert (Hclock : _format_timestamp (NFloat (Finite seconds))
                   = Ok (clock_string n)).
  { destruct (timestamp_fields_whole seconds Hs Hb) as (Eh & Em & Es).
    unfold _format_timestamp, clock_string. rewrite Eh, Em, Es.
    reflexivity. }
  split; [exact Hclock | ]. split; [rewrite Hclock; reflexivity | ].
  pose proof (Z.div_mod n 3600 ltac:(lia)) as H1.
  pose proof (Z.div_mod (n mod 3600) 60 ltac:(lia)) as H2.
  assert (H3 : (n mod 3600) mod 60 = n mod 60).
  { rewrite <- (Z.mod_mod_divide n 3600 60); [reflexivity|].
    exists 60. reflexivity. }
  lia.
Qed.


(** For an [int] nothing is rounded anywhere, negative numbers included:
    the timestamp is the clock reading of floor division and remainder, so
    a negative number of seconds shows no hour and no sign, and wraps
    around within the hour. *)
Theorem format_timestamp_of_int (n : Z) :
  format_timestamp_value (VInt n) = Ok (clock_string n)
  /\ (n < 0 ->
      clock_string n
      = format_02d ((n mod 3600) / 60) ++ ":" ++ format_02d (n mod 60))
  /\ 0 <= (n mod 3600) / 60 < 60 /\ 0 <= n mod 60 < 60.
Proof.
  split; [|split].
  - reflexivity.
  - intros Hn. unfold clock_string.
    assert (Hh : n / 3600 < 0) by (apply Z.div_lt_upper_bound; lia).
    destruct (Z.gtb_spec (n / 3600) 0); [lia | reflexivity].
  - pose proof (Z.mod_pos_bound n 3600 ltac:(lia)) as H1.
    pose proof (Z.mod_pos_bound n 60 ltac:(lia)) as H2.
    split; [|exact H2]. split.
    + apply Z.div_pos; lia.
    + apply Z.div_lt_upper_bound; lia.
Qed.

(** ** Worked examples *)

Definition options_defaults : dict :=
  [("max_line_width", VInt 1000); ("max_line_count", VNone);
   ("highlight_words", VBool false)].

(** Three segments: one with nothing but its text, one without a text,
    one with all its fields. *)
Definition unnamed_segments : list value :=
  [VDict [("text", VStr "Bye.")];
   VDict [("speaker", VStr "SPEAKER_01"); ("start", VInt 65)];
   VDict [("speaker", VStr "SPEAKER_01"); ("text", VStr " Hi ");
          ("start", VInt 65)]].

Lemma missing_fields_render_defaults_witness :
  _get_segments (list_transcript unnamed_segments) = VList unnamed_segments
  /\ forallb (well_formed (VBool true)) unnamed_segments = true
  /\ format_md_list repr_unused (list_transcript unnamed_segments)
       (VBool true)
     = Ok (join newline
             ["- **Unknown** [00:00]: Bye."; "- **SPEAKER_01** [01:05]: Hi"])
  /\ (forall speakers,
        detect_speakers (VList unnamed_segments) = Ok speakers ->
        format_md_table repr_unused (list_transcript unnamed_segments)
          (VBool true)
        = Ok (join newline
                (table_lines repr_unused (VBool true) speakers
                   (non_blank unnamed_segments)))).
Proof.
  assert (H1 : _get_segments (list_transcript unnamed_segments)
               = VList unnamed_segments) by reflexivity.
  assert (H2 : forallb (well_formed (VBool true)) unnamed_segments = true)
    by (vm_compute; reflexivity).
  split; [exact H1|]. split; [exact H2|].
  pose proof (missing_fields_render_defaults repr_unused
                (list_transcript unnamed_segments) unnamed_segments
                (VBool true) H1 H2) as H.
  split; [exact (proj1 (proj2 (proj1 H)))
         | exact (proj2 (proj2 (proj2 (proj1 H))))].
Defined.

Example unnamed_segments_table :
  format_md_table repr_unused (list_transcript unnamed_segments) (VBool true)
  = Ok (join newline
          ["| Unknown | SPEAKER_01 |"; "| --- | --- |";
           "| [00:00] Bye. |  |"; "|  | [01:05] Hi |"]).
Proof. vm_compute. reflexivity. Qed.

Lemma format_md_list_lines_witness :
  _get_segments sample_transcript = VList sample_segments
  /\ forallb (well_formed (VBool true)) sample_segments = true
  /\ format_md_list repr_unused sample_transcript (VBool true)
     = Ok (join newline
             (map (list_line repr_unused (VBool true))
                (non_blank sample_segments))).
Proof.
  assert (H1 : _get_segments sample_transcript = VList sample_segments)
    by reflexivity.
  assert (H2 : forallb (well_formed (VBool true)) sample_segments = true)
    by (vm_compute; reflexivity).
  split; [exact H1|]. split; [exact H2|].
  exact (format_md_list_lines repr_unused sample_transcript sample_segments
           (VBool true) H1 H2).
Defined.

Lemma format_md_basic_paragraphs_witness :
  _get_segments sample_transcript = VList sample_segments
  /\ forallb (well_formed (VBool false)) sample_segments = true
  /\ format_md_basic repr_unused sample_transcript (VBool false)
     = Ok (strip (join (newline ++ newline)
                    (map (basic_line repr_unused (VBool false))
                       (non_blank sample_segments)))).
Proof.
  assert (H1 : _get_segments sample_transcript = VList sample_segments)
    by reflexivity.
  assert (H2 : forallb (well_formed (VBool false)) sample_segments = true)
    by (vm_compute; reflexivity).
  split; [exact H1|]. split; [exact H2|].
  exact (format_md_basic_paragraphs repr_unused sample_transcript
           sample_segments (VBool false) H1 H2).
Defined.

Lemma format_md_quote_spaced_witness :
  _get_segments sample_transcript = VList sample_segments
  /\ forallb (well_formed (VBool true)) sample_segments = true
  /\ format_md_quote repr_unused sample_transcript (VBool true)
     = Ok (join (newline ++ ">" ++ newline)
             (map (quote_line repr_unused (VBool true))
                (non_blank sample_segments))).
Proof.
  assert (H1 : _get_segments sample_transcript = VList sample_segments)
    by reflexivity.
  assert (H2 : forallb (well_formed (VBool true)) sample_segments = true)
    by (vm_compute; reflexivity).
  split; [exact H1|]. split; [exact H2|].
  exact (format_md_quote_spaced repr_unused sample_transcript sample_segments
           (VBool true) H1 H2).
Defined.

Lemma detect_speakers_columns_witness :
  forallb text_is_str sample_segments = true
  /\ forallb speaker_hashable sample_segments = true
  /\ exists speakers,
       detect_speakers (VList sample_segments) = Ok speakers
       /\ distinct speakers = true
       /\ (forall s, In s speakers ->
             exists segment, In segment (non_blank sample_segments)
                             /\ speaker_of segment = s)
       /\ (forall segment, In segment (non_blank sample_segments) ->
             existsb (eq (speaker_of segment)) speakers = true).
Proof.
  assert (H1 : forallb text_is_str sample_segments = true)
    by (vm_compute; reflexivity).
  assert (H2 : forallb speaker_hashable sample_segments = true)
    by (vm_compute; reflexivity).
  split; [exact H1|]. split; [exact H2|].
  exact (detect_speakers_columns sample_segments H1 H2).
Defined.

Lemma format_md_table_rows_witness :
  _get_segments sample_transcript = VList sample_segments
  /\ forallb (well_formed (VBool true)) sample_segments = true
  /\ detect_speakers (VList sample_segments)
     = Ok [VStr "SPEAKER_00"; VStr "SPEAKER_01"]
  /\ format_md_table repr_unused sample_transcript (VBool true)
     = Ok (join newline
             (table_lines repr_unused (VBool true)
                [VStr "SPEAKER_00"; VStr "SPEAKER_01"]
                (non_blank sample_segments))).
Proof.
  assert (H1 : _get_segments sample_transcript = VList sample_segments)
    by reflexivity.
  assert (H2 : forallb (well_formed (VBool true)) sample_segments = true)
    by (vm_compute; reflexivity).
  assert (H3 : detect_speakers (VList sample_segments)
               = Ok [VStr "SPEAKER_00"; VStr "SPEAKER_01"])
    by (vm_compute; reflexivity).
  split; [exact H1|]. split; [exact H2|]. split; [exact H3|].
  exact (format_md_table_rows repr_unused sample_transcript sample_segments
           (VBool true) _ H1 H2 H3).
Defined.

(** A transcript without a ["segments"] key. *)
Lemma nothing_to_format_witness :
  _get_segments [("text", VStr "hello")] = VList []
  /\ forallb is_blank [] = true
  /\ format_md_table repr_unused [("text", VStr "hello")] (VBool false)
     = Ok ("| Speaker | Message |" ++ newline ++ "| --- | --- |").
Proof.
  assert (H1 : _get_segments [("text", VStr "hello")] = VList [])
    by reflexivity.
  assert (H2 : forallb is_blank [] = true) by reflexivity.
  split; [exact H1|]. split; [exact H2|].
  exact (proj2 (proj2 (proj2
           (nothing_to_format repr_unused [("text", VStr "hello")] []
              (VBool false) H1 H2)))).
Defined.

(** The string [false] is a non-empty string: it turns the timestamps on. *)
Lemma include_timestamps_by_truth_value_witness :
  truthy (VStr "false") = truthy (VBool true)
  /\ format_md_list repr_unused sample_transcript (VStr "false")
     = format_md_list repr_unused sample_transcript (VBool true).
Proof.
  assert (H : truthy (VStr "false") = truthy (VBool true)) by reflexivity.
  split; [exact H|].
  exact (proj1 (proj2
           (include_timestamps_by_truth_value repr_unused sample_transcript
              (VStr "false") (VBool true) H))).
Defined.

Lemma update_options_overrides_witness :
  NoDup (map fst options_defaults)
  /\ update_options
       [("max_line_count", VInt 2); ("include_timestamps", VBool true)]
       options_defaults
     = [("max_line_width", VInt 1000); ("max_line_count", VInt 2);
        ("highlight_words", VBool false)].
Proof.
  assert (H : NoDup (map fst options_defaults)).
  { simpl. repeat constructor; simpl; intuition discriminate. }
  split; [exact H|].
  exact (update_options_overrides
           [("max_line_count", VInt 2); ("include_timestamps", VBool true)]
           options_defaults H).
Defined.

Lemma only_four_options_are_read_witness :
  (forall k,
     In k ["max_line_width"; "max_line_count"; "highlight_words";
           "include_timestamps"] ->
     get [("response_format", VStr "srt"); ("max_line_width", VInt 40)] k
     = get [("max_line_width", VInt 40)] k)
  /\ format_transcription repr_unused one_line_writer sample_transcript "srt"
       [("response_format", VStr "srt"); ("max_line_width", VInt 40)]
     = format_transcription repr_unused one_line_writer sample_transcript
         "srt" [("max_line_width", VInt 40)].
Proof.
  assert (H : forall k,
    In k ["max_line_width"; "max_line_count"; "highlight_words";
          "include_timestamps"] ->
    get [("response_format", VStr "srt"); ("max_line_width", VInt 40)] k
    = get [("max_line_width", VInt 40)] k).
  { intros k [<-|[<-|[<-|[<-|[]]]]]; reflexivity. }
  split; [exact H|].
  exact (only_four_options_are_read repr_unused one_line_writer
           sample_transcript "srt" _ _ H).
Defined.

Lemma format_timestamp_whole_seconds_witness :
  (0 <= 7199 # 2)%Q /\ (7199 # 2 <= inject_Z (2 ^ 53))%Q
  /\ _format_timestamp (NFloat (Finite (7199 # 2))) = Ok (clock_string 3599)
  /\ _format_timestamp (NFloat (Finite (7199 # 2)))
     = _format_timestamp (NInt 3599).
Proof.
  assert (H : (0 <= 7199 # 2)%Q) by (unfold Qle; simpl; lia).
  assert (Hb : (7199 # 2 <= inject_Z (2 ^ 53))%Q) by (vm_compute; discriminate).
  split; [exact H|]. split; [exact Hb|].
  destruct (format_timestamp_whole_seconds (7199 # 2) H Hb) as (H1 & H2 & _).
  split; [exact H1 | exact H2].
Defined.

Example timestamp_edge_examples :
  format_timestamp_value (VFloat (Finite (7199 # 2))) = Ok "59:59"
  /\ format_timestamp_value (VInt (-1)) = Ok "59:59"
  /\ format_timestamp_value (VBool true) = Ok "00:01"
  /\ format_timestamp_value (VStr "12") = Raise TypeError
  /\ format_timestamp_value VNone = Raise TypeError
  /\ format_timestamp_value (VFloat NaN)
     = Raise (ValueError "cannot convert float NaN to integer")
  /\ format_timestamp_value (VFloat (Inf true))
     = Raise (ValueError "cannot convert float NaN to integer").
Proof. repeat split; vm_compute; reflexivity. Qed.

Example format_transcription_again_example :
  let first :=
    format_transcription repr_unused one_line_writer sample_transcript
      "vtt_json" [] in
  snd first <> sample_transcript
  /\ format_transcription repr_unused one_line_writer (snd first)
       "vtt_json" [] = first.
Proof. split; [discriminate | vm_compute; reflexivity]. Qed.

End FormattersMore.

(* ================================================================== *)
(** * Further properties of dependencies.py *)
(* ================================================================== *)

Module DependenciesMore.
Import Py Config Dependencies DependenciesProps.

(** The test [lru_cache] makes: the stored call had these arguments. *)
Definition cache_hit (w : world) (path : string) (mtime : Q) : bool :=
  match cache w with
  | Some (p, m, _) => String.eqb p path && Qeq_bool m mtime
  | None => false
  end.

Lemma cache_miss (w : world) (path : string) (mtime : Q) :
  cache_hit w path mtime = false -> cached w path mtime = None.
Proof.
  unfold cache_hit, cached.
  destruct (cache w) as [[[p m] keys]|]; [intros ->|]; reflexivity.
Qed.

Section WithParser.
Variable json_load : string -> string + value.
Variable repr : value -> string.

Lemma get_api_keys_hit (w : world) (path : string) (f : file)
  (m : Q) (keys : value) :
  path <> "" -> fs w path = Ok f ->
  cache w = Some (path, m, keys) -> Qeq_bool m (st_mtime f) = true ->
  _get_api_keys json_load w (Some path) = (Ok keys, w).
Proof.
  intros Hne Hf Hc Hm. rewrite (get_api_keys_steps json_load w path Hne).
  unfold cached. rewrite Hf, Hc, String.eqb_refl, Hm. reflexivity.
Qed.

Lemma get_api_keys_load (w : world) (path : string) (f : file)
  (text : string) (keys : value) :
  path <> "" -> fs w path = Ok f ->
  cache_hit w path (st_mtime f) = false ->
  contents f = Ok text -> json_load text = inr keys ->
  _get_api_keys json_load w (Some path)
  = (Ok keys, set_cache (path, st_mtime f, keys) w).
Proof.
  intros Hne Hf Hmiss Ht Hj.
  rewrite (get_api_keys_steps json_load w path Hne).
  rewrite Hf, (cache_miss _ _ _ Hmiss), Ht, Hj. reflexivity.
Qed.

(** Once a file has been loaded, it is not read again while its
    modification time stays the same: the next call returns the mapping
    loaded before and changes nothing, whatever the file now holds. *)
Theorem unchanged_mtime_serves_cache (w : world) (path : string)
  (f f' : file) (text : string) (keys : value) :
  path <> "" ->
  fs w path = Ok f ->
  cache_hit w path (st_mtime f) = false ->
  contents f = Ok text ->
  json_load text = inr keys ->
  Qeq_bool (st_mtime f) (st_mtime f') = true ->
  let loaded := snd (_get_api_keys json_load w (Some path)) in
  let later := rewrite_file loaded path f' in
  _get_api_keys json_load later (Some path) = (Ok keys, later).
Proof.
  intros Hne Hf Hmiss Ht Hj Hm. cbv zeta.
  rewrite (get_api_keys_load w path f text keys Hne Hf Hmiss Ht Hj).
  cbn [snd].
  apply (get_api_keys_hit _ path f' (st_mtime f) keys Hne).
  - unfold rewrite_file. cbn [fs]. now rewrite String.eqb_refl.
  - reflexivity.
  - exact Hm.
Qed.

(** The cache is invalidated when the modification time changes: after a
    load, a file with another modification time is read again, and what it
    parses to is returned and replaces the cached entry. *)
Theorem changed_mtime_reloads (w : world) (path : string)
  (f f' : file) (text text' : string) (keys keys' : value) :
  path <> "" ->
  fs w path = Ok f ->
  cache_hit w path (st_mtime f) = false ->
  contents f = Ok text ->
  json_load text = inr keys ->
  Qeq_bool (st_mtime f) (st_mtime f') = false ->
  contents f' = Ok text' ->
  json_load text' = inr keys' ->
  let loaded := snd (_get_api_keys json_load w (Some path)) in
  let later := rewrite_file loaded path f' in
  _get_api_keys json_load later (Some path)
  = (Ok keys', set_cache (path, st_mtime f', keys') later).
Proof.
  intros Hne Hf Hmiss Ht Hj Hm Ht' Hj'. cbv zeta.
  rewrite (get_api_keys_load w path f text keys Hne Hf Hmiss Ht Hj).
  cbn [snd].
  apply (get_api_keys_load _ path f' text'); [exact Hne | | | exact Ht' | exact Hj'].
  - unfold rewrite_file. cbn [fs]. now rewrite String.eqb_refl.
  - unfold cache_hit, rewrite_file, set_cache. cbn [cache].
    now rewrite String.eqb_refl, Hm.
Qed.

(** What the [try] of [_get_api_keys] does to the state: a caught
    exception logs one error, returns the empty mapping and leaves the
    cache alone; another one propagates and changes nothing. *)
Lemma recover_effect (path : string) (e : exn) (w : world) :
  (caught e = true
   /\ (exists msg, log (snd (recover path e w)) = append (log w) (ERROR, msg))
   /\ fst (recover path e w) = Ok (VDict [])
   /\ cache (snd (recover path e w)) = cache w)
  \/ (caught e = false /\ recover path e w = (Raise e, w)).
Proof.
  destruct e; first [ right; split; reflexivity
                    | left; split; [reflexivity | ];
                      split; [eexists; reflexivity | split; reflexivity] ].
Qed.

(** What a call does to the state: it never touches the file system, and
    either it logs one error, returns the empty mapping and leaves the
    cache alone (a failure is not cached), or it logs nothing and the
    cache, if it changed, holds the value returned, or it lets through an
    exception that is neither [FileNotFoundError] nor [JSONDecodeError]
    and leaves the state as it was. *)
Theorem get_api_keys_effect (w : world) (api_keys_file : option string) :
  let result := fst (_get_api_keys json_load w api_keys_file) in
  let after := snd (_get_api_keys json_load w api_keys_file) in
  fs after = fs w
  /\ ((exists msg, log after = append (log w) (ERROR, msg))
      /\ result = Ok (VDict []) /\ cache after = cache w
      \/ log after = log w
         /\ (exists keys,
               result = Ok keys
               /\ (cache after = cache w
                   \/ exists path mtime,
                        cache after = Some (path, mtime, keys)))
      \/ (exists e, result = Raise e /\ caught e = false) /\ after = w).
Proof.
  cbv zeta. split; [apply get_api_keys_fs|].
  assert (Hkept : forall keys,
    log w = log w
    /\ (exists keys', Ok keys = Ok keys'
                      /\ (cache w = cache w
                          \/ exists path mtime,
                               cache w = Some (path, mtime, keys')))).
  { intros keys. split; [reflexivity | ]. exists keys. auto. }
  assert (Hrec : forall path e,
    (exists msg, log (snd (recover path e w)) = append (log w) (ERROR, msg))
    /\ fst (recover path e w) = Ok (VDict [])
    /\ cache (snd (recover path e w)) = cache w
    \/ log (snd (recover path e w)) = log w
       /\ (exists keys,
             fst (recover path e w) = Ok keys
             /\ (cache (snd (recover path e w)) = cache w
                 \/ exists path' mtime,
                      cache (snd (recover path e w))
                      = Some (path', mtime, keys)))
    \/ (exists e', fst (recover path e w) = Raise e' /\ caught e' = false)
       /\ snd (recover path e w) = w).
  { intros path e.
    destruct (recover_effect path e w) as [(_ & H)|[Hc ->]];
      [left; exact H | right; right].
    split; [exists e; split; [reflexivity | exact Hc] | reflexivity]. }
  destruct api_keys_file as [path|]; [ | right; left; apply (Hkept (VDict []))].
  destruct (String.eqb_spec path "") as [->|Hne];
    [right; left; apply (Hkept (VDict [])) | ].
  rewrite (get_api_keys_steps json_load w path Hne).
  destruct (fs w path) as [f|e]; [ | apply Hrec].
  destruct (cached w path (st_mtime f)) as [keys|];
    [right; left; apply (Hkept keys) | ].
  destruct (contents f) as [text|e]; [ | apply Hrec].
  destruct (json_load text) as [msg|keys]; [apply Hrec | ].
  right. left. split; [reflexivity | ]. exists keys.
  split; [reflexivity | ]. right. cbn [snd set_cache cache]. eauto.
Qed.

(** The default key opens the door whenever the keys are loaded as a JSON
    object, whatever it holds, and so when no key file is configured, when
    the file is missing and when its text is not valid JSON, where
    [_get_api_keys] returns the empty object.  Only a key file that holds
    JSON of another type, or cannot be read, stops it. *)
Theorem default_key_always_accepted (w : world) (config : Config)
  (credentials : string) :
  api_key config = Some credentials ->
  let loaded := fst (_get_api_keys json_load w (api_keys_file config)) in
  let result := fst (verify_api_key json_load repr w config credentials) in
  (forall keys, loaded = Ok (VDict keys) -> result = Ok tt)
  /\ (forall v, loaded = Ok v -> (forall keys, v <> VDict keys) ->
                result = Raise AttributeError)
  /\ (forall e, loaded = Raise e -> result = Raise e /\ caught e = false).
Proof.
  intros Hkey. cbv zeta.
  pose proof (get_api_keys_uncaught json_load w (api_keys_file config))
    as Hun.
  rewrite verify_api_key_steps.
  destruct (_get_api_keys json_load w (api_keys_file config)) as [r w'].
  cbn [fst] in *. split; [ | split].
  - intros keys ->. cbv zeta.
    unfold differs. rewrite Hkey, String.eqb_refl. reflexivity.
  - intros v -> Hn. destruct v as [| | | | | |keys]; try reflexivity.
    exfalso. apply (Hn keys). reflexivity.
  - intros e ->. split; [reflexivity | apply Hun; reflexivity].
Qed.

(** The check fails closed: when the configured key file does not exist,
    or no key file is configured at all, every credential but the default
    key is rejected with 403. *)
Theorem missing_key_file_rejects (w : world) (config : Config)
  (credentials : string) :
  match api_keys_file config with
  | Some path => fs w path = Raise FileNotFoundError
  | None => True
  end ->
  api_key config <> Some credentials ->
  fst (verify_api_key json_load repr w config credentials)
  = Raise (HTTPException 403 "Invalid API Key").
Proof.
  intros Hfile Hkey.
  assert (Hdiff : differs credentials (api_key config) = true)
    by (now apply differs_iff).
  unfold verify_api_key, _get_api_keys, stat_mtime.
  destruct (api_keys_file config) as [path|]; [|simpl; now rewrite Hdiff].
  destruct (String.eqb path ""); [simpl; now rewrite Hdiff|].
  rewrite Hfile. simpl. now rewrite Hdiff.
Qed.

(** [verify_api_key] writes one INFO record when it lets the request
    through, naming the client when the key file names one, and none of
    its own when it rejects; it changes nothing else beyond what
    [_get_api_keys] does. *)
Theorem verify_api_key_effect (w : world) (config : Config)
  (credentials : string) :
  let loaded := snd (_get_api_keys json_load w (api_keys_file config)) in
  let result := fst (verify_api_key json_load repr w config credentials) in
  let after := snd (verify_api_key json_load repr w config credentials) in
  fs after = fs w
  /\ cache after = cache loaded
  /\ (result = Ok tt ->
      exists msg, log after = append (log loaded) (INFO, msg))
  /\ (result <> Ok tt -> after = loaded).
Proof.
  cbv zeta.
  pose proof (get_api_keys_fs json_load w (api_keys_file config)) as Hfs.
  rewrite verify_api_key_steps.
  destruct (_get_api_keys json_load w (api_keys_file config)) as [[v|e] w'];
    cbn [fst snd] in *.
  - destruct v as [| | | | | |keys];
      try (split; [exact Hfs | ]; split; [reflexivity | ];
           split; [discriminate | intros _; reflexivity]).
    cbv zeta.
    destruct (differs credentials (api_key config)
              && is_none (get_or keys credentials VNone)); cbn [fst snd].
    + split; [exact Hfs | ]. split; [reflexivity | ].
      split; [discriminate | intros _; reflexivity].
    + split; [exact Hfs | ]. split; [reflexivity | ].
      split; [intros _; eexists; reflexivity | ].
      intros H. now contradiction H.
  - split; [exact Hfs | ]. split; [reflexivity | ].
    split; [discriminate | intros _; reflexivity].
Qed.

End WithParser.

(** ** Worked examples *)

(** The state after a failing call and a load, and a call on each of the
    two files. *)
Lemma get_api_keys_on_fixed_files_witness :
  "keys.json" <> ""
  /\ fs sample_world "keys.json"
     = Ok {| st_mtime := 1700000000 # 1; contents := Ok keys_json |}
  /\ fst (_get_api_keys sample_json_load
            (after_calls sample_json_load (fs sample_world)
               [Some "broken.json"; Some "keys.json"])
            (Some "keys.json"))
     = Ok (VDict [("secret-1", VStr "alice")]).
Proof.
  assert (H1 : "keys.json" <> "") by discriminate.
  assert (H2 : fs sample_world "keys.json"
               = Ok {| st_mtime := 1700000000 # 1;
                       contents := Ok keys_json |}) by reflexivity.
  split; [exact H1|]. split; [exact H2|].
  exact (get_api_keys_on_fixed_files sample_json_load (fs sample_world)
           [Some "broken.json"; Some "keys.json"] "keys.json" _ keys_json
           H1 H2 eq_refl).
Defined.

Lemma unchanged_mtime_serves_cache_witness :
  "keys.json" <> ""
  /\ _get_api_keys sample_json_load
       (rewrite_file
          (snd (_get_api_keys sample_json_load sample_world
                  (Some "keys.json")))
          "keys.json"
          {| st_mtime := 1700000000 # 1; contents := Ok "{oops" |})
       (Some "keys.json")
     = (Ok (VDict [("secret-1", VStr "alice")]),
        rewrite_file
          (snd (_get_api_keys sample_json_load sample_world
                  (Some "keys.json")))
          "keys.json"
          {| st_mtime := 1700000000 # 1; contents := Ok "{oops" |}).
Proof.
  assert (H : "keys.json" <> "") by discriminate.
  split; [exact H|].
  exact (unchanged_mtime_serves_cache sample_json_load sample_world
           "keys.json" _
           {| st_mtime := 1700000000 # 1; contents := Ok "{oops" |}
           keys_json _ H eq_refl eq_refl eq_refl eq_refl eq_refl).
Defined.

Lemma changed_mtime_reloads_witness :
  "keys.json" <> ""
  /\ fst (_get_api_keys sample_json_load
            (rewrite_file
               (snd (_get_api_keys sample_json_load sample_world
                       (Some "keys.json")))
               "keys.json"
               {| st_mtime := 1700000500 # 1; contents := Ok "{}" |})
            (Some "keys.json"))
     = Ok (VDict []).
Proof.
  assert (H : "keys.json" <> "") by discriminate.
  split; [exact H|].
  exact (f_equal fst
           (changed_mtime_reloads sample_json_load sample_world
              "keys.json" _
              {| st_mtime := 1700000500 # 1; contents := Ok "{}" |}
              keys_json "{}" _ (VDict [])
              H eq_refl eq_refl eq_refl eq_refl eq_refl eq_refl eq_refl)).
Defined.

(** The default key, with a key file that has become malformed. *)
Lemma default_key_always_accepted_witness :
  api_key sample_config = Some "default-key"
  /\ fst (verify_api_key sample_json_load repr_unread
            (rewrite_file sample_world "keys.json"
               {| st_mtime := 1 # 1; contents := Ok "{oops" |})
            sample_config "default-key") = Ok tt.
Proof.
  assert (H : api_key sample_config = Some "default-key") by reflexivity.
  split; [exact H|].
  exact (proj1
           (default_key_always_accepted sample_json_load repr_unread
              (rewrite_file sample_world "keys.json"
                 {| st_mtime := 1 # 1; contents := Ok "{oops" |})
              sample_config "default-key" H)
           [] eq_refl).
Defined.

Lemma missing_key_file_rejects_witness :
  fs sample_world "missing.json" = Raise FileNotFoundError
  /\ Some "default-key" <> Some "secret-1"
  /\ fst (verify_api_key sample_json_load repr_unread sample_world
            {| api_key := Some "default-key";
               api_keys_file := Some "missing.json" |}
            "secret-1")
     = Raise (HTTPException 403 "Invalid API Key").
Proof.
  assert (H1 : fs sample_world "missing.json" = Raise FileNotFoundError)
    by reflexivity.
  assert (H2 : Some "default-key" <> Some "secret-1") by discriminate.
  split; [exact H1|]. split; [exact H2|].
  exact (missing_key_file_rejects sample_json_load repr_unread sample_world
           {| api_key := Some "default-key";
              api_keys_file := Some "missing.json" |}
           "secret-1" H1 H2).
Defined.

End DependenciesMore.
